(** * HeatPump: the sampling / classification / aggregation core

    A shallow embedding of [GreenXHeatmeter/core_logic.py] (class
    [DBWriterSQLite] and its helpers): the mode classifier, the write
    decision of the main loop, the day segmentation and the month / year /
    total roll-ups, together with the properties of the specification
    that concern them.

    Conventions.
    - Python floats are IEEE binary64 values: [PrimFloat.float].
    - Timestamps ([ts_utc_s]), durations and counters are Python ints: [Z].
    - [None] / SQL [NULL] is [option].
    - The status strings "S", "H", "C", "D", "ON", "OFF" are the
      constructors of [Status]; [status_code] gives the string back.
    - SQLite tables are lists of rows; the primary key is enforced by the
      insert functions ([INSERT OR REPLACE]). *)

From Stdlib Require Import ZArith List Bool String Lia PrimFloat Uint63 Sorted.
Import ListNotations.
Local Open Scope Z_scope.
#[local] Set Warnings "-inexact-float".

(* ================================================================== *)
(** * Statuses *)

Inductive Status : Type :=
  | Standby | Heating | Cooling | Defrost | On | Off.

Definition status_code (s : Status) : string :=
  match s with
  | Standby => "S" | Heating => "H" | Cooling => "C"
  | Defrost => "D" | On => "ON" | Off => "OFF"
  end%string.

Definition status_eqb (a b : Status) : bool :=
  match a, b with
  | Standby, Standby | Heating, Heating | Cooling, Cooling
  | Defrost, Defrost | On, On | Off, Off => true
  | _, _ => false
  end.

(** [allowed_status = {"S", "H", "C", "D"}]: the accumulating statuses. *)
Definition allowed_status (s : Status) : bool :=
  match s with
  | Standby | Heating | Cooling | Defrost => true
  | On | Off => false
  end.

(** [status NOT IN ('ON','OFF')] *)
Definition is_boundary (s : Status) : bool :=
  match s with On | Off => true | _ => false end.

(* ================================================================== *)
(** * Numbers *)

(** Conversion of a Python int to a float (exact below 2^53, which covers
    every duration and counter of the program). *)
Definition float_of_Z (z : Z) : float :=
  if z <? 0 then PrimFloat.opp (PrimFloat.of_uint63 (Uint63.of_Z (- z)))
  else PrimFloat.of_uint63 (Uint63.of_Z z).

(** [a or b] on an optional float: [None] and zero are falsy. *)
Definition or_float (a : option float) (b : float) : float :=
  match a with
  | Some x => if PrimFloat.eqb x 0%float then b else x
  | None => b
  end.

(** [a or b] where [b] may itself be absent: the value of [d.get(k1) or
    d.get(k2)], which is the first truthy operand, else the second. *)
Definition or_opt_float (a b : option float) : option float :=
  match a with
  | Some x => if PrimFloat.eqb x 0%float then b else Some x
  | None => b
  end.

(** Logic parameters. *)
Definition XSEC : Z := 5.
Definition ZSEC : Z := 10.
Definition YSEC : Z := 300.
Definition HPWORK : float := 300%float.
Definition HPWORKMIN : float := 90%float.
Definition HPFLOW : float := 0.2%float.
Definition HPDT : float := 0.02%float.
Definition HPAMB : float := 20%float.

(** Python's [x > y] on floats. *)
Definition gtb (x y : float) : bool := PrimFloat.ltb y x.
(** Python's [x >= y] on floats. *)
Definition geb (x y : float) : bool := PrimFloat.leb y x.

(* ================================================================== *)
(** * The live snapshot

    [STORE.snapshot()] is a dict; its keys and the type of each value are
    fixed by the two pollers and by [insert_sample], so the dict is a
    record of optional fields (an absent key is [None]). *)

Record Snapshot : Type := mkSnapshot {
  em_activepower      : option float;
  em_total_fwd        : option float;
  hm_activepower      : option float;
  hm_positive_kwh     : option float;
  hm_negative_kwh     : option float;
  hm_temp_IN          : option float;
  hm_temp_OUT         : option float;
  hm_temp_diff        : option float;
  hm_activeflow_m3h   : option float;
  hm_flow_m3h         : option float;
  hm_totalflow        : option float;
  hm_fault_code       : option Z;
  hm_work_h           : option Z;
  ts_ambient_temp     : option float;
  ts_ambient_humidity : option float;
  last_ts_utc_s       : option Z;
  status              : option Status
}.

Definition is_none {A} (o : option A) : bool :=
  match o with None => true | Some _ => false end.

(** [not data_now]: the dict has no key at all. *)
Definition snapshot_empty (d : Snapshot) : bool :=
  is_none (em_activepower d) && is_none (em_total_fwd d)
  && is_none (hm_activepower d) && is_none (hm_positive_kwh d)
  && is_none (hm_negative_kwh d) && is_none (hm_temp_IN d)
  && is_none (hm_temp_OUT d) && is_none (hm_temp_diff d)
  && is_none (hm_activeflow_m3h d) && is_none (hm_flow_m3h d)
  && is_none (hm_totalflow d) && is_none (hm_fault_code d)
  && is_none (hm_work_h d) && is_none (ts_ambient_temp d)
  && is_none (ts_ambient_humidity d) && is_none (last_ts_utc_s d)
  && is_none (status d).

(* ================================================================== *)
(** * Mode classifier: [compute_logical_status] *)

(** [self.last_logical_status or "S"] *)
Definition last_or_S (last : option Status) : Status :=
  match last with Some s => s | None => Standby end.

(** The operands as the function reads them from the dict. *)
Definition em_p (d : Snapshot) : float := or_float (em_activepower d) 0%float.
Definition flow (d : Snapshot) : float :=
  or_float (or_opt_float (hm_activeflow_m3h d) (hm_flow_m3h d)) 0%float.

Definition compute_logical_status
    (last_logical_status : option Status) (d : Snapshot) : Status :=
  let t_in  := hm_temp_IN d in
  let t_out := hm_temp_OUT d in
  let amb   := ts_ambient_temp d in
  if gtb (em_p d) HPWORK && gtb (flow d) 0%float then
    match t_in, t_out with
    | Some t_in, Some t_out =>
        if gtb t_in (PrimFloat.add t_out HPDT) then Heating
        else if PrimFloat.ltb (PrimFloat.add t_in HPDT) t_out then
          match amb with
          | Some amb => if PrimFloat.ltb amb HPAMB then Defrost else Cooling
          | None => Cooling
          end
        else last_or_S last_logical_status
    | _, _ => last_or_S last_logical_status
    end
  else if gtb (em_p d) HPWORKMIN && gtb (flow d) HPFLOW then
    last_or_S last_logical_status
  else Standby.

(* ================================================================== *)
(** * The decision order of the classifier, as a rule list *)

(** The value of the first rule whose guard holds. *)
Fixpoint first_match {A} (rules : list (bool * A)) (default : A) : A :=
  match rules with
  | [] => default
  | (guard, a) :: rules' => if guard then a else first_match rules' default
  end.

Definition both_known (a b : option float) (p : float -> float -> bool)
  : bool :=
  match a, b with
  | Some x, Some y => p x y
  | _, _ => false
  end.

Definition known_and (a : option float) (p : float -> bool) : bool :=
  match a with Some x => p x | None => false end.

(** The rules in the order of the docstring of [compute_logical_status]:
    heating, then defrost, then cooling, then the two hold-over rules;
    standby is the default. *)
Definition classifier_rules (prev : option Status) (d : Snapshot)
  : list (bool * Status) :=
  let high := gtb (em_p d) HPWORK && gtb (flow d) 0%float in
  let warm_in :=
    both_known (hm_temp_IN d) (hm_temp_OUT d)
               (fun t_in t_out => gtb t_in (PrimFloat.add t_out HPDT)) in
  let warm_out :=
    both_known (hm_temp_IN d) (hm_temp_OUT d)
               (fun t_in t_out => PrimFloat.ltb (PrimFloat.add t_in HPDT) t_out) in
  let cold_outside :=
    known_and (ts_ambient_temp d) (fun amb => PrimFloat.ltb amb HPAMB) in
  [ (high && warm_in, Heating);
    (high && warm_out && cold_outside, Defrost);
    (high && warm_out, Cooling);
    (high, last_or_S prev);
    (gtb (em_p d) HPWORKMIN && gtb (flow d) HPFLOW, last_or_S prev) ].

(** A snapshot whose classifier inputs are the given readings; the other
    keys are those of [base]. The heat-meter poller writes the live flow
    under both of its keys. *)
Definition with_readings (base : Snapshot)
    (power flow_m3h t_in t_out amb : option float) : Snapshot :=
  mkSnapshot power (em_total_fwd base) (hm_activepower base)
    (hm_positive_kwh base) (hm_negative_kwh base)
    t_in t_out (hm_temp_diff base)
    flow_m3h flow_m3h (hm_totalflow base)
    (hm_fault_code base) (hm_work_h base)
    amb (ts_ambient_humidity base)
    (last_ts_utc_s base) (status base).

(* ================================================================== *)
(** * Tables *)

(** A row of [hp_samples] (primary key [ts_utc_s]). *)
Record SampleRow : Type := mkSample {
  s_ts_utc_s            : Z;
  s_status              : Status;
  s_em_activepower      : option float;
  s_em_total_fwd        : option float;
  s_hm_activepower      : option float;
  s_hm_positive_kwh     : option float;
  s_hm_negative_kwh     : option float;
  s_hm_temp_IN          : option float;
  s_hm_temp_OUT         : option float;
  s_hm_temp_diff        : option float;
  s_hm_activeflow_m3h   : option float;
  s_hm_totalflow        : option float;
  s_hm_fault_code       : option Z;
  s_hm_work_h           : option Z;
  s_ts_ambient_temp     : option float;
  s_ts_ambient_humidity : option float
}.

(** The measure columns shared by the four summary tables. *)
Record Measures : Type := mkMeasures {
  total_time_s          : Z;
  consumption_kw        : option float;
  positive_kw           : option float;
  negative_kw           : option float;
  hp_temp_in            : option float;
  hp_temp_out           : option float;
  hp_temp_diff          : option float;
  hp_activeflow_m3h     : option float;
  hp_totalflow          : option float;
  m_ts_ambient_temp     : option float;
  m_ts_ambient_humidity : option float
}.

(** A local calendar date is kept as its ordinal (day number); the text
    column [day_date] holds the ISO string of that date, which determines
    the date and is determined by it. *)
Definition date := Z.

(** [day_summary], primary key [(day_date, status, start_ts_utc_s)]. *)
Record DayRow : Type := mkDayRow {
  day_date        : date;
  day_start_utc_s : Z;
  d_status        : Status;
  start_ts_utc_s  : Z;
  end_ts_utc_s    : Z;
  d_measures      : Measures
}.

(** [month_summary], primary key [(year, month, day, status)]. *)
Record MonthRow : Type := mkMonthRow {
  mo_year : Z; mo_month : Z; mo_day : Z;
  mo_status   : Status;
  mo_measures : Measures;
  times_a_day : Z
}.

(** [year_summary], primary key [(year, month, status)]. *)
Record YearRow : Type := mkYearRow {
  y_year : Z; y_month : Z;
  y_status      : Status;
  y_measures    : Measures;
  times_a_month : Z
}.

(** [total_summary], primary key [(year, status)]. *)
Record TotalRow : Type := mkTotalRow {
  t_year : Z;
  t_status     : Status;
  t_measures   : Measures;
  times_a_year : Z
}.

(** The database behind [self.conn]. [hp_samples] is kept in ascending
    order of its key, so that [ORDER BY ts_utc_s ASC] is the list order. *)
Record DB : Type := mkDB {
  hp_samples    : list SampleRow;
  day_summary   : list DayRow;
  month_summary : list MonthRow;
  year_summary  : list YearRow;
  total_summary : list TotalRow
}.

Definition empty_db : DB := mkDB [] [] [] [] [].

(** [INSERT OR REPLACE INTO hp_samples] *)
Fixpoint samples_insert_or_replace (r : SampleRow) (t : list SampleRow)
  : list SampleRow :=
  match t with
  | [] => [r]
  | x :: t' =>
      if s_ts_utc_s r <? s_ts_utc_s x then r :: t
      else if s_ts_utc_s r =? s_ts_utc_s x then r :: t'
      else x :: samples_insert_or_replace r t'
  end.

Definition day_key_eqb (a b : DayRow) : bool :=
  (day_date a =? day_date b) && status_eqb (d_status a) (d_status b)
  && (start_ts_utc_s a =? start_ts_utc_s b).

(** [INSERT OR REPLACE INTO day_summary] *)
Definition day_insert_or_replace (r : DayRow) (t : list DayRow) : list DayRow :=
  filter (fun x => negb (day_key_eqb x r)) t ++ [r].

Definition month_key_eqb (a b : MonthRow) : bool :=
  (mo_year a =? mo_year b) && (mo_month a =? mo_month b)
  && (mo_day a =? mo_day b) && status_eqb (mo_status a) (mo_status b).

Definition month_insert_or_replace (r : MonthRow) (t : list MonthRow) :=
  filter (fun x => negb (month_key_eqb x r)) t ++ [r].

Definition year_key_eqb (a b : YearRow) : bool :=
  (y_year a =? y_year b) && (y_month a =? y_month b)
  && status_eqb (y_status a) (y_status b).

Definition year_insert_or_replace (r : YearRow) (t : list YearRow) :=
  filter (fun x => negb (year_key_eqb x r)) t ++ [r].

Definition total_key_eqb (a b : TotalRow) : bool :=
  (t_year a =? t_year b) && status_eqb (t_status a) (t_status b).

Definition total_insert_or_replace (r : TotalRow) (t : list TotalRow) :=
  filter (fun x => negb (total_key_eqb x r)) t ++ [r].

(** [SELECT ts_utc_s ... WHERE p ORDER BY ts_utc_s DESC LIMIT 1]: the
    greatest key among the rows that satisfy [p]. *)
Definition last_ts_where (p : SampleRow -> bool) (t : list SampleRow)
  : option Z :=
  fold_left (fun acc r =>
               if p r then
                 match acc with
                 | Some a => Some (Z.max a (s_ts_utc_s r))
                 | None => Some (s_ts_utc_s r)
                 end
               else acc) t None.

(** SQL [SUM] over an integer column without NULLs. *)
Definition sum_Z (l : list Z) : Z := fold_right Z.add 0 l.

(** The non-NULL values of a column. *)
Fixpoint non_null {A} (l : list (option A)) : list A :=
  match l with
  | [] => []
  | Some x :: l' => x :: non_null l'
  | None :: l' => non_null l'
  end.

(** The statuses in the order of their codes, as [GROUP BY status]
    returns its groups. *)
Definition all_statuses : list Status :=
  [Cooling; Defrost; Heating; Off; On; Standby].

Definition is_nil {A} (l : list A) : bool :=
  match l with [] => true | _ => false end.

(** [GROUP BY status]: one group per status that occurs. *)
Definition group_by_status {A} (st_of : A -> Status) (rows : list A)
  : list (Status * list A) :=
  filter (fun g => negb (is_nil (snd g)))
         (map (fun s => (s, filter (fun r => status_eqb (st_of r) s) rows))
              all_statuses).

(** [dict.setdefault(k, []).append(v)] on an insertion-ordered dict. *)
Fixpoint setdefault_append {V} (k : date) (v : V) (m : list (date * list V))
  : list (date * list V) :=
  match m with
  | [] => [(k, [v])]
  | (k', vs) :: m' =>
      if k =? k' then (k', vs ++ [v]) :: m'
      else (k', vs) :: setdefault_append k v m'
  end.

(** [dict.get(k, [])] *)
Fixpoint dict_get {V} (k : date) (m : list (date * list V)) : list V :=
  match m with
  | [] => []
  | (k', vs) :: m' => if k =? k' then vs else dict_get k m'
  end.

(** [sorted(keys)] *)
Fixpoint insert_sorted (k : Z) (l : list Z) : list Z :=
  match l with
  | [] => [k]
  | x :: l' => if k <=? x then k :: l else x :: insert_sorted k l'
  end.

Definition sorted (l : list Z) : list Z := fold_right insert_sorted [] l.

(* ================================================================== *)
(** * Register helpers and the shared store *)

(** [u32(hi, lo)]: two 16-bit words, high word first. *)
Definition u32 (hi lo : Z) : Z :=
  Z.lor (Z.shiftl (Z.land hi 0xFFFF) 16) (Z.land lo 0xFFFF).

(** [i16(v)]: the signed reading of a 16-bit word. *)
Definition i16 (v : Z) : Z :=
  if Z.land v 0x8000 =? 0 then v else v - 0x10000.

(** The dict without keys. *)
Definition no_keys : Snapshot :=
  mkSnapshot None None None None None None None None None None None None None
             None None None None.

(** The value of a key after [dict.update]: the new one where the update
    has the key, the old one otherwise. *)
Definition updated {A} (new old : option A) : option A :=
  match new with Some v => Some v | None => old end.

(** [DataStore.update(partial)]: [self._d.update(partial)], key by key;
    the copy it returns and [DataStore.snapshot()] are the dict itself. *)
Definition DataStore_update (store partial : Snapshot) : Snapshot :=
  mkSnapshot
    (updated (em_activepower partial) (em_activepower store))
    (updated (em_total_fwd partial) (em_total_fwd store))
    (updated (hm_activepower partial) (hm_activepower store))
    (updated (hm_positive_kwh partial) (hm_positive_kwh store))
    (updated (hm_negative_kwh partial) (hm_negative_kwh store))
    (updated (hm_temp_IN partial) (hm_temp_IN store))
    (updated (hm_temp_OUT partial) (hm_temp_OUT store))
    (updated (hm_temp_diff partial) (hm_temp_diff store))
    (updated (hm_activeflow_m3h partial) (hm_activeflow_m3h store))
    (updated (hm_flow_m3h partial) (hm_flow_m3h store))
    (updated (hm_totalflow partial) (hm_totalflow store))
    (updated (hm_fault_code partial) (hm_fault_code store))
    (updated (hm_work_h partial) (hm_work_h store))
    (updated (ts_ambient_temp partial) (ts_ambient_temp store))
    (updated (ts_ambient_humidity partial) (ts_ambient_humidity store))
    (updated (last_ts_utc_s partial) (last_ts_utc_s store))
    (updated (status partial) (status store)).

(** The name of a key, if the key is present. *)
Definition present {A} (name : string) (v : option A) : list string :=
  match v with Some _ => [name] | None => [] end.

(** The keys of a dict: the names that are present. *)
Definition keys (d : Snapshot) : list string :=
  List.concat
    [ present "em_activepower" (em_activepower d);
      present "em_total_fwd" (em_total_fwd d);
      present "hm_activepower" (hm_activepower d);
      present "hm_positive_kwh" (hm_positive_kwh d);
      present "hm_negative_kwh" (hm_negative_kwh d);
      present "hm_temp_IN" (hm_temp_IN d);
      present "hm_temp_OUT" (hm_temp_OUT d);
      present "hm_temp_diff" (hm_temp_diff d);
      present "hm_activeflow_m3h" (hm_activeflow_m3h d);
      present "hm_flow_m3h" (hm_flow_m3h d);
      present "hm_totalflow" (hm_totalflow d);
      present "hm_fault_code" (hm_fault_code d);
      present "hm_work_h" (hm_work_h d);
      present "ts_ambient_temp" (ts_ambient_temp d);
      present "ts_ambient_humidity" (ts_ambient_humidity d);
      present "last_ts_utc_s" (last_ts_utc_s d);
      present "status" (status d) ]%string.

(* ================================================================== *)
(** * The state of [DBWriterSQLite] *)

Record Engine : Type := mkEngine {
  first_saved         : bool;
  last_logical_status : option Status;
  last_status_stored  : option Status;
  last_save_time      : float;
  current_day_local   : date;
  last_read_data      : option Snapshot;
  last_read_ts_utc_s  : option Z;
  offline_segments    : list (date * list (Z * Z));
  conn                : DB
}.

(** The state set up by [__init__] on a database [db], started on local
    day [today]. *)
Definition init_engine (today : date) (db : DB) : Engine :=
  mkEngine false None None 0%float today None None [] db.

(** The days visited by [while day <= day_end: ...; day += 1 day]: [n]
    days from [a] on, and all of [a .. b]. *)
Fixpoint days_from (a : date) (n : nat) : list date :=
  match n with
  | O => []
  | S n' => a :: days_from (a + 1) n'
  end.

Definition days_from_to (a b : date) : list date :=
  days_from a (Z.to_nat (b - a + 1)).

(** The measure columns of an "ON" row of the roll-up tables. *)
Definition blank_measures : Measures :=
  mkMeasures 0 None None None None None None None None None None.

(** One level of the roll-up seen in general: the rows in the scope of the
    day are deleted, then one row per status group of the level below is
    inserted under its key. *)
Definition level_update {Row Src : Type} (in_scope : Row -> bool)
    (key_eqb : Row -> Row -> bool) (mk : Status -> list Src -> Row)
    (src_status : Src -> Status) (src : list Src) (old : list Row)
  : list Row :=
  fold_left
    (fun cur g => filter (fun x => negb (key_eqb x (mk (fst g) (snd g)))) cur
                  ++ [mk (fst g) (snd g)])
    (group_by_status src_status src)
    (filter (fun r => negb (in_scope r)) old).

(** The rows that each level deletes for a day [(y, m, d)]. *)
Definition month_scope (y m d : Z) (r : MonthRow) : bool :=
  (mo_year r =? y) && (mo_month r =? m) && (mo_day r =? d).

Definition year_scope (y m : Z) (r : YearRow) : bool :=
  (y_year r =? y) && (y_month r =? m).

Definition total_scope (y : Z) (r : TotalRow) : bool := t_year r =? y.

(* ================================================================== *)
(** * An environment to run the definitions in

    The program takes its rounding, its sums, its time zone and its
    calendar from Python and SQLite. The definitions below give one
    environment in which the embedding computes: no rounding, sums from
    left to right, a zone at a fixed offset of two hours east of UTC
    (Bucharest in winter), and the Gregorian calendar on day numbers
    counted from 1970-01-01. *)

Definition no_rounding (x : float) : float := x.

Definition sum_left_to_right (l : list float) : float :=
  fold_left PrimFloat.add l 0%float.

Definition eet_date (ts : Z) : date := (ts + 7200) / 86400.

Definition eet_midnight (d : date) : Z := d * 86400 - 7200.

(** Year, month and day of a day number. *)
Definition civil_from_days (z : date) : Z * Z * Z :=
  let z := z + 719468 in
  let era := z / 146097 in
  let doe := z - era * 146097 in
  let yoe := (doe - doe / 1460 + doe / 36524 - doe / 146096) / 365 in
  let y := yoe + era * 400 in
  let doy := doe - (365 * yoe + yoe / 4 - yoe / 100) in
  let mp := (5 * doy + 2) / 153 in
  let d := doy - (153 * mp + 2) / 5 + 1 in
  let m := if mp <? 10 then mp + 3 else mp - 9 in
  (if m <=? 2 then y + 1 else y, m, d).

(** A sample row that carries a timestamp and a status only. *)
Definition bare_sample (ts : Z) (st : Status) : SampleRow :=
  mkSample ts st None None None None None None None None None None
           None None None None.

(** A snapshot with the given power and flow and nothing else. *)
Definition power_flow_snapshot (power flow_m3h : option float) : Snapshot :=
  mkSnapshot power None None None None None None None flow_m3h flow_m3h
             None None None None None None None.

(** The readings of the Heating reference input, with the given power. *)
Definition heating_readings (power : option float) : Snapshot :=
  with_readings (power_flow_snapshot None None)
                power (Some 0.5%float) (Some 45%float) (Some 35%float)
                (Some 15%float).

(** A sample row with a timestamp, a status and the electricity counter. *)
Definition energy_sample (ts : Z) (st : Status) (kwh : float) : SampleRow :=
  mkSample ts st None (Some kwh) None None None None None None None None
           None None None None.

(** 2024-01-01 and a second of that local day (11:06:40 local time). *)
Definition new_year_2024 : date := 19723.
Definition T0 : Z := 1704100000.

(** Two Heating rows, then two Defrost rows. *)
Definition heating_then_defrost : list SampleRow :=
  [ energy_sample T0 Heating 100;
    energy_sample (T0 + 10) Heating 100.02;
    energy_sample (T0 + 15) Defrost 100.03;
    energy_sample (T0 + 25) Defrost 100.05 ]%float.

(** Snapshots of an idle and of a heating installation. *)
Definition idle_snapshot : Snapshot := power_flow_snapshot (Some 50%float) (Some 0%float).
Definition heating_snapshot : Snapshot := heating_readings (Some 400%float).

(** The tick [k] of a process started at [T0]: one tick every 5 s. *)
Definition tick_at (k : Z) (d : Snapshot) : Snapshot * Z * float :=
  (d, T0 + 5 * k, float_of_Z (T0 + 5 * k)).

(** A morning with one heating phase: idle for four ticks, heating for
    five, idle again for three. *)
Definition one_heating_phase : list (Snapshot * Z * float) :=
  [ tick_at 0 idle_snapshot; tick_at 1 idle_snapshot;
    tick_at 2 idle_snapshot; tick_at 3 idle_snapshot;
    tick_at 4 heating_snapshot; tick_at 5 heating_snapshot;
    tick_at 6 heating_snapshot; tick_at 7 heating_snapshot;
    tick_at 8 heating_snapshot;
    tick_at 9 idle_snapshot; tick_at 10 idle_snapshot;
    tick_at 11 idle_snapshot ].

(** The columns of a day row that the examples look at. *)
Definition day_row_summary (x : DayRow) : Status * Z * Z * Z :=
  (d_status x, start_ts_utc_s x, end_ts_utc_s x, total_time_s (d_measures x)).


(** A sample table whose last entry is a Standby row one day before [T0]. *)
Definition yesterday_db : DB :=
  mkDB [bare_sample (T0 - 86400) Standby] [] [] [] [].

(** A Defrost row on its own between a Heating and a Standby run. *)
Definition lone_defrost : list SampleRow :=
  [ bare_sample T0 Heating; bare_sample (T0 + 10) Heating;
    bare_sample (T0 + 15) Defrost;
    bare_sample (T0 + 20) Standby; bare_sample (T0 + 30) Standby ].

(** The durations of the rows of a day table other than the "ON"
    markers. *)
Definition segment_durations (t : list DayRow) : list Z :=
  map (fun x => total_time_s (d_measures x))
      (filter (fun x => negb (status_eqb (d_status x) On)) t).


(** The snapshot while only the energy meter has answered, and the one of
    an idle installation once the heat meter has answered. *)
Definition heat_meter_silent : Snapshot :=
  power_flow_snapshot (Some 50%float) None.
Definition standby_with_temperatures : Snapshot :=
  heating_readings (Some 50%float).

(** A morning on which the heat meter answers late: idle without heat
    meter readings for four ticks, heating for five, idle for three, and
    heating again. *)
Definition late_heat_meter : list (Snapshot * Z * float) :=
  [ tick_at 0 heat_meter_silent; tick_at 1 heat_meter_silent;
    tick_at 2 heat_meter_silent; tick_at 3 heat_meter_silent;
    tick_at 4 heating_snapshot; tick_at 5 heating_snapshot;
    tick_at 6 heating_snapshot; tick_at 7 heating_snapshot;
    tick_at 8 heating_snapshot;
    tick_at 9 standby_with_temperatures;
    tick_at 10 standby_with_temperatures;
    tick_at 11 standby_with_temperatures;
    tick_at 12 heating_snapshot ].

(** The columns of a MONTH row that the examples look at. *)
Definition month_row_summary (r : MonthRow) : Status * Z * option float :=
  (mo_status r, total_time_s (mo_measures r), hp_temp_in (mo_measures r)).
Section Engine.

(** ** What the program takes from its environment *)

(** Python's [round(x, 2)] on a float. *)
Variable py_round2 : float -> float.
(** Python's builtin [sum] on a non-empty list of floats. *)
Variable py_sum : list float -> float.
(** SQLite's [SUM] on the non-NULL REAL values of a group. *)
Variable sql_sum : list float -> float.
(** The site time zone [ROMANIA_TZ]: the local date of a UTC second, and
    the UTC second of 00:00:00 local time on a date. *)
Variable local_date : Z -> date.
Variable local_midnight : date -> Z.
(** [(year, month, day)] of a date. *)
Variable civil : date -> Z * Z * Z.

(** [round2]: [None] stays [None]. *)
Definition round2 (v : option float) : option float :=
  option_map py_round2 v.

(** ** [insert_sample] *)

(** The row that [insert_sample] builds from the dict. *)
Definition sample_row (d : Snapshot) (status : Status) (ts_utc_s : Z)
  : SampleRow :=
  mkSample ts_utc_s status
    (round2 (em_activepower d)) (round2 (em_total_fwd d))
    (round2 (hm_activepower d)) (round2 (hm_positive_kwh d))
    (round2 (hm_negative_kwh d)) (round2 (hm_temp_IN d))
    (round2 (hm_temp_OUT d)) (round2 (hm_temp_diff d))
    (round2 (hm_activeflow_m3h d)) (round2 (hm_totalflow d))
    (hm_fault_code d) (hm_work_h d)
    (round2 (ts_ambient_temp d)) (round2 (ts_ambient_humidity d)).

(** [insert_sample] also writes [last_ts_utc_s] and [status] back into the
    live store; the loop receives the store as the snapshot of the next
    tick, so that write is part of the next [data_now]. *)
Definition insert_sample (cur : DB) (data : Snapshot) (status : Status)
    (ts_utc_s : Z) : DB :=
  mkDB (samples_insert_or_replace (sample_row data status ts_utc_s)
                                  (hp_samples cur))
       (day_summary cur) (month_summary cur) (year_summary cur)
       (total_summary cur).

(** ** [compute_offline_segments] *)

Definition compute_offline_segments (start_ts_utc_s end_ts_utc_s : option Z)
  : list (date * list (Z * Z)) :=
  match start_ts_utc_s, end_ts_utc_s with
  | Some start_ts, Some end_ts =>
      if end_ts <=? start_ts then []
      else
        let day_start := local_date start_ts in
        let day_end := local_date end_ts in
        fold_left
          (fun segs day =>
             let seg_start_utc :=
               if day =? day_start then start_ts else local_midnight day in
             let seg_end_utc :=
               if day =? day_end then end_ts else local_midnight (day + 1) in
             if seg_end_utc >? seg_start_utc
             then setdefault_append day (seg_start_utc, seg_end_utc) segs
             else segs)
          (days_from_to day_start day_end) []
  | _, _ => []
  end.

(** ** [_store_day_segment] *)

(** [avg(col_idx)] over the slice [seg]. *)
Definition avg (status : Status) (seg : list SampleRow)
    (col : SampleRow -> option float) : option float :=
  let vals := non_null (map col
                (filter (fun r => status_eqb (s_status r) status) seg)) in
  match vals with
  | [] => None
  | _ => round2 (Some (PrimFloat.div (py_sum vals)
                                      (float_of_Z (Z.of_nat (List.length vals)))))
  end.

(** [(e - s) if (e is not None and s is not None) else None] *)
Definition delta (e s : option float) : option float :=
  match e, s with
  | Some e, Some s => Some (PrimFloat.sub e s)
  | _, _ => None
  end.

(** The row written for [rows[i_start] .. rows[i_end]]. *)
Definition segment_row (day : date) (day_start_utc_s : Z)
    (rows : list SampleRow) (i_start i_end : nat)
    (first last : SampleRow) : DayRow :=
  let status := s_status first in
  let seg := firstn (i_end + 1 - i_start) (skipn i_start rows) in
  mkDayRow day day_start_utc_s status
    (s_ts_utc_s first) (s_ts_utc_s last)
    (mkMeasures
       (s_ts_utc_s last - s_ts_utc_s first)
       (round2 (delta (s_em_total_fwd last) (s_em_total_fwd first)))
       (round2 (delta (s_hm_positive_kwh last) (s_hm_positive_kwh first)))
       (round2 (delta (s_hm_negative_kwh last) (s_hm_negative_kwh first)))
       (avg status seg s_hm_temp_IN)
       (avg status seg s_hm_temp_OUT)
       (avg status seg s_hm_temp_diff)
       (avg status seg s_hm_activeflow_m3h)
       (round2 (delta (s_hm_totalflow last) (s_hm_totalflow first)))
       (avg status seg s_ts_ambient_temp)
       (avg status seg s_ts_ambient_humidity)).

(** Both indices are inside [rows] at every call of the program; outside
    (where Python would raise) the table is left as it is. *)
Definition _store_day_segment (cur : list DayRow) (day : date)
    (day_start_utc_s : Z) (rows : list SampleRow) (i_start i_end : nat)
  : list DayRow :=
  if (i_end <=? i_start)%nat then cur
  else
    match nth_error rows i_start, nth_error rows i_end with
    | Some first, Some last =>
        if negb (allowed_status (s_status first)) then cur
        else if s_ts_utc_s last <=? s_ts_utc_s first then cur
        else day_insert_or_replace
               (segment_row day day_start_utc_s rows i_start i_end first last)
               cur
    | _, _ => cur
    end.

(** ** [build_day_summary_for_date] *)

(** Step 1: one row per "ON" sample. *)
Definition on_row (samples : list SampleRow) (day : date) (start_utc_s : Z)
    (r : SampleRow) : DayRow :=
  let ts := s_ts_utc_s r in
  let start_ts :=
    match last_ts_where
            (fun x => (s_ts_utc_s x <? ts) && negb (is_boundary (s_status x)))
            samples with
    | Some prev => prev
    | None => ts
    end in
  mkDayRow day start_utc_s On start_ts ts
    (mkMeasures 0 None None None
       (round2 (s_hm_temp_IN r)) (round2 (s_hm_temp_OUT r))
       (round2 (s_hm_temp_diff r)) (round2 (s_hm_activeflow_m3h r))
       (round2 (s_hm_totalflow r))
       (round2 (s_ts_ambient_temp r)) (round2 (s_ts_ambient_humidity r))).

Definition insert_on_rows (samples : list SampleRow) (day : date)
    (start_utc_s : Z) (rows : list SampleRow) (cur : list DayRow)
  : list DayRow :=
  fold_left
    (fun cur r =>
       if status_eqb (s_status r) On
       then day_insert_or_replace (on_row samples day start_utc_s r) cur
       else cur)
    rows cur.

(** Step 2: the loop [for i, r in enumerate(rows)], from index [i] on the
    remaining rows [rest]; it returns the table and the final
    [segment_start_idx]. *)
Fixpoint scan_segments (day : date) (start_utc_s : Z) (rows : list SampleRow)
    (i : nat) (rest : list SampleRow)
    (segment_start_idx : option nat) (segment_status : option Status)
    (cur : list DayRow) : list DayRow * option nat :=
  match rest with
  | [] => (cur, segment_start_idx)
  | r :: rest' =>
      let st := s_status r in
      if negb (allowed_status st) then
        match segment_start_idx with
        | Some a =>
            scan_segments day start_utc_s rows (S i) rest' None None
              (_store_day_segment cur day start_utc_s rows a (i - 1))
        | None =>
            scan_segments day start_utc_s rows (S i) rest'
              segment_start_idx segment_status cur
        end
      else
        match segment_start_idx with
        | None =>
            scan_segments day start_utc_s rows (S i) rest'
              (Some i) (Some st) cur
        | Some a =>
            if match segment_status with
               | Some s => negb (status_eqb st s)
               | None => true
               end
            then
              scan_segments day start_utc_s rows (S i) rest'
                (Some i) (Some st)
                (_store_day_segment cur day start_utc_s rows a (i - 1))
            else
              scan_segments day start_utc_s rows (S i) rest'
                segment_start_idx segment_status cur
        end
  end.

Definition insert_segments (day : date) (start_utc_s : Z)
    (rows : list SampleRow) (cur : list DayRow) : list DayRow :=
  let '(cur, segment_start_idx) :=
    scan_segments day start_utc_s rows 0 rows None None cur in
  match segment_start_idx with
  | Some a => _store_day_segment cur day start_utc_s rows a (List.length rows - 1)
  | None => cur
  end.

(** Step 3: the pre-computed OFF intervals of the day. *)
Definition off_row (day : date) (start_utc_s s e : Z) : DayRow :=
  mkDayRow day start_utc_s Off s e
    (mkMeasures (e - s) None None None None None None None None None None).

Definition insert_off_rows (day : date) (start_utc_s end_utc_s : Z)
    (off_list : list (Z * Z)) (cur : list DayRow) : list DayRow :=
  fold_left
    (fun cur seg =>
       let '(seg_start, seg_end) := seg in
       if seg_end <=? seg_start then cur
       else
         let s := Z.max seg_start start_utc_s in
         let e := Z.min seg_end end_utc_s in
         if e <=? s then cur
         else day_insert_or_replace (off_row day start_utc_s s e) cur)
    off_list cur.

(** The rows of the day: [WHERE ts_utc_s >= ? AND ts_utc_s <= ?
    ORDER BY ts_utc_s ASC]. *)
Definition select_day_samples (samples : list SampleRow)
    (start_utc_s end_utc_s : Z) : list SampleRow :=
  filter (fun r => (start_utc_s <=? s_ts_utc_s r)
                   && (s_ts_utc_s r <=? end_utc_s)) samples.

Definition build_day_table (segs : list (date * list (Z * Z)))
    (samples : list SampleRow) (day_local : date) (table : list DayRow)
  : list DayRow :=
  let start_utc_s := local_midnight day_local in
  let end_utc_s := local_midnight (day_local + 1) in
  let rows := select_day_samples samples start_utc_s end_utc_s in
  let cur := filter (fun x => negb (day_date x =? day_local)) table in
  let cur := insert_on_rows samples day_local start_utc_s rows cur in
  let cur := insert_segments day_local start_utc_s rows cur in
  insert_off_rows day_local start_utc_s end_utc_s
                  (dict_get day_local segs) cur.

Definition build_day_summary_for_date (segs : list (date * list (Z * Z)))
    (db : DB) (day_local : date) : DB :=
  mkDB (hp_samples db)
       (build_day_table segs (hp_samples db) day_local (day_summary db))
       (month_summary db) (year_summary db) (total_summary db).

(** ** [update_month_year_total_for_day] *)

(** SQL [SUM] of a nullable REAL column: NULL when no value is non-NULL. *)
Definition SUM (col : list (option float)) : option float :=
  match non_null col with
  | [] => None
  | vs => Some (sql_sum vs)
  end.

(** SQL [col * total_time_s] *)
Definition times_duration (v : option float) (t : Z) : option float :=
  option_map (fun x => PrimFloat.mul x (float_of_Z t)) v.

(** [wavg(weighted, total_t)] *)
Definition wavg (weighted : option float) (total_t : Z) : option float :=
  match weighted with
  | Some w =>
      if negb (total_t =? 0) && (total_t >? 0)
      then round2 (Some (PrimFloat.div w (float_of_Z total_t)))
      else None
  | None => None
  end.

(** The measure columns written for one group of the level below; the
    same query and the same two branches serve the three levels. *)
Definition rollup_measures (status : Status) (grp : list Measures)
  : Measures :=
  if status_eqb status On then blank_measures
  else
    let t_sum := sum_Z (map total_time_s grp) in
    let t_weight := sum_Z (map total_time_s grp) in
    let weighted col :=
      SUM (map (fun m => times_duration (col m) (total_time_s m)) grp) in
    mkMeasures
      (if t_sum =? 0 then 0 else t_sum)
      (round2 (SUM (map consumption_kw grp)))
      (round2 (SUM (map positive_kw grp)))
      (round2 (SUM (map negative_kw grp)))
      (wavg (weighted hp_temp_in) t_weight)
      (wavg (weighted hp_temp_out) t_weight)
      (wavg (weighted hp_temp_diff) t_weight)
      (wavg (weighted hp_activeflow_m3h) t_weight)
      (round2 (SUM (map hp_totalflow grp)))
      (wavg (weighted m_ts_ambient_temp) t_weight)
      (wavg (weighted m_ts_ambient_humidity) t_weight).

(** [int(cnt) if cnt else 0] *)
Definition int_or_0 (cnt : Z) : Z := if cnt =? 0 then 0 else cnt.

(** The row written for one status group at each level. *)
Definition month_row_of (year month day : Z) (status : Status)
    (grp : list DayRow) : MonthRow :=
  let times_a_day := int_or_0 (Z.of_nat (List.length grp)) in
  mkMonthRow year month day status
    (rollup_measures status (map d_measures grp)) times_a_day.

Definition year_row_of (year month : Z) (status : Status)
    (grp : list MonthRow) : YearRow :=
  let times_a_month := int_or_0 (sum_Z (map times_a_day grp)) in
  mkYearRow year month status
    (rollup_measures status (map mo_measures grp)) times_a_month.

Definition total_row_of (year : Z) (status : Status) (grp : list YearRow)
  : TotalRow :=
  let times_a_year := int_or_0 (sum_Z (map times_a_month grp)) in
  mkTotalRow year status
    (rollup_measures status (map y_measures grp)) times_a_year.

(** MONTH table from the DAY table. *)
Definition update_month (day_local : date) (days : list DayRow)
    (months : list MonthRow) : list MonthRow :=
  let '(year, month, day) := civil day_local in
  let cur := filter (fun r => negb ((mo_year r =? year)
                                    && (mo_month r =? month)
                                    && (mo_day r =? day))) months in
  let rows := group_by_status d_status
                (filter (fun r => day_date r =? day_local) days) in
  fold_left
    (fun cur g =>
       let '(status, grp) := g in
       month_insert_or_replace (month_row_of year month day status grp) cur)
    rows cur.

(** YEAR table from the MONTH table. *)
Definition update_year (day_local : date) (months : list MonthRow)
    (years : list YearRow) : list YearRow :=
  let '(year, month, _) := civil day_local in
  let cur := filter (fun r => negb ((y_year r =? year)
                                    && (y_month r =? month))) years in
  let rows := group_by_status mo_status
                (filter (fun r => (mo_year r =? year)
                                  && (mo_month r =? month)) months) in
  fold_left
    (fun cur g =>
       let '(status, grp) := g in
       year_insert_or_replace (year_row_of year month status grp) cur)
    rows cur.

(** TOTAL table from the YEAR table. *)
Definition update_total (day_local : date) (years : list YearRow)
    (totals : list TotalRow) : list TotalRow :=
  let '(year, _, _) := civil day_local in
  let cur := filter (fun r => negb (t_year r =? year)) totals in
  let rows := group_by_status y_status
                (filter (fun r => y_year r =? year) years) in
  fold_left
    (fun cur g =>
       let '(status, grp) := g in
       total_insert_or_replace (total_row_of year status grp) cur)
    rows cur.

Definition update_month_year_total_for_day (db : DB) (day_local : date)
  : DB :=
  let months := update_month day_local (day_summary db) (month_summary db) in
  let years := update_year day_local months (year_summary db) in
  let totals := update_total day_local years (total_summary db) in
  mkDB (hp_samples db) (day_summary db) months years totals.

(** ** The body of the [run] loop *)

(** [build_day_summary_for_date] then [update_month_year_total_for_day]. *)
Definition rebuild_day (segs : list (date * list (Z * Z))) (db : DB)
    (day_local : date) : DB :=
  update_month_year_total_for_day
    (build_day_summary_for_date segs db day_local) day_local.

(** [pending_offline] on the first write. *)
Definition find_pending_offline (db : DB) (ts_now_utc_s : Z)
  : option (Z * Z) :=
  match last_ts_where (fun r => negb (is_boundary (s_status r)))
                      (hp_samples db) with
  | Some offline_start_ts =>
      if ts_now_utc_s >? offline_start_ts
      then Some (offline_start_ts, ts_now_utc_s)
      else None
  | None => None
  end.

(** [status_changed] *)
Definition status_changed_b (prev_status_stored : option Status)
    (status_to_store : Status) : bool :=
  match prev_status_stored with
  | Some p => negb (status_eqb status_to_store p)
  | None => false
  end.

(** [should_write] *)
Definition should_write (e : Engine) (status_to_store : Status)
    (now_t : float) : bool :=
  if negb (first_saved e) then true
  else if status_changed_b (last_status_stored e) status_to_store then true
  else
    let interval_needed :=
      if status_eqb status_to_store Standby then YSEC else ZSEC in
    geb (PrimFloat.sub now_t (last_save_time e)) (float_of_Z interval_needed).

(** The bridging sample, if the rule applies: the arguments of the extra
    [insert_sample] call. *)
Definition bridge_sample (e : Engine) (status_to_store : Status)
    (now_t : float) : option (Snapshot * Status * Z) :=
  if first_saved e
     && status_changed_b (last_status_stored e) status_to_store
     && match last_status_stored e with
        | Some p => status_eqb p Standby
        | None => false
        end
     && negb (status_eqb status_to_store Standby)
  then
    let dt_since_last_write := PrimFloat.sub now_t (last_save_time e) in
    if gtb dt_since_last_write (float_of_Z XSEC) then
      match last_read_data e, last_read_ts_utc_s e with
      | Some data, Some ts => Some (data, Standby, ts)
      | _, _ => None
      end
    else None
  else None.

(** One iteration of [while self.running] after the sleep, on the
    snapshot [data_now] read at UTC second [ts_now_utc_s] and wall time
    [now_t]. The second component lists, in order, the rows handed to
    [INSERT OR REPLACE INTO hp_samples] during the iteration. *)
Definition run_body (e : Engine) (data_now : Snapshot) (ts_now_utc_s : Z)
    (now_t : float) : Engine * list SampleRow :=
  if snapshot_empty data_now then (e, [])
  else
    let today := local_date ts_now_utc_s in
    (* Day change *)
    let '(db, current_day) :=
      if negb (today =? current_day_local e)
      then (rebuild_day (offline_segments e) (conn e) (current_day_local e),
            today)
      else (conn e, current_day_local e) in
    let logical_status :=
      compute_logical_status (last_logical_status e) data_now in
    let '(status_to_store, pending_offline) :=
      if negb (first_saved e)
      then (On, find_pending_offline db ts_now_utc_s)
      else (logical_status, None) in
    let status_changed :=
      status_changed_b (last_status_stored e) status_to_store in
    if negb (should_write e status_to_store now_t) then
      (mkEngine (first_saved e) (Some logical_status) (last_status_stored e)
                (last_save_time e) current_day
                (Some data_now) (Some ts_now_utc_s)
                (offline_segments e) db, [])
    else
      (* Bridge S -> other status with the previous read *)
      let '(db, written) :=
        match bridge_sample e status_to_store now_t with
        | Some (data, st, ts) =>
            (insert_sample db data st ts, [sample_row data st ts])
        | None => (db, [])
        end in
      let db := insert_sample db data_now status_to_store ts_now_utc_s in
      let written :=
        written ++ [sample_row data_now status_to_store ts_now_utc_s] in
      let '(segs, db) :=
        if negb (first_saved e) then
          match pending_offline with
          | Some (off_start, off_end) =>
              let segs :=
                compute_offline_segments (Some off_start) (Some off_end) in
              (segs, fold_left (rebuild_day segs) (sorted (map fst segs)) db)
          | None => (offline_segments e, db)
          end
        else (offline_segments e, db) in
      let db :=
        if status_changed then rebuild_day segs db today else db in
      (mkEngine true (Some logical_status) (Some status_to_store)
                now_t current_day
                (Some data_now) (Some ts_now_utc_s)
                segs db, written).

(** A run of the loop over a list of ticks [(data_now, ts_now_utc_s,
    now_t)]; the rows written are collected in order. *)
Fixpoint run (e : Engine) (ticks : list (Snapshot * Z * float))
  : Engine * list SampleRow :=
  match ticks with
  | [] => (e, [])
  | (data_now, ts_now_utc_s, now_t) :: ticks' =>
      let '(e1, w1) := run_body e data_now ts_now_utc_s now_t in
      let '(e2, w2) := run e1 ticks' in
      (e2, w1 ++ w2)
  end.



(** The status that an iteration would store: "ON" on the first write of
    the process run, the logical status afterwards. *)
Definition status_to_store (e : Engine) (data_now : Snapshot) : Status :=
  if negb (first_saved e) then On
  else compute_logical_status (last_logical_status e) data_now.

(** The dwell interval of a status. *)
Definition interval_needed (status : Status) : Z :=
  if status_eqb status Standby then YSEC else ZSEC.

(** The database that an iteration works on after its day-change step. *)
Definition after_day_change (e : Engine) (ts_now_utc_s : Z) : DB :=
  if negb (local_date ts_now_utc_s =? current_day_local e)
  then rebuild_day (offline_segments e) (conn e) (current_day_local e)
  else conn e.

(** ** Notions used to state the properties of the day table *)

(** The rows of the day table that belong to other days. *)
Definition other_days (day : date) (t : list DayRow) : list DayRow :=
  filter (fun x => negb (day_date x =? day)) t.

(** The rows [rows[a] .. rows[b]] all carry status [s]. *)
Definition same_status_span (rows : list SampleRow) (a b : nat) (s : Status)
  : Prop :=
  forall k, (a <= k <= b)%nat ->
            exists r, nth_error rows k = Some r /\ s_status r = s.

(** [x] is the row of a segment of [rows]: it runs from one row to a later
    row with a later timestamp, over rows of one accumulating status. *)
Definition is_segment_of (day : date) (day_start_utc_s : Z)
    (rows : list SampleRow) (x : DayRow) : Prop :=
  exists a b first last,
    (a < b)%nat
    /\ nth_error rows a = Some first
    /\ nth_error rows b = Some last
    /\ allowed_status (s_status first) = true
    /\ s_ts_utc_s first < s_ts_utc_s last
    /\ same_status_span rows a b (s_status first)
    /\ x = segment_row day day_start_utc_s rows a b first last.

(** Row [i] is a maximal run of its own: its neighbours, where there are
    any, carry another status. *)
Definition single_row_run (rows : list SampleRow) (i : nat) (r : SampleRow)
  : Prop :=
  nth_error rows i = Some r
  /\ allowed_status (s_status r) = true
  /\ (forall r', nth_error rows (S i) = Some r' -> s_status r' <> s_status r)
  /\ (forall j r', i = S j -> nth_error rows j = Some r' ->
                   s_status r' <> s_status r).

(** The rows of day [day_local] that the segmentation reads. *)
Definition day_rows (samples : list SampleRow) (day_local : date)
  : list SampleRow :=
  select_day_samples samples (local_midnight day_local)
                     (local_midnight (day_local + 1)).

(** The loop state: a segment that is open at index [i] began before [i]
    and every row since carries its status. *)
Definition scan_state_ok (rows : list SampleRow) (i : nat)
    (idx : option nat) (sst : option Status) : Prop :=
  match idx with
  | Some a => (a < i)%nat
              /\ exists s, sst = Some s /\ same_status_span rows a (i - 1) s
  | None => True
  end.

(** The interval that [compute_offline_segments] gives to day [day] of
    the gap from [start_ts] to [end_ts]. *)
Definition offline_interval (start_ts end_ts : Z) (day : date) : Z * Z :=
  (if day =? local_date start_ts then start_ts else local_midnight day,
   if day =? local_date end_ts then end_ts else local_midnight (day + 1)).

(** The entry of the dict for day [day], if the day has one. *)
Definition offline_entry (start_ts end_ts : Z) (day : date)
  : list (date * list (Z * Z)) :=
  let '(s, e) := offline_interval start_ts end_ts day in
  if e >? s then [(day, [(s, e)])] else [].

(** ** Notions used to state the properties of the roll-ups *)

Definition month_rows (months : list MonthRow) (y m : Z) (st : Status)
  : list MonthRow :=
  filter (fun r => (mo_year r =? y) && (mo_month r =? m)
                   && status_eqb (mo_status r) st) months.

Definition year_month_rows (years : list YearRow) (y m : Z) (st : Status)
  : list YearRow :=
  filter (fun r => (y_year r =? y) && (y_month r =? m)
                   && status_eqb (y_status r) st) years.

Definition year_rows (years : list YearRow) (y : Z) (st : Status)
  : list YearRow :=
  filter (fun r => (y_year r =? y) && status_eqb (y_status r) st) years.

Definition total_rows (totals : list TotalRow) (y : Z) (st : Status)
  : list TotalRow :=
  filter (fun r => (t_year r =? y) && status_eqb (t_status r) st) totals.

(** The sum of [total_time_s] over the days of month [(y, m)], and the
    same column in the tables above. *)
Definition month_duration (months : list MonthRow) (y m : Z) (st : Status)
  : Z :=
  sum_Z (map (fun r => total_time_s (mo_measures r)) (month_rows months y m st)).

Definition year_month_duration (years : list YearRow) (y m : Z) (st : Status)
  : Z :=
  sum_Z (map (fun r => total_time_s (y_measures r))
             (year_month_rows years y m st)).

Definition year_duration (years : list YearRow) (y : Z) (st : Status) : Z :=
  sum_Z (map (fun r => total_time_s (y_measures r)) (year_rows years y st)).

Definition total_duration (totals : list TotalRow) (y : Z) (st : Status) : Z :=
  sum_Z (map (fun r => total_time_s (t_measures r)) (total_rows totals y st)).

(** The "ON" rows of the roll-up tables carry no measure. *)
Definition on_rows_blank (db : DB) : Prop :=
  (forall r, In r (month_summary db) -> mo_status r = On ->
             mo_measures r = blank_measures)
  /\ (forall r, In r (year_summary db) -> y_status r = On ->
                y_measures r = blank_measures)
  /\ (forall r, In r (total_summary db) -> t_status r = On ->
                t_measures r = blank_measures).

(** Each level agrees with the level below, for every key. *)
Definition rollups_consistent (db : DB) : Prop :=
  (forall y m st, month_duration (month_summary db) y m st
                  = year_month_duration (year_summary db) y m st)
  /\ (forall y st, year_duration (year_summary db) y st
                   = total_duration (total_summary db) y st).

(** ** The pollers: [BusReader.run] and [HeatReader.run] *)

(** The keys that each poller writes, as a partial dict. *)
Definition bus_keys (power total_fwd amb_temp amb_humidity : option float)
  : Snapshot :=
  mkSnapshot power total_fwd None None None None None None None None None
             None None amb_temp amb_humidity None None.

Definition heat_keys
    (power positive negative t_in t_out t_diff activeflow flow_m3h totalflow
       : option float)
    (fault_code work_h : option Z) : Snapshot :=
  mkSnapshot None None power positive negative t_in t_out t_diff
             activeflow flow_m3h totalflow fault_code work_h
             None None None None.

(** One read of a cycle whose response is indexed at [0] and [1]. A read
    that failed ([None]) or came back empty is skipped ([if regs:]); a
    response with fewer words than are indexed raises [IndexError], which
    nothing in the loop catches: the cycle has no result. *)
Definition read_words2 (regs : option (list Z)) (store : Snapshot)
    (partial : Z -> Z -> Snapshot) : option Snapshot :=
  match regs with
  | None | Some [] => Some store
  | Some regs =>
      match nth_error regs 0, nth_error regs 1 with
      | Some r0, Some r1 => Some (DataStore_update store (partial r0 r1))
      | _, _ => None
      end
  end.

(** The same for a response indexed at [0] only. *)
Definition read_words1 (regs : option (list Z)) (store : Snapshot)
    (partial : Z -> Snapshot) : option Snapshot :=
  match regs with
  | None | Some [] => Some store
  | Some regs =>
      match nth_error regs 0 with
      | Some r0 => Some (DataStore_update store (partial r0))
      | None => None
      end
  end.

(** The next statement of a cycle, if the one before did not raise. *)
Definition and_then (s : option Snapshot) (k : Snapshot -> option Snapshot)
  : option Snapshot :=
  match s with Some s => k s | None => None end.

(** [round2(u32(r0, r1) / divisor)] *)
Definition scaled_u32 (divisor : float) (r0 r1 : Z) : option float :=
  round2 (Some (PrimFloat.div (float_of_Z (u32 r0 r1)) divisor)).

(** One cycle of [BusReader.run] on the responses of its three reads. *)
Definition BusReader_cycle (regs_p regs_e th : option (list Z))
    (store : Snapshot) : option Snapshot :=
  and_then
    (read_words2 regs_p store
       (fun r0 r1 =>
          bus_keys (round2 (Some (float_of_Z (u32 r0 r1)))) None None None))
    (fun store =>
  and_then
    (read_words2 regs_e store
       (fun r0 r1 => bus_keys None (scaled_u32 100 r0 r1) None None))
    (fun store =>
    read_words2 th store
       (fun r0 r1 =>
          let hum := round2 (Some (PrimFloat.div (float_of_Z r0) 10)) in
          let temp := round2 (Some (PrimFloat.div (float_of_Z (i16 r1)) 10)) in
          bus_keys None None temp hum))).

(** The responses of the ten reads of a heat-meter cycle, in order. *)
Record HeatReads : Type := mkHeatReads {
  rd_positive  : option (list Z);
  rd_negative  : option (list Z);
  rd_temp_in   : option (list Z);
  rd_temp_out  : option (list Z);
  rd_temp_diff : option (list Z);
  rd_totalflow : option (list Z);
  rd_flow      : option (list Z);
  rd_power     : option (list Z);
  rd_fault     : option (list Z);
  rd_work_h    : option (list Z)
}.

(** One cycle of [HeatReader.run]. *)
Definition HeatReader_cycle (rd : HeatReads) (store : Snapshot)
  : option Snapshot :=
  let hk := heat_keys in
  and_then (read_words2 (rd_positive rd) store (fun r0 r1 =>
    hk None (scaled_u32 100 r0 r1) None None None None None None None
       None None)) (fun store =>
  and_then (read_words2 (rd_negative rd) store (fun r0 r1 =>
    hk None None (scaled_u32 100 r0 r1) None None None None None None
       None None)) (fun store =>
  and_then (read_words2 (rd_temp_in rd) store (fun r0 r1 =>
    hk None None None (scaled_u32 100 r0 r1) None None None None None
       None None)) (fun store =>
  and_then (read_words2 (rd_temp_out rd) store (fun r0 r1 =>
    hk None None None None (scaled_u32 100 r0 r1) None None None None
       None None)) (fun store =>
  and_then (read_words2 (rd_temp_diff rd) store (fun r0 r1 =>
    hk None None None None None (scaled_u32 100 r0 r1) None None None
       None None)) (fun store =>
  and_then (read_words2 (rd_totalflow rd) store (fun r0 r1 =>
    hk None None None None None None None None (scaled_u32 100 r0 r1)
       None None)) (fun store =>
  and_then (read_words2 (rd_flow rd) store (fun r0 r1 =>
    let flow := scaled_u32 10000 r0 r1 in
    hk None None None None None None flow flow None None None)) (fun store =>
  and_then (read_words2 (rd_power rd) store (fun r0 r1 =>
    hk (scaled_u32 100 r0 r1) None None None None None None None None
       None None)) (fun store =>
  and_then (read_words1 (rd_fault rd) store (fun r0 =>
    hk None None None None None None None None None (Some r0) None))
    (fun store =>
  read_words1 (rd_work_h rd) store (fun r0 =>
    hk None None None None None None None None None None (Some r0))))))))))).

(** A response that does not raise when indexed up to [n] words: the read
    failed, came back empty, or has at least [n] words. *)
Definition response_ok (n : nat) (regs : option (list Z)) : bool :=
  match regs with
  | None | Some [] => true
  | Some regs => (n <=? List.length regs)%nat
  end.

Definition heat_reads_ok (rd : HeatReads) : bool :=
  response_ok 2 (rd_positive rd) && response_ok 2 (rd_negative rd)
  && response_ok 2 (rd_temp_in rd) && response_ok 2 (rd_temp_out rd)
  && response_ok 2 (rd_temp_diff rd) && response_ok 2 (rd_totalflow rd)
  && response_ok 2 (rd_flow rd) && response_ok 2 (rd_power rd)
  && response_ok 1 (rd_fault rd) && response_ok 1 (rd_work_h rd).

(** A partial dict without the two keys that [insert_sample] writes back. *)
Definition poller_update (partial : Snapshot) : Prop :=
  last_ts_utc_s partial = None /\ status partial = None.

(** The value decoded from a response of at least two words, or of at
    least one word; [None] if the read failed. *)
Definition words2 {A} (regs : option (list Z)) (g : Z -> Z -> option A)
  : option A :=
  match regs with
  | Some (r0 :: r1 :: _) => g r0 r1
  | _ => None
  end.

Definition words1 {A} (regs : option (list Z)) (g : Z -> option A)
  : option A :=
  match regs with
  | Some (r0 :: _) => g r0
  | _ => None
  end.

(** What a whole cycle writes: each key with the value decoded from its
    own read. *)
Definition bus_cycle_partial (regs_p regs_e th : option (list Z)) : Snapshot :=
  bus_keys
    (words2 regs_p (fun r0 r1 => round2 (Some (float_of_Z (u32 r0 r1)))))
    (words2 regs_e (scaled_u32 100))
    (words2 th (fun _ r1 =>
                  round2 (Some (PrimFloat.div (float_of_Z (i16 r1)) 10))))
    (words2 th (fun r0 _ => round2 (Some (PrimFloat.div (float_of_Z r0) 10)))).

Definition heat_cycle_partial (rd : HeatReads) : Snapshot :=
  heat_keys
    (words2 (rd_power rd) (scaled_u32 100))
    (words2 (rd_positive rd) (scaled_u32 100))
    (words2 (rd_negative rd) (scaled_u32 100))
    (words2 (rd_temp_in rd) (scaled_u32 100))
    (words2 (rd_temp_out rd) (scaled_u32 100))
    (words2 (rd_temp_diff rd) (scaled_u32 100))
    (words2 (rd_flow rd) (scaled_u32 10000))
    (words2 (rd_flow rd) (scaled_u32 10000))
    (words2 (rd_totalflow rd) (scaled_u32 100))
    (words1 (rd_fault rd) (fun r0 => Some r0))
    (words1 (rd_work_h rd) (fun r0 => Some r0)).

(** A cycle in which every read failed. *)
Definition no_heat_reads : HeatReads :=
  mkHeatReads None None None None None None None None None None.

(** ** The loop on the live store *)

(** The write-back of [insert_sample] for a row:
    [STORE.update({"last_ts_utc_s": ts_utc_s, "status": status})]. *)
Definition write_back (store : Snapshot) (r : SampleRow) : Snapshot :=
  DataStore_update store
    (mkSnapshot None None None None None None None None None None None None
                None None None (Some (s_ts_utc_s r)) (Some (s_status r))).

(** One iteration on the shared store: the updates that the pollers made
    since the last iteration are in the store when the snapshot is taken;
    the rows written are written back in order. *)
Definition live_tick (e : Engine) (store : Snapshot)
    (updates : list Snapshot) (ts_now_utc_s : Z) (now_t : float)
  : Engine * Snapshot * list SampleRow :=
  let store := fold_left DataStore_update updates store in
  let '(e', written) := run_body e store ts_now_utc_s now_t in
  (e', fold_left write_back written store, written).

Fixpoint run_live (e : Engine) (store : Snapshot)
    (ticks : list (list Snapshot * Z * float))
  : Engine * Snapshot * list SampleRow :=
  match ticks with
  | [] => (e, store, [])
  | (updates, ts_now_utc_s, now_t) :: ticks' =>
      let '(e1, store1, w1) := live_tick e store updates ts_now_utc_s now_t in
      let '(e2, store2, w2) := run_live e1 store1 ticks' in
      (e2, store2, w1 ++ w2)
  end.

(** The last row of a list of rows written. *)
Definition last_written (w : list SampleRow) : option SampleRow :=
  match rev w with r :: _ => Some r | [] => None end.

(** ** Notions used to state further properties *)

(** [SELECT * FROM hp_samples WHERE ts_utc_s = ts] *)
Definition sample_at (ts : Z) (t : list SampleRow) : option SampleRow :=
  find (fun r => s_ts_utc_s r =? ts) t.

(** The order of the sample table. *)
Definition samples_sorted (t : list SampleRow) : Prop :=
  StronglySorted (fun a b => s_ts_utc_s a < s_ts_utc_s b) t.

(** The primary key of a day row. *)
Definition day_key (x : DayRow) : Z * Status * Z :=
  (day_date x, d_status x, start_ts_utc_s x).

(** The total length of the intervals of the offline dict. *)
Definition offline_total (segs : list (date * list (Z * Z))) : Z :=
  sum_Z (map (fun se => snd se - fst se) (List.concat (map snd segs))).

(** The event counts of each level, for a key. *)
Definition month_events (months : list MonthRow) (y m : Z) (st : Status) : Z :=
  sum_Z (map times_a_day (month_rows months y m st)).

Definition year_month_events (years : list YearRow) (y m : Z) (st : Status)
  : Z :=
  sum_Z (map times_a_month (year_month_rows years y m st)).

Definition year_events (years : list YearRow) (y : Z) (st : Status) : Z :=
  sum_Z (map times_a_month (year_rows years y st)).

Definition total_events (totals : list TotalRow) (y : Z) (st : Status) : Z :=
  sum_Z (map times_a_year (total_rows totals y st)).

(** The rows of the day table for a day and a status, and the MONTH rows
    of a day and a status. *)
Definition day_status_rows (days : list DayRow) (day : date) (st : Status)
  : list DayRow :=
  filter (fun x => (day_date x =? day) && status_eqb (d_status x) st) days.

Definition month_day_rows (months : list MonthRow) (y m d : Z) (st : Status)
  : list MonthRow :=
  filter (fun r => month_scope y m d r && status_eqb (mo_status r) st) months.

(** A previous mode that the classifier can hold over: none yet, or one of
    the four operating modes. *)
Definition mode_or_none (prev : option Status) : Prop :=
  match prev with Some s => allowed_status s = true | None => True end.

(** The primary keys of the roll-up tables. *)
Definition month_key (r : MonthRow) : Z * Z * Z * Status :=
  (mo_year r, mo_month r, mo_day r, mo_status r).

Definition year_key (r : YearRow) : Z * Z * Status :=
  (y_year r, y_month r, y_status r).

Definition total_key (r : TotalRow) : Z * Status := (t_year r, t_status r).

(** No two rows of a summary table share a primary key. *)
Definition summary_keys_unique (db : DB) : Prop :=
  NoDup (map day_key (day_summary db))
  /\ NoDup (map month_key (month_summary db))
  /\ NoDup (map year_key (year_summary db))
  /\ NoDup (map total_key (total_summary db)).

(** The accumulating rows of [cur] do not overlap, and all of them end
    before the rows of [rows] from index [k] on. *)
Definition ordered_before (rows : list SampleRow) (k : nat)
    (cur : list DayRow) : Prop :=
  (forall x, In x cur -> allowed_status (d_status x) = true ->
             forall j r, (k <= j)%nat -> nth_error rows j = Some r ->
                         end_ts_utc_s x < s_ts_utc_s r)
  /\ (forall x y, In x cur -> In y cur ->
                  allowed_status (d_status x) = true ->
                  allowed_status (d_status y) = true ->
                  x = y
                  \/ end_ts_utc_s x < start_ts_utc_s y
                  \/ end_ts_utc_s y < start_ts_utc_s x).



(* ================================================================== *)
(** * Properties *)

(** ** Statuses *)

Lemma status_eqb_spec a b : reflect (a = b) (status_eqb a b).
Proof. destruct a, b; constructor; congruence. Qed.

Lemma status_eqb_refl a : status_eqb a a = true.
Proof. now destruct a. Qed.

Lemma status_eqb_eq a b : status_eqb a b = true <-> a = b.
Proof. destruct (status_eqb_spec a b); split; congruence. Qed.

Lemma status_eqb_neq a b : status_eqb a b = false <-> a <> b.
Proof. destruct (status_eqb_spec a b); split; congruence. Qed.

Lemma status_eqb_sym a b : status_eqb a b = status_eqb b a.
Proof. now destruct a, b. Qed.

Lemma status_code_inj a b : status_code a = status_code b -> a = b.
Proof. destruct a, b; simpl; congruence. Qed.

(** ** The mode classifier *)

Lemma classifier_first_match prev d :
  compute_logical_status prev d
  = first_match (classifier_rules prev d) Standby.
Proof.
  unfold compute_logical_status, classifier_rules.
  destruct (gtb (em_p d) HPWORK && gtb (flow d) 0) eqn:Hhigh; simpl.
  - destruct (hm_temp_IN d) as [t_in|], (hm_temp_OUT d) as [t_out|]; simpl;
      try reflexivity.
    destruct (gtb t_in (t_out + HPDT)); [reflexivity|].
    destruct (PrimFloat.ltb (t_in + HPDT) t_out); simpl; [|reflexivity].
    destruct (ts_ambient_temp d) as [amb|]; simpl; [|reflexivity].
    now destruct (PrimFloat.ltb amb HPAMB).
  - reflexivity.
Qed.

(** C3. The classifier is a function of the snapshot and the previous
    mode alone, it takes the first rule that matches in the order heating,
    defrost, cooling, hold-over, hold-over, standby, and on the reference
    inputs it answers Heating (400 W, 0.5 m3/h, 45 / 35 degrees, ambient
    15), Defrost (400, 0.5, 35 / 45, ambient 5), Cooling (the same with
    ambient 25) and Standby (50 W, no flow), whatever the previous mode
    and the other keys of the snapshot are. *)
Theorem classifier_reference_inputs :
  (forall prev d,
     compute_logical_status prev d
     = first_match (classifier_rules prev d) Standby)
  /\ (forall base prev,
        compute_logical_status prev
          (with_readings base (Some 400) (Some 0.5) (Some 45) (Some 35)
                         (Some 15))%float
        = Heating)
  /\ (forall base prev,
        compute_logical_status prev
          (with_readings base (Some 400) (Some 0.5) (Some 35) (Some 45)
                         (Some 5))%float
        = Defrost)
  /\ (forall base prev,
        compute_logical_status prev
          (with_readings base (Some 400) (Some 0.5) (Some 35) (Some 45)
                         (Some 25))%float
        = Cooling)
  /\ (forall base prev t_in t_out amb,
        compute_logical_status prev
          (with_readings base (Some 50) (Some 0) t_in t_out amb)%float
        = Standby).
Proof.
  split; [exact classifier_first_match|].
  repeat split; intros; reflexivity.
Qed.

(** ** Lists *)

Lemma In_firstn {A} (x : A) n l : In x (firstn n l) -> In x l.
Proof.
  intros H. rewrite <- (firstn_skipn n l). apply in_or_app. now left.
Qed.

Lemma In_skipn {A} (x : A) n l : In x (skipn n l) -> In x l.
Proof.
  intros H. rewrite <- (firstn_skipn n l). apply in_or_app. now right.
Qed.
(** ** Lookup in the sample table *)

Lemma sample_at_insert_same r t :
  sample_at (s_ts_utc_s r) (samples_insert_or_replace r t) = Some r.
Proof.
  unfold sample_at.
  induction t as [|x t IH]; simpl.
  - now rewrite Z.eqb_refl.
  - destruct (Z.ltb_spec (s_ts_utc_s r) (s_ts_utc_s x)) as [Hlt|Hge]; simpl.
    + now rewrite Z.eqb_refl.
    + destruct (Z.eqb_spec (s_ts_utc_s r) (s_ts_utc_s x)) as [Heq|Hne]; simpl.
      * now rewrite Z.eqb_refl.
      * replace (s_ts_utc_s x =? s_ts_utc_s r) with false
          by (symmetry; apply Z.eqb_neq; congruence).
        exact IH.
Qed.

Lemma sample_at_insert_other r t k :
  k <> s_ts_utc_s r ->
  sample_at k (samples_insert_or_replace r t) = sample_at k t.
Proof.
  intros Hk. unfold sample_at.
  assert (Hr : (s_ts_utc_s r =? k) = false)
    by (apply Z.eqb_neq; congruence).
  induction t as [|x t IH]; simpl.
  - now rewrite Hr.
  - destruct (s_ts_utc_s r <? s_ts_utc_s x); simpl.
    + now rewrite Hr.
    + destruct (Z.eqb_spec (s_ts_utc_s r) (s_ts_utc_s x)) as [Heq|Hne]; simpl.
      * rewrite Hr. now rewrite <- Heq, Hr.
      * now rewrite IH.
Qed.

Lemma samples_insert_twice r t :
  samples_insert_or_replace r (samples_insert_or_replace r t)
  = samples_insert_or_replace r t.
Proof.
  induction t as [|x t IH]; simpl.
  - now rewrite Z.ltb_irrefl, Z.eqb_refl.
  - destruct (Z.ltb_spec (s_ts_utc_s r) (s_ts_utc_s x)) as [Hlt|Hge]; simpl.
    + now rewrite Z.ltb_irrefl, Z.eqb_refl.
    + destruct (Z.eqb_spec (s_ts_utc_s r) (s_ts_utc_s x)) as [Heq|Hne]; simpl.
      * now rewrite Z.ltb_irrefl, Z.eqb_refl.
      * replace (s_ts_utc_s r <? s_ts_utc_s x) with false
          by (symmetry; apply Z.ltb_ge; lia).
        replace (s_ts_utc_s r =? s_ts_utc_s x) with false
          by (symmetry; apply Z.eqb_neq; congruence).
        now rewrite IH.
Qed.



(** ** The write decision *)



Lemma run_body_skip e d ts now_t :
  snapshot_empty d = false ->
  should_write e (status_to_store e d) now_t = false ->
  run_body e d ts now_t
  = (mkEngine (first_saved e)
              (Some (compute_logical_status (last_logical_status e) d))
              (last_status_stored e) (last_save_time e)
              (if negb (local_date ts =? current_day_local e)
               then local_date ts else current_day_local e)
              (Some d) (Some ts) (offline_segments e)
              (after_day_change e ts), []).
Proof.
  unfold run_body, status_to_store, after_day_change.
  intros -> Hw.
  destruct (negb (local_date ts =? current_day_local e));
    destruct (negb (first_saved e)); now rewrite Hw.
Qed.

Lemma run_body_written e d ts now_t :
  snapshot_empty d = false ->
  should_write e (status_to_store e d) now_t = true ->
  snd (run_body e d ts now_t)
  = match bridge_sample e (status_to_store e d) now_t with
    | Some (d0, s0, t0) =>
        [sample_row d0 s0 t0; sample_row d (status_to_store e d) ts]
    | None => [sample_row d (status_to_store e d) ts]
    end.
Proof.
  unfold run_body, status_to_store.
  intros -> Hw.
  destruct (negb (local_date ts =? current_day_local e));
    destruct (negb (first_saved e)); rewrite Hw; simpl;
    match goal with
    | |- context [bridge_sample ?a ?b ?c] =>
        destruct (bridge_sample a b c) as [[[d0 s0] t0]|]
    end; simpl;
    repeat match goal with
    | |- context [match ?x with Some _ => _ | None => _ end] => destruct x
    | |- context [let '(_, _) := ?x in _] => destruct x
    | |- context [if ?x then _ else _] => destruct x
    end; reflexivity.
Qed.










(** ** The bridging rule *)

Lemma bridge_sample_iff e st now_t d0 s0 t0 :
  bridge_sample e st now_t = Some (d0, s0, t0)
  <-> first_saved e = true
      /\ last_status_stored e = Some Standby
      /\ st <> Standby
      /\ gtb (PrimFloat.sub now_t (last_save_time e)) 5%float = true
      /\ last_read_data e = Some d0
      /\ last_read_ts_utc_s e = Some t0
      /\ s0 = Standby.
Proof.
  unfold bridge_sample, status_changed_b.
  change (float_of_Z XSEC) with 5%float.
  destruct (first_saved e); simpl.
  2: { split; [discriminate | intros (? & _); discriminate]. }
  destruct (last_status_stored e) as [p|]; simpl.
  2: { split; [discriminate | intros (_ & ? & _); discriminate]. }
  destruct (status_eqb_spec st p) as [->|Hne]; simpl.
  { split; [discriminate|].
    intros (_ & Hp & Hst & _). congruence. }
  destruct (status_eqb_spec p Standby) as [->|Hp]; simpl.
  2: { split; [discriminate | intros (_ & ? & _); congruence]. }
  destruct (status_eqb_spec st Standby) as [->|_]; [congruence|]; simpl.
  destruct (gtb (now_t - last_save_time e) 5).
  2: { split; [discriminate | intros (_ & _ & _ & ? & _); discriminate]. }
  destruct (last_read_data e) as [d|], (last_read_ts_utc_s e) as [t|];
    (split; [intros [= <- <- <-] || discriminate; auto 10
            | intros (_ & _ & _ & _ & Hd & Ht & Hs);
              try discriminate; congruence]).
Qed.


(** ** Absent values *)

Lemma avg_all_null status seg col :
  (forall r, In r seg -> s_status r = status -> col r = None) ->
  avg status seg col = None.
Proof.
  intros Hnull. unfold avg.
  assert (Hnn : non_null
                  (map col (filter (fun r => status_eqb (s_status r) status)
                                   seg)) = []).
  { induction seg as [|r seg IH]; simpl; [reflexivity|].
    destruct (status_eqb_spec (s_status r) status) as [Hs|Hs]; simpl.
    - rewrite (Hnull r (or_introl eq_refl) Hs).
      apply IH. intros r' Hin. apply Hnull. now right.
    - apply IH. intros r' Hin. apply Hnull. now right. }
  now rewrite Hnn.
Qed.

Lemma classifier_no_flow prev base power t_in t_out amb :
  compute_logical_status prev
    (with_readings base power None t_in t_out amb) = Standby.
Proof.
  unfold compute_logical_status, flow, with_readings; simpl.
  change (gtb 0 0) with false. change (gtb 0 HPFLOW) with false.
  now rewrite !andb_false_r.
Qed.

Lemma classifier_zero_flow prev base power t_in t_out amb :
  compute_logical_status prev
    (with_readings base power (Some 0%float) t_in t_out amb) = Standby.
Proof.
  unfold compute_logical_status, flow, with_readings; simpl.
  change (gtb 0 0) with false. change (gtb 0 HPFLOW) with false.
  now rewrite !andb_false_r.
Qed.

Lemma classifier_unknown_temperature prev d :
  hm_temp_IN d = None \/ hm_temp_OUT d = None ->
  compute_logical_status prev d = last_or_S prev
  \/ compute_logical_status prev d = Standby.
Proof.
  unfold compute_logical_status.
  intros [H|H]; rewrite H;
    destruct (gtb (em_p d) HPWORK && gtb (flow d) 0);
    destruct (gtb (em_p d) HPWORKMIN && gtb (flow d) HPFLOW);
    try destruct (hm_temp_IN d); auto.
Qed.

Lemma classifier_unknown_ambient prev base power flow_m3h t_in t_out :
  compute_logical_status prev
    (with_readings base power flow_m3h t_in t_out None)
  = compute_logical_status prev
      (with_readings base power flow_m3h t_in t_out (Some HPAMB)).
Proof. reflexivity. Qed.

(** A segment average is taken over the rows that have a value: the rows
    that are null in the column can be dropped from the run without
    changing it. *)
Lemma avg_skips_null status seg col :
  avg status seg col
  = avg status
        (filter (fun r => match col r with Some _ => true | None => false end)
                seg) col.
Proof.
  unfold avg.
  assert (H : non_null
                (map col (filter (fun r => status_eqb (s_status r) status) seg))
              = non_null
                  (map col
                     (filter (fun r => status_eqb (s_status r) status)
                        (filter (fun r => match col r with
                                          | Some _ => true
                                          | None => false
                                          end) seg)))).
  { induction seg as [|r seg IH]; simpl; [reflexivity|].
    destruct (col r) as [v|] eqn:Hv; simpl;
      destruct (status_eqb (s_status r) status); simpl;
      rewrite ?Hv; try rewrite IH; reflexivity. }
  now rewrite H.
Qed.

(** Where absent values are left out. The average of a column over a
    run skips the rows that are null in the column, and is null if the
    rows of the segment's status are all null in it; an energy delta with
    a null endpoint is null. The classifier makes no temperature
    comparison when the inlet or the outlet temperature is absent (the
    answer is the previous mode or Standby), and takes an absent ambient
    temperature as not below the threshold. With the power or the flow
    absent no threshold is passed, as with a reading of zero: the answer
    is Standby. *)
Lemma absent_values_left_out :
  (forall status seg col,
     avg status seg col
     = avg status
           (filter (fun r => match col r with
                             | Some _ => true
                             | None => false
                             end) seg) col)
  /\ (forall status seg col,
        (forall r, In r seg -> s_status r = status -> col r = None) ->
        avg status seg col = None)
  /\ (forall day day_start rows i_start i_end first last,
        (forall r, In r rows -> s_hm_temp_IN r = None) ->
        hp_temp_in (d_measures (segment_row day day_start rows i_start i_end
                                            first last)) = None)
  /\ (forall x, delta x None = None /\ delta None x = None)
  /\ (forall prev d,
        hm_temp_IN d = None \/ hm_temp_OUT d = None ->
        compute_logical_status prev d = last_or_S prev
        \/ compute_logical_status prev d = Standby)
  /\ (forall prev base power flow_m3h t_in t_out,
        compute_logical_status prev
          (with_readings base power flow_m3h t_in t_out None)
        = compute_logical_status prev
            (with_readings base power flow_m3h t_in t_out (Some HPAMB)))
  /\ (forall prev base flow_m3h t_in t_out amb,
        compute_logical_status prev
          (with_readings base None flow_m3h t_in t_out amb) = Standby)
  /\ (forall prev base power t_in t_out amb,
        compute_logical_status prev
          (with_readings base power None t_in t_out amb) = Standby).
Proof.
  split; [exact avg_skips_null|].
  split; [exact avg_all_null|].
  split.
  { intros day day_start rows i_start i_end first last Hnull; simpl.
    apply avg_all_null. intros r Hin _. apply Hnull.
    apply In_firstn in Hin. eapply In_skipn; eassumption. }
  split; [intros x; split; [now destruct x | reflexivity]|].
  split; [exact classifier_unknown_temperature|].
  split; [exact classifier_unknown_ambient|].
  split; [intros; reflexivity|].
  intros; apply classifier_no_flow.
Qed.

(** ** The day table: what a rebuild touches *)

Lemma In_day_insert x r t :
  In x (day_insert_or_replace r t) -> x = r \/ In x t.
Proof.
  unfold day_insert_or_replace. intros H.
  apply in_app_or in H. destruct H as [H|[H|[]]]; [|now left].
  right. now apply filter_In in H.
Qed.

(** Rows of other days stay in front, untouched, when a row of the day is
    inserted. *)
Lemma day_insert_frame day r c x :
  day_date r = day ->
  Forall (fun y => day_date y <> day) c ->
  day_insert_or_replace r (c ++ x) = c ++ day_insert_or_replace r x.
Proof.
  intros Hr Hc. unfold day_insert_or_replace.
  rewrite filter_app, <- app_assoc. f_equal.
  induction Hc as [|y c Hy Hc IH]; simpl; [reflexivity|].
  assert (Hk : day_key_eqb y r = false).
  { unfold day_key_eqb. replace (day_date y =? day_date r) with false;
      [reflexivity|]. symmetry. apply Z.eqb_neq. congruence. }
  now rewrite Hk, IH.
Qed.

Lemma store_day_segment_frame day start rows a b c x :
  Forall (fun y => day_date y <> day) c ->
  _store_day_segment (c ++ x) day start rows a b
  = c ++ _store_day_segment x day start rows a b.
Proof.
  intros Hc. unfold _store_day_segment.
  destruct (b <=? a)%nat; [reflexivity|].
  destruct (nth_error rows a) as [first|]; [|reflexivity].
  destruct (nth_error rows b) as [last|]; [|reflexivity].
  destruct (negb (allowed_status (s_status first))); [reflexivity|].
  destruct (s_ts_utc_s last <=? s_ts_utc_s first); [reflexivity|].
  now apply (day_insert_frame day).
Qed.

Lemma scan_segments_frame day start rows c rest :
  Forall (fun y => day_date y <> day) c ->
  forall i idx sst x,
    scan_segments day start rows i rest idx sst (c ++ x)
    = (c ++ fst (scan_segments day start rows i rest idx sst x),
       snd (scan_segments day start rows i rest idx sst x)).
Proof.
  intros Hc.
  induction rest as [|r rest IH]; intros i idx sst x; simpl; [reflexivity|].
  destruct (negb (allowed_status (s_status r))).
  - destruct idx as [a|]; [|apply IH].
    rewrite store_day_segment_frame by assumption. apply IH.
  - destruct idx as [a|]; [|apply IH].
    destruct (match sst with
              | Some s => negb (status_eqb (s_status r) s)
              | None => true
              end); [|apply IH].
    rewrite store_day_segment_frame by assumption. apply IH.
Qed.

Lemma insert_segments_frame day start rows c x :
  Forall (fun y => day_date y <> day) c ->
  insert_segments day start rows (c ++ x)
  = c ++ insert_segments day start rows x.
Proof.
  intros Hc. unfold insert_segments.
  rewrite (scan_segments_frame day start rows c rows Hc).
  destruct (scan_segments day start rows 0 rows None None x) as [cur idx];
    simpl.
  destruct idx as [a|]; [|reflexivity].
  now apply store_day_segment_frame.
Qed.

Lemma insert_on_rows_frame samples day start rows c :
  Forall (fun y => day_date y <> day) c ->
  forall x,
    insert_on_rows samples day start rows (c ++ x)
    = c ++ insert_on_rows samples day start rows x.
Proof.
  intros Hc. unfold insert_on_rows.
  induction rows as [|r rows IH]; intros x; simpl; [reflexivity|].
  destruct (status_eqb (s_status r) On); [|apply IH].
  rewrite (day_insert_frame day) by (assumption || reflexivity). apply IH.
Qed.

Lemma insert_off_rows_frame day start end_ off_list c :
  Forall (fun y => day_date y <> day) c ->
  forall x,
    insert_off_rows day start end_ off_list (c ++ x)
    = c ++ insert_off_rows day start end_ off_list x.
Proof.
  intros Hc. unfold insert_off_rows.
  induction off_list as [|[s e] off_list IH]; intros x; simpl; [reflexivity|].
  destruct (e <=? s); [apply IH|].
  destruct (Z.min e end_ <=? Z.max s start); [apply IH|].
  rewrite (day_insert_frame day) by (assumption || reflexivity). apply IH.
Qed.

Lemma other_days_foreign day t :
  Forall (fun y => day_date y <> day) (other_days day t).
Proof.
  apply Forall_forall. intros y Hy. apply filter_In in Hy.
  destruct Hy as [_ Hy]. apply negb_true_iff, Z.eqb_neq in Hy. exact Hy.
Qed.

(** The rebuild keeps the rows of the other days and replaces the rows of
    the day by what the samples and the OFF intervals give: nothing of the
    day's former rows enters the result. *)
Lemma build_day_table_frame segs samples day t :
  build_day_table segs samples day t
  = other_days day t ++ build_day_table segs samples day [].
Proof.
  unfold build_day_table. simpl.
  fold (other_days day t).
  pose proof (other_days_foreign day t) as Hc.
  rewrite <- (app_nil_r (other_days day t)) at 1.
  rewrite insert_on_rows_frame, insert_segments_frame,
    insert_off_rows_frame by assumption.
  reflexivity.
Qed.

(** ** The day table: where each row comes from *)

Lemma In_store_day_segment day start rows a b s cur x :
  same_status_span rows a b s ->
  In x (_store_day_segment cur day start rows a b) ->
  In x cur \/ is_segment_of day start rows x.
Proof.
  intros Hspan. unfold _store_day_segment.
  destruct (b <=? a)%nat eqn:Hba; [now left|].
  apply Nat.leb_gt in Hba.
  destruct (nth_error rows a) as [first|] eqn:Ha; [|now left].
  destruct (nth_error rows b) as [last|] eqn:Hb; [|now left].
  destruct (allowed_status (s_status first)) eqn:Hal; simpl; [|now left].
  destruct (s_ts_utc_s last <=? s_ts_utc_s first) eqn:Hts; [now left|].
  apply Z.leb_gt in Hts.
  intros Hin. apply In_day_insert in Hin. destruct Hin as [->|Hin]; [|now left].
  right. exists a, b, first, last.
  repeat split; try assumption.
  destruct (Hspan a) as (r & Hr & Hs); [lia|].
  rewrite Ha in Hr. injection Hr as <-. now rewrite Hs.
Qed.

Lemma same_status_span_extend rows a i s r :
  (a < i)%nat ->
  same_status_span rows a (i - 1) s ->
  nth_error rows i = Some r ->
  s_status r = s ->
  same_status_span rows a (S i - 1) s.
Proof.
  intros Hai Hspan Hr Hs k Hk.
  destruct (Nat.eq_dec k i) as [->|Hne].
  - exists r. now split.
  - apply Hspan. lia.
Qed.

Lemma same_status_span_single rows i r :
  nth_error rows i = Some r ->
  same_status_span rows i (S i - 1) (s_status r).
Proof.
  intros Hr k Hk. assert (k = i) as -> by lia. exists r. now split.
Qed.

Lemma scan_segments_In day start rows rest :
  forall done idx sst cur,
    rows = done ++ rest ->
    scan_state_ok rows (List.length done) idx sst ->
    let res := scan_segments day start rows (List.length done) rest idx sst cur in
    (forall x, In x (fst res) -> In x cur \/ is_segment_of day start rows x)
    /\ (forall a, snd res = Some a ->
          (a < List.length rows)%nat
          /\ exists s, same_status_span rows a (List.length rows - 1) s).
Proof.
  induction rest as [|r rest IH]; intros done idx sst cur Hrows Hok; simpl.
  - split; [now left|].
    intros a ->. rewrite app_nil_r in Hrows. subst done.
    destruct Hok as (Hlt & s & _ & Hspan). split; [exact Hlt|now exists s].
  - assert (Hr : nth_error rows (List.length done) = Some r).
    { rewrite Hrows, nth_error_app2, Nat.sub_diag by lia. reflexivity. }
    assert (Hrows' : rows = (done ++ [r]) ++ rest)
      by (now rewrite <- app_assoc).
    assert (Hlen : List.length (done ++ [r]) = S (List.length done))
      by (rewrite length_app; simpl; lia).
    specialize (IH (done ++ [r])). rewrite Hlen in IH.
    destruct (allowed_status (s_status r)) eqn:Hal; simpl.
    + destruct idx as [a|].
      * destruct Hok as (Hlt & s & -> & Hspan).
        destruct (status_eqb_spec (s_status r) s) as [Hs|Hs]; simpl.
        -- apply IH; [assumption|].
           split; [lia|]. exists s. split; [reflexivity|].
           now apply same_status_span_extend with (r := r).
        -- destruct (IH (Some (List.length done)) (Some (s_status r))
                        (_store_day_segment cur day start rows a
                                            (List.length done - 1)) Hrows')
             as [Hin Hfin].
           { split; [lia|]. exists (s_status r). split; [reflexivity|].
             now apply same_status_span_single. }
           split; [|exact Hfin].
           intros x Hx. destruct (Hin x Hx) as [Hc|Hseg]; [|now right].
           now apply In_store_day_segment with (s := s) in Hc.
      * apply IH; [assumption|].
        split; [lia|]. exists (s_status r). split; [reflexivity|].
        now apply same_status_span_single.
    + destruct idx as [a|].
      * destruct Hok as (Hlt & s & -> & Hspan).
        destruct (IH None None
                     (_store_day_segment cur day start rows a
                                         (List.length done - 1)) Hrows' I)
          as [Hin Hfin].
        split; [|exact Hfin].
        intros x Hx. destruct (Hin x Hx) as [Hc|Hseg]; [|now right].
        now apply In_store_day_segment with (s := s) in Hc.
      * apply IH; [assumption|exact I].
Qed.

Lemma In_insert_segments day start rows cur x :
  In x (insert_segments day start rows cur) ->
  In x cur \/ is_segment_of day start rows x.
Proof.
  unfold insert_segments.
  destruct (scan_segments_In day start rows rows [] None None cur eq_refl I)
    as [Hin Hfin]. simpl in Hin, Hfin.
  destruct (scan_segments day start rows 0 rows None None cur) as [cur' idx];
    simpl in *.
  destruct idx as [a|]; [|apply Hin].
  destruct (Hfin a eq_refl) as (_ & s & Hspan).
  intros Hx. apply In_store_day_segment with (s := s) in Hx; [|assumption].
  destruct Hx as [Hx|Hx]; [apply Hin, Hx | now right].
Qed.

Lemma In_insert_on_rows samples day start rows : forall cur x,
  In x (insert_on_rows samples day start rows cur) ->
  In x cur
  \/ exists r, In r rows /\ s_status r = On /\ x = on_row samples day start r.
Proof.
  unfold insert_on_rows.
  induction rows as [|r rows IH]; intros cur x; simpl; [now left|].
  intros Hx. apply IH in Hx.
  destruct Hx as [Hx|(r' & Hr' & Hs & ->)].
  - destruct (status_eqb_spec (s_status r) On) as [Hon|Hon]; [|now left].
    apply In_day_insert in Hx. destruct Hx as [->|Hx]; [|now left].
    right. exists r. auto.
  - right. exists r'. auto.
Qed.

Lemma In_insert_off_rows day start end_ off_list : forall cur x,
  In x (insert_off_rows day start end_ off_list cur) ->
  In x cur
  \/ exists seg_start seg_end,
       In (seg_start, seg_end) off_list
       /\ Z.max seg_start start < Z.min seg_end end_
       /\ x = off_row day start (Z.max seg_start start) (Z.min seg_end end_).
Proof.
  unfold insert_off_rows.
  induction off_list as [|[s e] off_list IH]; intros cur x; simpl;
    [now left|].
  intros Hx. apply IH in Hx.
  destruct Hx as [Hx|(s' & e' & Hin & Hlt & ->)].
  - destruct (e <=? s); [now left|].
    destruct (Z.min e end_ <=? Z.max s start) eqn:Hclip; [now left|].
    apply Z.leb_gt in Hclip.
    apply In_day_insert in Hx. destruct Hx as [->|Hx]; [|now left].
    right. exists s, e. auto.
  - right. exists s', e'. auto.
Qed.

(** Every row of a rebuilt day is an "ON" marker, a segment of the
    accumulating statuses, or a clipped OFF interval. *)
Lemma build_day_table_rows segs samples day x :
  In x (build_day_table segs samples day []) ->
  let start := local_midnight day in
  let rows := day_rows samples day in
  (exists r, In r rows /\ s_status r = On /\ x = on_row samples day start r)
  \/ is_segment_of day start rows x
  \/ exists seg_start seg_end,
       In (seg_start, seg_end) (dict_get day segs)
       /\ Z.max seg_start start < Z.min seg_end (local_midnight (day + 1))
       /\ x = off_row day start (Z.max seg_start start)
                      (Z.min seg_end (local_midnight (day + 1))).
Proof.
  unfold build_day_table, day_rows. simpl. intros Hx.
  apply In_insert_off_rows in Hx. destruct Hx as [Hx|Hx]; [|now right; right].
  apply In_insert_segments in Hx. destruct Hx as [Hx|Hx]; [|now right; left].
  apply In_insert_on_rows in Hx. destruct Hx as [[]|Hx]. now left.
Qed.

Lemma build_day_table_own segs samples day x :
  In x (build_day_table segs samples day []) -> day_date x = day.
Proof.
  intros Hx. apply build_day_table_rows in Hx.
  destruct Hx as [(r & _ & _ & ->)|[(a & b & f & l & H)|(s & e & _ & _ & ->)]];
    try reflexivity.
  destruct H as (_ & _ & _ & _ & _ & _ & ->). reflexivity.
Qed.

Lemma other_days_own day t :
  (forall x, In x t -> day_date x = day) -> other_days day t = [].
Proof.
  intros H. unfold other_days.
  induction t as [|x t IH]; simpl; [reflexivity|].
  rewrite (H x (or_introl eq_refl)), Z.eqb_refl; simpl.
  apply IH. intros y Hy. apply H. now right.
Qed.

Lemma other_days_idem day t :
  other_days day (other_days day t) = other_days day t.
Proof.
  unfold other_days. induction t as [|x t IH]; simpl; [reflexivity|].
  destruct (negb (day_date x =? day)) eqn:Hx; simpl; [|exact IH].
  now rewrite Hx, IH.
Qed.

(** C8. A second rebuild of a day, on the same samples and the same OFF
    intervals, gives the table of the first rebuild: the rows of the day
    are deleted and written again from the samples alone, so the result
    does not depend on the rows of that day that the table held. *)
Theorem day_rebuild_idempotent segs db day :
  build_day_summary_for_date segs (build_day_summary_for_date segs db day) day
  = build_day_summary_for_date segs db day
  /\ day_summary (build_day_summary_for_date segs db day)
     = other_days day (day_summary db)
       ++ build_day_table segs (hp_samples db) day [].
Proof.
  assert (Hframe := build_day_table_frame segs (hp_samples db) day).
  split; [|apply Hframe].
  unfold build_day_summary_for_date; simpl. f_equal.
  rewrite (Hframe (build_day_table _ _ _ _)).
  rewrite (Hframe (day_summary db)) at 1.
  unfold other_days at 1. rewrite filter_app.
  fold (other_days day (other_days day (day_summary db))).
  fold (other_days day (build_day_table segs (hp_samples db) day [])).
  rewrite other_days_idem.
  rewrite (other_days_own day (build_day_table _ _ _ _))
    by apply build_day_table_own.
  rewrite app_nil_r. symmetry. apply Hframe.
Qed.

Lemma NoDup_map_filter {A B} (f : A -> B) (p : A -> bool) l :
  NoDup (map f l) -> NoDup (map f (filter p l)).
Proof.
  induction l as [|x l IH]; simpl; intros Hnd; [constructor|].
  inversion Hnd as [|? ? Hx Hl]; subst.
  destruct (p x); simpl; [|now apply IH].
  constructor; [|now apply IH].
  intros Hin. apply Hx. apply in_map_iff in Hin.
  destruct Hin as (y & Hy & Hin). apply filter_In in Hin.
  apply in_map_iff. exists y. tauto.
Qed.

(** Two rows of a table with distinct timestamps that carry the same
    timestamp sit at the same index. *)
Lemma same_ts_same_index rows a b ra rb :
  NoDup (map s_ts_utc_s rows) ->
  nth_error rows a = Some ra ->
  nth_error rows b = Some rb ->
  s_ts_utc_s ra = s_ts_utc_s rb ->
  a = b.
Proof.
  intros Hnd Ha Hb Hts.
  apply (proj1 (NoDup_nth_error (map s_ts_utc_s rows)) Hnd).
  - rewrite length_map. apply nth_error_Some. congruence.
  - rewrite !nth_error_map, Ha, Hb. simpl. now rewrite Hts.
Qed.

Lemma segment_spans_two_rows day start rows x :
  is_segment_of day start rows x ->
  allowed_status (d_status x) = true
  /\ start_ts_utc_s x < end_ts_utc_s x
  /\ total_time_s (d_measures x) = end_ts_utc_s x - start_ts_utc_s x.
Proof.
  intros (a & b & first & last & _ & _ & _ & Hal & Hts & _ & ->); simpl.
  auto.
Qed.

Lemma In_build_day_table_own segs samples day t x :
  In x (build_day_table segs samples day t) ->
  day_date x = day ->
  In x (build_day_table segs samples day []).
Proof.
  rewrite build_day_table_frame. intros Hx Hday.
  apply in_app_or in Hx. destruct Hx as [Hx|Hx]; [|exact Hx].
  pose proof (other_days_foreign day t) as Hf.
  rewrite Forall_forall in Hf. now apply Hf in Hx.
Qed.

Lemma accumulating_row_is_segment segs samples day t x :
  In x (build_day_table segs samples day t) ->
  day_date x = day ->
  allowed_status (d_status x) = true ->
  is_segment_of day (local_midnight day) (day_rows samples day) x.
Proof.
  intros Hx Hday Hal.
  apply In_build_day_table_own in Hx; [|assumption].
  apply build_day_table_rows in Hx.
  destruct Hx as [(r & _ & _ & ->)|[Hseg|(s & e & _ & _ & ->)]];
    try discriminate.
  exact Hseg.
Qed.

(** C10. After a rebuild, every row of the day with an accumulating
    status ends strictly after it starts, and its duration is that
    positive difference. Hence a run of a single sample row leaves no
    segment: with distinct timestamps in the sample table, no such row of
    the day starts at the timestamp of a row that is a run of its own. *)
Theorem segments_have_positive_duration segs samples day t x :
  In x (build_day_table segs samples day t) ->
  day_date x = day ->
  allowed_status (d_status x) = true ->
  (start_ts_utc_s x < end_ts_utc_s x
   /\ total_time_s (d_measures x) = end_ts_utc_s x - start_ts_utc_s x
   /\ 0 < total_time_s (d_measures x))
  /\ (forall i r,
        NoDup (map s_ts_utc_s samples) ->
        single_row_run (day_rows samples day) i r ->
        start_ts_utc_s x <> s_ts_utc_s r).
Proof.
  intros Hx Hday Hal.
  pose proof (accumulating_row_is_segment segs samples day t x Hx Hday Hal)
    as Hseg.
  split.
  - destruct (segment_spans_two_rows _ _ _ _ Hseg) as (_ & Hlt & Hdur).
    rewrite Hdur. repeat split; lia.
  - intros i r Hnd (Hr & _ & Hnext & _) Hts.
    destruct Hseg as (a & b & first & last & Hab & Ha & _ & _ & _ & Hspan & ->).
    simpl in Hts.
    assert (Hrows : NoDup (map s_ts_utc_s (day_rows samples day)))
      by (apply NoDup_map_filter, Hnd).
    assert (a = i) as ->
      by (eapply same_ts_same_index; eassumption).
    assert (first = r) as -> by congruence.
    destruct (Hspan (S i)) as (r' & Hr' & Hs'); [lia|].
    exact (Hnext r' Hr' Hs').
Qed.

(** The row at which a stored segment ends carries the status of the
    segment: a segment never ends at the row of another status that
    closes its run. *)
Lemma segment_ends_on_own_status segs samples day t x :
  In x (build_day_table segs samples day t) ->
  day_date x = day ->
  allowed_status (d_status x) = true ->
  exists b last,
    nth_error (day_rows samples day) b = Some last
    /\ end_ts_utc_s x = s_ts_utc_s last
    /\ s_status last = d_status x.
Proof.
  intros Hx Hday Hal.
  destruct (accumulating_row_is_segment segs samples day t x Hx Hday Hal)
    as (a & b & first & last & Hab & Ha & Hb & _ & _ & Hspan & ->).
  exists b, last. simpl. repeat split; try assumption.
  destruct (Hspan b) as (r & Hr & Hs); [lia|]. congruence.
Qed.

(** ** The sample table stays ordered *)

Lemma In_samples_insert r t x :
  In x (samples_insert_or_replace r t) -> x = r \/ In x t.
Proof.
  induction t as [|y t IH]; simpl.
  - intros [<-|[]]. now left.
  - destruct (s_ts_utc_s r <? s_ts_utc_s y).
    + intros [<-|H]; auto.
    + destruct (s_ts_utc_s r =? s_ts_utc_s y).
      * intros [<-|H]; auto.
      * intros [<-|H]; auto. destruct (IH H); auto.
Qed.

Lemma samples_insert_sorted r t :
  StronglySorted (fun a b => s_ts_utc_s a < s_ts_utc_s b) t ->
  StronglySorted (fun a b => s_ts_utc_s a < s_ts_utc_s b)
                 (samples_insert_or_replace r t).
Proof.
  induction 1 as [|y t Hsorted IH Hlt]; simpl.
  - repeat constructor.
  - rewrite Forall_forall in Hlt.
    destruct (Z.ltb_spec (s_ts_utc_s r) (s_ts_utc_s y)) as [Hry|Hry].
    + constructor; [now constructor; [|apply Forall_forall]|].
      apply Forall_forall. intros x [<-|Hx]; [exact Hry|].
      specialize (Hlt x Hx). lia.
    + destruct (Z.eqb_spec (s_ts_utc_s r) (s_ts_utc_s y)) as [Heq|Hne].
      * constructor; [exact Hsorted|].
        apply Forall_forall. intros x Hx. rewrite Heq. now apply Hlt.
      * constructor; [exact IH|].
        apply Forall_forall. intros x Hx.
        apply In_samples_insert in Hx. destruct Hx as [->|Hx]; [lia|].
        now apply Hlt.
Qed.

Lemma sorted_samples_NoDup t :
  StronglySorted (fun a b => s_ts_utc_s a < s_ts_utc_s b) t ->
  NoDup (map s_ts_utc_s t).
Proof.
  induction 1 as [|y t Hsorted IH Hlt]; simpl; constructor; [|exact IH].
  rewrite Forall_forall in Hlt. intros Hin.
  apply in_map_iff in Hin. destruct Hin as (x & Heq & Hx).
  specialize (Hlt x Hx). lia.
Qed.

(** ** The offline gap *)

Lemma In_days_from n : forall a d,
  In d (days_from a n) <-> a <= d < a + Z.of_nat n.
Proof.
  induction n as [|n IH]; intros a d; simpl days_from.
  - simpl. lia.
  - simpl In. rewrite IH. lia.
Qed.


Lemma days_from_sorted n : forall a, StronglySorted Z.lt (days_from a n).
Proof.
  induction n as [|n IH]; intros a; simpl; constructor; [apply IH|].
  apply Forall_forall. intros d Hd. apply In_days_from in Hd. lia.
Qed.

Lemma setdefault_append_new {V} k (v : V) m :
  ~ In k (map fst m) -> setdefault_append k v m = m ++ [(k, [v])].
Proof.
  induction m as [|[k' vs] m IH]; simpl; intros Hk; [reflexivity|].
  destruct (Z.eqb_spec k k') as [->|Hne]; [tauto|].
  rewrite IH by tauto. reflexivity.
Qed.

(** The dict built by the loop of [compute_offline_segments] in terms of
    the entry of each day. *)
Lemma offline_loop start_ts end_ts days :
  StronglySorted Z.lt days ->
  forall segs,
    (forall k d, In k (map fst segs) -> In d days -> k < d) ->
    fold_left
      (fun segs day =>
         let seg_start_utc :=
           if day =? local_date start_ts then start_ts
           else local_midnight day in
         let seg_end_utc :=
           if day =? local_date end_ts then end_ts
           else local_midnight (day + 1) in
         if seg_end_utc >? seg_start_utc
         then setdefault_append day (seg_start_utc, seg_end_utc) segs
         else segs)
      days segs
    = segs ++ flat_map (offline_entry start_ts end_ts) days.
Proof.
  induction 1 as [|day days Hsorted IH Hlt]; intros segs Hkeys; simpl.
  - now rewrite app_nil_r.
  - rewrite Forall_forall in Hlt.
    unfold offline_entry at 1, offline_interval.
    destruct (_ >? _).
    + rewrite setdefault_append_new.
      * rewrite IH; [now rewrite <- app_assoc|].
        intros k d Hk Hd. rewrite map_app, in_app_iff in Hk.
        destruct Hk as [Hk|[<-|[]]]; [|now apply Hlt].
        apply Hkeys; [assumption|now right].
      * intros Hk. specialize (Hkeys day day Hk (or_introl eq_refl)). lia.
    + apply IH. intros k d Hk Hd. apply Hkeys; [assumption|now right].
Qed.

Lemma compute_offline_segments_entries start_ts end_ts :
  start_ts < end_ts ->
  compute_offline_segments (Some start_ts) (Some end_ts)
  = flat_map (offline_entry start_ts end_ts)
             (days_from_to (local_date start_ts) (local_date end_ts)).
Proof.
  intros Hlt. unfold compute_offline_segments.
  destruct (end_ts <=? start_ts) eqn:Hle; [apply Z.leb_le in Hle; lia|].
  rewrite offline_loop; [reflexivity | apply days_from_sorted | intros k d []].
Qed.

Lemma In_offline_entries start_ts end_ts days day l :
  In (day, l) (flat_map (offline_entry start_ts end_ts) days) ->
  In day days
  /\ l = [offline_interval start_ts end_ts day]
  /\ fst (offline_interval start_ts end_ts day)
     < snd (offline_interval start_ts end_ts day).
Proof.
  intros Hin. apply in_flat_map in Hin. destruct Hin as (d & Hd & Hin).
  unfold offline_entry in Hin.
  destruct (offline_interval start_ts end_ts d) as [s e] eqn:Hint.
  destruct (e >? s) eqn:Hgt; [|destruct Hin].
  destruct Hin as [[= <- <-]|[]]. rewrite Hint; simpl.
  repeat split; try assumption. lia.
Qed.



Lemma offline_keys_sorted start_ts end_ts days :
  StronglySorted Z.lt days ->
  StronglySorted Z.lt
    (map fst (flat_map (offline_entry start_ts end_ts) days)).
Proof.
  induction 1 as [|day days Hsorted IH Hlt]; simpl; [constructor|].
  unfold offline_entry at 1.
  destruct (offline_interval start_ts end_ts day) as [s e].
  destruct (e >? s); simpl; [|exact IH].
  constructor; [exact IH|].
  rewrite Forall_forall in *. intros k Hk.
  apply in_map_iff in Hk. destruct Hk as ([k' l] & <- & Hk).
  apply In_offline_entries in Hk. now apply Hlt.
Qed.


(** *** The time zone

    A local day runs from its midnight to the next one, and a UTC second
    belongs to the local day whose two midnights enclose it. *)
Hypothesis midnight_increasing :
  forall d, local_midnight d < local_midnight (d + 1).
Hypothesis local_date_spec :
  forall ts, local_midnight (local_date ts) <= ts
             < local_midnight (local_date ts + 1).

Lemma midnight_lt d1 d2 : d1 < d2 -> local_midnight d1 < local_midnight d2.
Proof.
  intros Hlt.
  assert (H : forall n : nat,
             local_midnight d1 < local_midnight (d1 + 1 + Z.of_nat n)).
  { induction n as [|n IH].
    - rewrite Z.add_0_r. apply midnight_increasing.
    - replace (d1 + 1 + Z.of_nat (S n)) with (d1 + 1 + Z.of_nat n + 1) by lia.
      pose proof (midnight_increasing (d1 + 1 + Z.of_nat n)). lia. }
  specialize (H (Z.to_nat (d2 - d1 - 1))).
  now replace (d1 + 1 + Z.of_nat (Z.to_nat (d2 - d1 - 1))) with d2 in H by lia.
Qed.

Lemma midnight_le d1 d2 : d1 <= d2 -> local_midnight d1 <= local_midnight d2.
Proof.
  intros Hle. destruct (Z.eq_dec d1 d2) as [->|Hne]; [lia|].
  pose proof (midnight_lt d1 d2). lia.
Qed.


Lemma local_date_mono a b : a <= b -> local_date a <= local_date b.
Proof.
  intros Hab. pose proof (local_date_spec a). pose proof (local_date_spec b).
  destruct (Z_le_gt_dec (local_date a) (local_date b)) as [Hle|Hgt];
    [exact Hle|].
  pose proof (midnight_le (local_date b + 1) (local_date a)). lia.
Qed.



(** *** The rebuild of the days of the gap *)





(** *** The first write *)




(** ** One level of the roll-up, in general

    Each of the three levels deletes the rows in the scope of the day
    and inserts one row per status group of the level below. *)

Section Level.

Variables Row Src : Type.
Variable row_status : Row -> Status.
Variable in_scope : Row -> bool.
Variable key_eqb : Row -> Row -> bool.
Variable mk : Status -> list Src -> Row.
Variable src_status : Src -> Status.

Hypothesis mk_status : forall st g, row_status (mk st g) = st.
Hypothesis mk_scope : forall st g, in_scope (mk st g) = true.
Hypothesis key_scope :
  forall x r, key_eqb x r = true -> in_scope r = true -> in_scope x = true.
Hypothesis key_status :
  forall x r, key_eqb x r = true -> row_status x = row_status r.

Lemma insert_fresh (r : Row) t :
  (forall x, In x t -> key_eqb x r = false) ->
  filter (fun x => negb (key_eqb x r)) t ++ [r] = t ++ [r].
Proof.
  intros Hfresh. f_equal.
  induction t as [|x t IH]; simpl; [reflexivity|].
  rewrite (Hfresh x (or_introl eq_refl)); simpl.
  f_equal. apply IH. intros y Hy. apply Hfresh. now right.
Qed.

Lemma level_fold groups : forall base done,
  NoDup (map fst done ++ map fst groups) ->
  (forall x, In x base -> in_scope x = false) ->
  fold_left
    (fun cur g => filter (fun x => negb (key_eqb x (mk (fst g) (snd g)))) cur
                  ++ [mk (fst g) (snd g)])
    groups (base ++ map (fun g => mk (fst g) (snd g)) done)
  = base ++ map (fun g => mk (fst g) (snd g)) (done ++ groups).
Proof.
  induction groups as [|g groups IH]; intros base done Hnd Hbase; simpl.
  - now rewrite app_nil_r.
  - rewrite insert_fresh.
    + rewrite <- app_assoc.
      change [mk (fst g) (snd g)]
        with (map (fun g => mk (fst g) (snd g)) [g]).
      rewrite <- map_app, IH; [now rewrite <- app_assoc | | assumption].
      rewrite map_app. simpl. now rewrite <- app_assoc.
    + intros x Hx. apply in_app_or in Hx.
      destruct (key_eqb x (mk (fst g) (snd g))) eqn:Hk; [|reflexivity].
      exfalso. destruct Hx as [Hx|Hx].
      * apply key_scope in Hk; [|apply mk_scope]. rewrite Hbase in Hk by
          assumption. discriminate.
      * apply in_map_iff in Hx. destruct Hx as (g' & <- & Hg').
        apply key_status in Hk. rewrite !mk_status in Hk.
        apply NoDup_remove_2 in Hnd. apply Hnd.
        apply in_or_app. left. rewrite <- Hk. now apply in_map.
Qed.

Lemma NoDup_all_statuses : NoDup all_statuses.
Proof.
  unfold all_statuses.
  repeat constructor; simpl; intuition discriminate.
Qed.

Lemma In_all_statuses st : In st all_statuses.
Proof. destruct st; simpl; tauto. Qed.

Lemma group_keys_NoDup (src : list Src) :
  NoDup (map fst (group_by_status src_status src)).
Proof.
  unfold group_by_status.
  generalize NoDup_all_statuses. generalize all_statuses as l.
  induction l as [|s l IH]; intros Hnd; simpl; [constructor|].
  inversion Hnd as [|? ? Hs Hl]; subst.
  destruct (is_nil (filter (fun r => status_eqb (src_status r) s) src));
    simpl; [now apply IH|].
  constructor; [|now apply IH].
  intros Hin. apply Hs. apply in_map_iff in Hin.
  destruct Hin as ([s' g] & <- & Hin). apply filter_In in Hin.
  destruct Hin as [Hin _]. apply in_map_iff in Hin.
  destruct Hin as (s'' & [= <- _] & Hin). exact Hin.
Qed.

Lemma level_update_eq src old :
  level_update in_scope key_eqb mk src_status src old
  = filter (fun r => negb (in_scope r)) old
    ++ map (fun g => mk (fst g) (snd g)) (group_by_status src_status src).
Proof.
  unfold level_update.
  rewrite <- (app_nil_r (filter _ old)) at 1.
  change (@nil Row) with (map (fun g => mk (fst g) (snd g)) []).
  rewrite level_fold; [reflexivity | apply group_keys_NoDup |].
  intros x Hx. apply filter_In in Hx. now apply negb_true_iff.
Qed.

(** The rows of one status among the rows inserted. *)
Lemma group_rows_of_status src st l :
  NoDup l ->
  filter (fun r => in_scope r && status_eqb (row_status r) st)
         (map (fun g => mk (fst g) (snd g))
              (filter (fun g => negb (is_nil (snd g)))
                      (map (fun s => (s, filter (fun r =>
                                            status_eqb (src_status r) s) src))
                           l)))
  = if existsb (status_eqb st) l
    then match filter (fun r => status_eqb (src_status r) st) src with
         | [] => []
         | grp => [mk st grp]
         end
    else [].
Proof.
  induction l as [|s l IH]; intros Hnd; [reflexivity|].
  inversion Hnd as [|? ? Hs Hl]; subst. specialize (IH Hl).
  cbn [map filter snd existsb].
  destruct (filter (fun r => status_eqb (src_status r) s) src) as [|x grp]
    eqn:Hgrp; cbn [is_nil negb map filter fst snd].
  - rewrite IH.
    destruct (status_eqb_spec st s) as [Heq|Hne]; [|reflexivity].
    subst s. rewrite Hgrp. now destruct (existsb (status_eqb st) l).
  - rewrite mk_scope, mk_status. cbn [andb].
    rewrite (status_eqb_sym s st).
    destruct (status_eqb_spec st s) as [Heq|Hne]; [|exact IH].
    subst s. rewrite IH, Hgrp. cbn [orb].
    replace (existsb (status_eqb st) l) with false; [reflexivity|].
    symmetry. apply not_true_is_false. intros Hex.
    apply existsb_exists in Hex. destruct Hex as (s' & Hin & Heq).
    apply status_eqb_eq in Heq. now subst s'.
Qed.

(** After the update, the rows in scope with status [st] are the one row
    of the group of [st], if the group is not empty. *)
Lemma level_update_in_scope src old st :
  filter (fun r => in_scope r && status_eqb (row_status r) st)
         (level_update in_scope key_eqb mk src_status src old)
  = match filter (fun r => status_eqb (src_status r) st) src with
    | [] => []
    | grp => [mk st grp]
    end.
Proof.
  rewrite level_update_eq, filter_app.
  replace (filter _ (filter _ old)) with (@nil Row).
  - simpl. unfold group_by_status.
    rewrite (group_rows_of_status src st all_statuses NoDup_all_statuses).
    now destruct st.
  - symmetry. induction old as [|x old IH]; simpl; [reflexivity|].
    destruct (in_scope x) eqn:Hx; simpl; [exact IH|].
    now rewrite Hx.
Qed.

(** Rows out of scope are not touched. *)
Lemma level_update_out_of_scope src old (q : Row -> bool) :
  (forall r, q r = true -> in_scope r = false) ->
  filter q (level_update in_scope key_eqb mk src_status src old) = filter q old.
Proof.
  intros Hq. rewrite level_update_eq, filter_app.
  replace (filter q (map _ _)) with (@nil Row).
  - rewrite app_nil_r.
    induction old as [|x old IH]; simpl; [reflexivity|].
    destruct (in_scope x) eqn:Hx; simpl.
    + destruct (q x) eqn:Hqx; [|exact IH].
      rewrite (Hq x Hqx) in Hx. discriminate.
    + now rewrite IH.
  - symmetry. induction (group_by_status src_status src) as [|g gs IH];
      simpl; [reflexivity|].
    destruct (q (mk (fst g) (snd g))) eqn:Hqx; [|exact IH].
    pose proof (mk_scope (fst g) (snd g)) as Hin.
    rewrite (Hq _ Hqx) in Hin. discriminate.
Qed.

(** Every row after the update is an old row or the row of a group. *)
Lemma In_level_update src old r :
  In r (level_update in_scope key_eqb mk src_status src old) ->
  In r old \/ exists st g, r = mk st g.
Proof.
  rewrite level_update_eq. intros Hr. apply in_app_or in Hr.
  destruct Hr as [Hr|Hr].
  - left. now apply filter_In in Hr.
  - right. apply in_map_iff in Hr. destruct Hr as (g & <- & _). eauto.
Qed.

End Level.

(** ** The three levels of the roll-up *)

Lemma fold_left_ext {A B} (f g : A -> B -> A) l :
  (forall a b, f a b = g a b) ->
  forall a, fold_left f l a = fold_left g l a.
Proof.
  intros Hfg. induction l as [|b l IH]; intros a; simpl; [reflexivity|].
  now rewrite Hfg, IH.
Qed.

Lemma filter_andb {A} (p q : A -> bool) l :
  filter (fun x => p x && q x) l = filter q (filter p l).
Proof.
  induction l as [|x l IH]; simpl; [reflexivity|].
  destruct (p x); simpl; [|exact IH].
  destruct (q x); now rewrite IH.
Qed.

Lemma update_month_level day days months :
  update_month day days months
  = let '(y, m, d) := civil day in
    level_update (month_scope y m d) month_key_eqb
                 (month_row_of y m d) d_status
                 (filter (fun r => day_date r =? day) days) months.
Proof.
  unfold update_month, level_update. destruct (civil day) as [[y m] d].
  apply fold_left_ext. now intros cur [st grp].
Qed.

Lemma update_year_level day months years :
  update_year day months years
  = let '(y, m, _) := civil day in
    level_update (year_scope y m) year_key_eqb
                 (year_row_of y m) mo_status
                 (filter (fun r => (mo_year r =? y) && (mo_month r =? m))
                         months) years.
Proof.
  unfold update_year, level_update. destruct (civil day) as [[y m] d].
  apply fold_left_ext. now intros cur [st grp].
Qed.

Lemma update_total_level day years totals :
  update_total day years totals
  = let '(y, _, _) := civil day in
    level_update (total_scope y) total_key_eqb
                 (total_row_of y) y_status
                 (filter (fun r => y_year r =? y) years) totals.
Proof.
  unfold update_total, level_update. destruct (civil day) as [[y m] d].
  apply fold_left_ext. now intros cur [st grp].
Qed.

Ltac key_facts :=
  repeat match goal with
         | H : _ && _ = true |- _ => apply andb_true_iff in H; destruct H
         | H : (_ =? _) = true |- _ => apply Z.eqb_eq in H
         | H : status_eqb _ _ = true |- _ => apply status_eqb_eq in H
         end.

Lemma month_level_ok y m d :
  (forall st g, mo_status (month_row_of y m d st g) = st)
  /\ (forall st g, month_scope y m d (month_row_of y m d st g) = true)
  /\ (forall x r, month_key_eqb x r = true -> month_scope y m d r = true ->
                  month_scope y m d x = true)
  /\ (forall x r, month_key_eqb x r = true -> mo_status x = mo_status r).
Proof.
  unfold month_scope, month_key_eqb. repeat split; intros; simpl.
  - now rewrite !Z.eqb_refl.
  - key_facts. rewrite !andb_true_iff, !Z.eqb_eq. repeat split; congruence.
  - now key_facts.
Qed.

Lemma year_level_ok y m :
  (forall st g, y_status (year_row_of y m st g) = st)
  /\ (forall st g, year_scope y m (year_row_of y m st g) = true)
  /\ (forall x r, year_key_eqb x r = true -> year_scope y m r = true ->
                  year_scope y m x = true)
  /\ (forall x r, year_key_eqb x r = true -> y_status x = y_status r).
Proof.
  unfold year_scope, year_key_eqb. repeat split; intros; simpl.
  - now rewrite !Z.eqb_refl.
  - key_facts. rewrite !andb_true_iff, !Z.eqb_eq. repeat split; congruence.
  - now key_facts.
Qed.

Lemma total_level_ok y :
  (forall st g, t_status (total_row_of y st g) = st)
  /\ (forall st g, total_scope y (total_row_of y st g) = true)
  /\ (forall x r, total_key_eqb x r = true -> total_scope y r = true ->
                  total_scope y x = true)
  /\ (forall x r, total_key_eqb x r = true -> t_status x = t_status r).
Proof.
  unfold total_scope, total_key_eqb. repeat split; intros; simpl.
  - now rewrite !Z.eqb_refl.
  - key_facts. rewrite !Z.eqb_eq. congruence.
  - now key_facts.
Qed.

Lemma rollup_duration st grp :
  total_time_s (rollup_measures st grp)
  = if status_eqb st On then 0 else sum_Z (map total_time_s grp).
Proof.
  unfold rollup_measures. destruct (status_eqb st On); simpl; [reflexivity|].
  destruct (Z.eqb_spec (sum_Z (map total_time_s grp)) 0); congruence.
Qed.

Lemma rollup_on_blank grp : rollup_measures On grp = blank_measures.
Proof. reflexivity. Qed.

Lemma sum_blank {A} (meas : A -> Measures) l :
  (forall r, In r l -> meas r = blank_measures) ->
  sum_Z (map (fun r => total_time_s (meas r)) l) = 0.
Proof.
  induction l as [|x l IH]; intros Hl; simpl; [reflexivity|].
  rewrite (Hl x (or_introl eq_refl)), IH; [reflexivity|].
  intros r Hr. apply Hl. now right.
Qed.

(** The YEAR row of [(y, m, st)] carries the sum of the MONTH rows of the
    month. *)
Lemma update_year_duration day months years y m d st :
  civil day = (y, m, d) ->
  (forall r, In r months -> mo_status r = On ->
             mo_measures r = blank_measures) ->
  year_month_duration (update_year day months years) y m st
  = month_duration months y m st.
Proof.
  intros Hc Hblank.
  unfold year_month_duration, year_month_rows, month_duration, month_rows.
  rewrite update_year_level, Hc.
  destruct (year_level_ok y m) as (H1 & H2 & H3 & H4).
  change (fun r : YearRow => (y_year r =? y) && (y_month r =? m)
                             && status_eqb (y_status r) st)
    with (fun r : YearRow => year_scope y m r && status_eqb (y_status r) st).
  rewrite (level_update_in_scope _ _ y_status _ _ _ _ H1 H2 H3 H4).
  rewrite (filter_andb (fun r => (mo_year r =? y) && (mo_month r =? m))
                       (fun r => status_eqb (mo_status r) st)).
  destruct (filter (fun r => status_eqb (mo_status r) st) _) as [|x grp] eqn:Hg;
    [reflexivity|].
  rewrite <- Hg. clear Hg.
  cbn [map sum_Z fold_right year_row_of y_measures].
  rewrite rollup_duration, Z.add_0_r, map_map.
  destruct (status_eqb_spec st On) as [->|Hne]; [|reflexivity].
  symmetry. apply sum_blank. intros r Hr.
  apply filter_In in Hr. destruct Hr as [Hr Hs].
  apply filter_In in Hr. destruct Hr as [Hr _].
  apply Hblank; [exact Hr|]. now apply status_eqb_eq.
Qed.

(** The TOTAL row of [(y, st)] carries the sum of the YEAR rows of the
    year. *)
Lemma update_total_duration day years totals y m d st :
  civil day = (y, m, d) ->
  (forall r, In r years -> y_status r = On -> y_measures r = blank_measures) ->
  total_duration (update_total day years totals) y st
  = year_duration years y st.
Proof.
  intros Hc Hblank.
  unfold total_duration, total_rows, year_duration, year_rows.
  rewrite update_total_level, Hc.
  destruct (total_level_ok y) as (H1 & H2 & H3 & H4).
  change (fun r : TotalRow => (t_year r =? y) && status_eqb (t_status r) st)
    with (fun r : TotalRow => total_scope y r && status_eqb (t_status r) st).
  rewrite (level_update_in_scope _ _ t_status _ _ _ _ H1 H2 H3 H4).
  rewrite (filter_andb (fun r => y_year r =? y)
                       (fun r => status_eqb (y_status r) st)).
  destruct (filter (fun r => status_eqb (y_status r) st) _) as [|x grp] eqn:Hg;
    [reflexivity|].
  rewrite <- Hg. clear Hg.
  cbn [map sum_Z fold_right total_row_of t_measures].
  rewrite rollup_duration, Z.add_0_r, map_map.
  destruct (status_eqb_spec st On) as [->|Hne]; [|reflexivity].
  symmetry. apply sum_blank. intros r Hr.
  apply filter_In in Hr. destruct Hr as [Hr Hs].
  apply filter_In in Hr. destruct Hr as [Hr _].
  apply Hblank; [exact Hr|]. now apply status_eqb_eq.
Qed.

(** At most one row per key in the scope of the update. *)
Lemma update_year_one_row day months years y m d st :
  civil day = (y, m, d) ->
  (List.length (year_month_rows (update_year day months years) y m st) <= 1)%nat.
Proof.
  intros Hc. unfold year_month_rows. rewrite update_year_level, Hc.
  destruct (year_level_ok y m) as (H1 & H2 & H3 & H4).
  change (fun r : YearRow => (y_year r =? y) && (y_month r =? m)
                             && status_eqb (y_status r) st)
    with (fun r : YearRow => year_scope y m r && status_eqb (y_status r) st).
  rewrite (level_update_in_scope _ _ y_status _ _ _ _ H1 H2 H3 H4).
  destruct (filter _ _); simpl; lia.
Qed.

Lemma update_total_one_row day years totals y m d st :
  civil day = (y, m, d) ->
  (List.length (total_rows (update_total day years totals) y st) <= 1)%nat.
Proof.
  intros Hc. unfold total_rows. rewrite update_total_level, Hc.
  destruct (total_level_ok y) as (H1 & H2 & H3 & H4).
  change (fun r : TotalRow => (t_year r =? y) && status_eqb (t_status r) st)
    with (fun r : TotalRow => total_scope y r && status_eqb (t_status r) st).
  rewrite (level_update_in_scope _ _ t_status _ _ _ _ H1 H2 H3 H4).
  destruct (filter _ _); simpl; lia.
Qed.

(** The "ON" rows stay without measures at each level. *)
Lemma update_month_on_blank day days months :
  (forall r, In r months -> mo_status r = On ->
             mo_measures r = blank_measures) ->
  forall r, In r (update_month day days months) -> mo_status r = On ->
            mo_measures r = blank_measures.
Proof.
  intros Hold r Hr Hs. rewrite update_month_level in Hr.
  destruct (civil day) as [[y m] d].
  destruct (month_level_ok y m d) as (H1 & H2 & H3 & H4).
  apply (In_level_update _ _ mo_status _ _ _ _ H1 H2 H3 H4) in Hr.
  destruct Hr as [Hr|(st & g & ->)]; [now apply Hold|].
  simpl in Hs. now subst st.
Qed.

Lemma update_year_on_blank day months years :
  (forall r, In r years -> y_status r = On -> y_measures r = blank_measures) ->
  forall r, In r (update_year day months years) -> y_status r = On ->
            y_measures r = blank_measures.
Proof.
  intros Hold r Hr Hs. rewrite update_year_level in Hr.
  destruct (civil day) as [[y m] d].
  destruct (year_level_ok y m) as (H1 & H2 & H3 & H4).
  apply (In_level_update _ _ y_status _ _ _ _ H1 H2 H3 H4) in Hr.
  destruct Hr as [Hr|(st & g & ->)]; [now apply Hold|].
  simpl in Hs. now subst st.
Qed.

Lemma update_total_on_blank day years totals :
  (forall r, In r totals -> t_status r = On -> t_measures r = blank_measures) ->
  forall r, In r (update_total day years totals) -> t_status r = On ->
            t_measures r = blank_measures.
Proof.
  intros Hold r Hr Hs. rewrite update_total_level in Hr.
  destruct (civil day) as [[y m] d].
  destruct (total_level_ok y) as (H1 & H2 & H3 & H4).
  apply (In_level_update _ _ t_status _ _ _ _ H1 H2 H3 H4) in Hr.
  destruct Hr as [Hr|(st & g & ->)]; [now apply Hold|].
  simpl in Hs. now subst st.
Qed.

(** Keys out of the scope of the update keep their sums. *)
Lemma update_month_elsewhere day days months y m d y' m' st :
  civil day = (y, m, d) ->
  (y', m') <> (y, m) ->
  month_duration (update_month day days months) y' m' st
  = month_duration months y' m' st.
Proof.
  intros Hc Hne. unfold month_duration, month_rows.
  rewrite update_month_level, Hc.
  destruct (month_level_ok y m d) as (H1 & H2 & H3 & H4).
  rewrite (level_update_out_of_scope _ _ mo_status _ _ _ _ H1 H2 H3 H4);
    [reflexivity|].
  intros r Hq. unfold month_scope.
  destruct ((mo_year r =? y) && (mo_month r =? m) && (mo_day r =? d)) eqn:Hs;
    [|reflexivity].
  key_facts. exfalso. apply Hne. congruence.
Qed.

Lemma update_year_elsewhere day months years y m d y' m' st :
  civil day = (y, m, d) ->
  (y', m') <> (y, m) ->
  year_month_duration (update_year day months years) y' m' st
  = year_month_duration years y' m' st.
Proof.
  intros Hc Hne. unfold year_month_duration, year_month_rows.
  rewrite update_year_level, Hc.
  destruct (year_level_ok y m) as (H1 & H2 & H3 & H4).
  rewrite (level_update_out_of_scope _ _ y_status _ _ _ _ H1 H2 H3 H4);
    [reflexivity|].
  intros r Hq. unfold year_scope.
  destruct ((y_year r =? y) && (y_month r =? m)) eqn:Hs; [|reflexivity].
  key_facts. exfalso. apply Hne. congruence.
Qed.

Lemma update_year_other_year day months years y m d y' st :
  civil day = (y, m, d) ->
  y' <> y ->
  year_duration (update_year day months years) y' st
  = year_duration years y' st.
Proof.
  intros Hc Hne. unfold year_duration, year_rows.
  rewrite update_year_level, Hc.
  destruct (year_level_ok y m) as (H1 & H2 & H3 & H4).
  rewrite (level_update_out_of_scope _ _ y_status _ _ _ _ H1 H2 H3 H4);
    [reflexivity|].
  intros r Hq. unfold year_scope.
  destruct ((y_year r =? y) && (y_month r =? m)) eqn:Hs; [|reflexivity].
  key_facts. exfalso. apply Hne. congruence.
Qed.

Lemma update_total_other_year day years totals y m d y' st :
  civil day = (y, m, d) ->
  y' <> y ->
  total_duration (update_total day years totals) y' st
  = total_duration totals y' st.
Proof.
  intros Hc Hne. unfold total_duration, total_rows.
  rewrite update_total_level, Hc.
  destruct (total_level_ok y) as (H1 & H2 & H3 & H4).
  rewrite (level_update_out_of_scope _ _ t_status _ _ _ _ H1 H2 H3 H4);
    [reflexivity|].
  intros r Hq. unfold total_scope.
  destruct (t_year r =? y) eqn:Hs; [|reflexivity].
  key_facts. exfalso. apply Hne. congruence.
Qed.

(** The "ON" row of the day counts the "ON" markers of the day. *)
Lemma update_month_on_count day days months y m d r :
  civil day = (y, m, d) ->
  In r (update_month day days months) ->
  mo_year r = y -> mo_month r = m -> mo_day r = d -> mo_status r = On ->
  times_a_day r
  = Z.of_nat (List.length
                (filter (fun x => (day_date x =? day)
                                  && status_eqb (d_status x) On) days)).
Proof.
  intros Hc Hr Hy Hm Hd Hs.
  assert (Hin : In r (filter (fun r => month_scope y m d r
                                       && status_eqb (mo_status r) On)
                             (update_month day days months))).
  { apply filter_In. split; [exact Hr|]. unfold month_scope.
    now rewrite Hy, Hm, Hd, Hs, !Z.eqb_refl. }
  rewrite update_month_level, Hc in Hin.
  destruct (month_level_ok y m d) as (H1 & H2 & H3 & H4).
  rewrite (level_update_in_scope _ _ mo_status _ _ _ _ H1 H2 H3 H4) in Hin.
  rewrite (filter_andb (fun x => day_date x =? day)
                       (fun x => status_eqb (d_status x) On)).
  destruct (filter (fun x => status_eqb (d_status x) On) _) as [|x grp];
    [destruct Hin|].
  destruct Hin as [<-|[]]. reflexivity.
Qed.

(** The roll-up of a day keeps the "ON" rows without measures. *)
Lemma rollup_keeps_on_rows_blank db day :
  on_rows_blank db -> on_rows_blank (update_month_year_total_for_day db day).
Proof.
  intros (Hbm & Hby & Hbt). unfold on_rows_blank; simpl.
  split; [|split].
  - now apply update_month_on_blank.
  - now apply update_year_on_blank.
  - now apply update_total_on_blank.
Qed.

(** The roll-up of a day keeps the levels in agreement for every key. *)
Lemma rollup_keeps_consistency db day :
  on_rows_blank db ->
  rollups_consistent db ->
  rollups_consistent (update_month_year_total_for_day db day).
Proof.
  intros (Hbm & Hby & Hbt) (Hmy & Hyt).
  destruct (civil day) as [[y m] d] eqn:Hc.
  unfold rollups_consistent; simpl.
  set (months := update_month day (day_summary db) (month_summary db)).
  set (years := update_year day months (year_summary db)).
  assert (Hbm' : forall r, In r months -> mo_status r = On ->
                           mo_measures r = blank_measures)
    by now apply update_month_on_blank.
  assert (Hby' : forall r, In r years -> y_status r = On ->
                           y_measures r = blank_measures)
    by now apply update_year_on_blank.
  split.
  - intros y' m' st.
    destruct (Z.eq_dec y' y) as [->|Hy];
      [destruct (Z.eq_dec m' m) as [->|Hm]|].
    + symmetry. now apply update_year_duration with (d := d).
    + unfold years, months.
      rewrite (update_month_elsewhere day _ _ y m d) by congruence.
      rewrite (update_year_elsewhere day _ _ y m d) by congruence.
      apply Hmy.
    + unfold years, months.
      rewrite (update_month_elsewhere day _ _ y m d) by congruence.
      rewrite (update_year_elsewhere day _ _ y m d) by congruence.
      apply Hmy.
  - intros y' st.
    destruct (Z.eq_dec y' y) as [->|Hy].
    + symmetry. now apply update_total_duration with (m := m) (d := d).
    + unfold years.
      rewrite (update_year_other_year day _ _ y m d) by assumption.
      rewrite (update_total_other_year day _ _ y m d) by assumption.
      apply Hyt.
Qed.

(** C7. After the roll-up of a day, for every status the durations of
    the MONTH rows of the day's month add up to the duration of the YEAR
    row of that month, and the durations of the YEAR rows of the day's
    year add up to the duration of the TOTAL row of that year; there is at
    most one YEAR row and one TOTAL row per key. The "ON" rows carry the
    duration 0 and no energy or averaged value, and the "ON" row of the
    day counts the "ON" markers of the day. The agreement of the levels
    for all other months and years is kept. *)
Theorem rollup_consistency db day :
  on_rows_blank db ->
  let db' := update_month_year_total_for_day db day in
  let y := fst (fst (civil day)) in
  let m := snd (fst (civil day)) in
  let d := snd (civil day) in
  (forall st,
     month_duration (month_summary db') y m st
     = year_month_duration (year_summary db') y m st
     /\ (List.length (year_month_rows (year_summary db') y m st) <= 1)%nat)
  /\ (forall st,
        year_duration (year_summary db') y st
        = total_duration (total_summary db') y st
        /\ (List.length (total_rows (total_summary db') y st) <= 1)%nat)
  /\ on_rows_blank db'
  /\ (forall r,
        In r (month_summary db') ->
        mo_year r = y -> mo_month r = m -> mo_day r = d -> mo_status r = On ->
        times_a_day r
        = Z.of_nat (List.length
                      (filter (fun x => (day_date x =? day)
                                        && status_eqb (d_status x) On)
                              (day_summary db))))
  /\ (rollups_consistent db -> rollups_consistent db').
Proof.
  intros Hblank db' y m d.
  pose proof (rollup_keeps_on_rows_blank db day Hblank) as Hblank'.
  fold db' in Hblank'.
  destruct Hblank as (Hbm & Hby & Hbt).
  destruct Hblank' as (Hbm' & Hby' & Hbt').
  assert (Hc : civil day = (y, m, d))
    by (subst y m d; now destruct (civil day) as [[? ?] ?]).
  clearbody y m d.
  split; [|split; [|split; [|split]]].
  - intros st. split.
    + symmetry. now apply update_year_duration with (d := d).
    + now apply update_year_one_row with (d := d).
  - intros st. split.
    + symmetry. now apply update_total_duration with (m := m) (d := d).
    + now apply update_total_one_row with (m := m) (d := d).
  - unfold on_rows_blank. auto.
  - intros r Hr Hy Hm Hd Hs.
    now apply update_month_on_count
      with (y := y) (m := m) (d := d) (months := month_summary db).
  - apply rollup_keeps_consistency. unfold on_rows_blank. auto.
Qed.

(** ** What every run keeps *)

(** Once a sample has been written, the status stored last is known. *)
Lemma run_body_stored_status e d ts now_t :
  (first_saved e = true -> last_status_stored e <> None) ->
  let e' := fst (run_body e d ts now_t) in
  first_saved e' = true -> last_status_stored e' <> None.
Proof.
  intros He. unfold run_body.
  destruct (snapshot_empty d); [exact He|].
  destruct (negb (local_date ts =? current_day_local e));
    destruct (negb (first_saved e)) eqn:Hf; simpl;
    match goal with
    | |- context [should_write ?a ?b ?c] => destruct (should_write a b c)
    end; simpl;
    try (apply negb_false_iff in Hf; intros _; now apply He);
    try (apply negb_true_iff in Hf; congruence);
    match goal with
    | |- context [bridge_sample ?a ?b ?c] =>
        destruct (bridge_sample a b c) as [[[d0 s0] t0]|]
    end; simpl;
    try match goal with
    | |- context [find_pending_offline ?a ?b] =>
        destruct (find_pending_offline a b) as [[off_start off_end]|]
    end; simpl;
    repeat match goal with
    | |- context [if ?x then _ else _] => destruct x
    end; simpl; discriminate.
Qed.

(** Before the first write no status is stored. *)
Lemma run_body_fresh_status e d ts now_t :
  (first_saved e = false -> last_status_stored e = None) ->
  let e' := fst (run_body e d ts now_t) in
  first_saved e' = false -> last_status_stored e' = None.
Proof.
  intros He. unfold run_body.
  destruct (snapshot_empty d); [exact He|].
  destruct (negb (local_date ts =? current_day_local e));
    destruct (first_saved e) eqn:Hf; simpl;
    unfold should_write; rewrite Hf; simpl;
    try match goal with
    | |- context [if ?c then true else ?x] =>
        destruct c; simpl; try destruct x; simpl
    end;
    try (intros; discriminate);
    try match goal with
    | |- context [bridge_sample ?a ?b ?c] =>
        destruct (bridge_sample a b c) as [[[d0 s0] t0]|]
    end; simpl;
    try match goal with
    | |- context [find_pending_offline ?a ?b] =>
        destruct (find_pending_offline a b) as [[off_start off_end]|]
    end; simpl;
    repeat match goal with
    | |- context [if ?x then _ else _] => destruct x
    end; simpl; discriminate.
Qed.

Lemma fold_rebuild_day_preserves (P : DB -> Prop) segs :
  (forall db day, P db -> P (rebuild_day segs db day)) ->
  forall days db, P db -> P (fold_left (rebuild_day segs) days db).
Proof.
  intros Hr. induction days as [|day days IH]; intros db Hdb; simpl; auto.
Qed.

(** A property of the database that inserting a sample and rebuilding a
    day keep is kept by an iteration of the loop. *)
Lemma run_body_preserves (P : DB -> Prop) e d ts now_t :
  (forall db d st ts, P db -> P (insert_sample db d st ts)) ->
  (forall segs db day, P db -> P (rebuild_day segs db day)) ->
  P (conn e) -> P (conn (fst (run_body e d ts now_t))).
Proof.
  intros Hins Hreb He. unfold run_body.
  destruct (snapshot_empty d); [exact He|].
  destruct (negb (local_date ts =? current_day_local e));
    destruct (negb (first_saved e)); simpl;
    match goal with
    | |- context [should_write ?a ?b ?c] => destruct (should_write a b c)
    end; simpl; auto;
    match goal with
    | |- context [bridge_sample ?a ?b ?c] =>
        destruct (bridge_sample a b c) as [[[d0 s0] t0]|]
    end; simpl;
    try match goal with
    | |- context [find_pending_offline ?a ?b] =>
        destruct (find_pending_offline a b) as [[off_start off_end]|]
    end; simpl;
    repeat match goal with
    | |- context [if ?x then _ else _] => destruct x
    end; simpl;
    repeat first [ apply Hreb
                 | apply fold_rebuild_day_preserves; [intros; now apply Hreb|]
                 | apply Hins ];
    exact He.
Qed.

Lemma run_preserves (P : DB -> Prop) :
  (forall db d st ts, P db -> P (insert_sample db d st ts)) ->
  (forall segs db day, P db -> P (rebuild_day segs db day)) ->
  forall ticks e, P (conn e) -> P (conn (fst (run e ticks))).
Proof.
  intros Hins Hreb.
  induction ticks as [|[[d ts] t] ticks IH]; intros e He; simpl; [exact He|].
  pose proof (run_body_preserves P e d ts t Hins Hreb He) as H1.
  destruct (run_body e d ts t) as [e1 w1]; simpl in H1.
  specialize (IH e1 H1). now destruct (run e1 ticks).
Qed.

(** Every run of the loop keeps the roll-up tables in agreement, with
    "ON" rows that carry no measure; the empty database is so. *)
Lemma run_keeps_rollups ticks e :
  on_rows_blank (conn e) /\ rollups_consistent (conn e) ->
  on_rows_blank (conn (fst (run e ticks)))
  /\ rollups_consistent (conn (fst (run e ticks))).
Proof.
  apply (run_preserves (fun db => on_rows_blank db /\ rollups_consistent db)).
  - intros db d st ts H. exact H.
  - intros segs db day [Hb Hc]. split.
    + now apply rollup_keeps_on_rows_blank.
    + now apply rollup_keeps_consistency.
Qed.

Lemma empty_db_rollups : on_rows_blank empty_db /\ rollups_consistent empty_db.
Proof.
  split; [repeat split; intros r [] | split; reflexivity].
Qed.

(** ** The roll-ups of the days of the gap *)

Lemma int_or_0_id z : int_or_0 z = z.
Proof. unfold int_or_0. destruct (Z.eqb_spec z 0); congruence. Qed.













(** ** Register words *)

Lemma land_low_word x : Z.land x 0xFFFF = x mod 65536.
Proof. change 0xFFFF with (Z.ones 16). now rewrite Z.land_ones. Qed.

Lemma lor_words h l :
  0 <= h -> 0 <= l < 65536 ->
  Z.lor (Z.shiftl h 16) l = h * 65536 + l.
Proof.
  intros Hh Hl.
  set (x := Z.lor (Z.shiftl h 16) l).
  assert (Hlow : x mod 65536 = l).
  { change 65536 with (2 ^ 16). rewrite <- Z.land_ones by lia.
    unfold x. rewrite Z.land_lor_distr_l.
    rewrite !Z.land_ones by lia.
    rewrite Z.shiftl_mul_pow2 by lia.
    rewrite Z.mod_mul by lia. rewrite Z.lor_0_l.
    apply Z.mod_small. exact Hl. }
  assert (Hhigh : x / 65536 = h).
  { change 65536 with (2 ^ 16). rewrite <- Z.shiftr_div_pow2 by lia.
    unfold x. rewrite Z.shiftr_lor.
    rewrite Z.shiftr_shiftl_l by lia. simpl (16 - 16).
    rewrite Z.shiftl_0_r.
    rewrite (Z.shiftr_div_pow2 l) by lia.
    rewrite (Z.div_small l) by exact Hl. apply Z.lor_0_r. }
  rewrite (Z_div_mod_eq_full x 65536), Hlow, Hhigh. lia.
Qed.

Lemma u32_value hi lo : u32 hi lo = (hi mod 65536) * 65536 + lo mod 65536.
Proof.
  unfold u32. rewrite !land_low_word.
  pose proof (Z.mod_pos_bound hi 65536). pose proof (Z.mod_pos_bound lo 65536).
  apply lor_words; lia.
Qed.

(** X1. [u32] reads only the low 16 bits of its arguments and always
    gives an unsigned 32-bit value; on two 16-bit words it is
    [hi * 65536 + lo], from which both words are recovered. *)
Theorem u32_words hi lo :
  u32 hi lo = u32 (hi mod 65536) (lo mod 65536)
  /\ 0 <= u32 hi lo < 2 ^ 32
  /\ (0 <= hi < 65536 -> 0 <= lo < 65536 ->
      u32 hi lo = hi * 65536 + lo
      /\ Z.shiftr (u32 hi lo) 16 = hi
      /\ Z.land (u32 hi lo) 0xFFFF = lo).
Proof.
  pose proof (Z.mod_pos_bound hi 65536 eq_refl) as Hh.
  pose proof (Z.mod_pos_bound lo 65536 eq_refl) as Hl.
  split; [|split].
  - rewrite !u32_value, !Z.mod_mod by lia. reflexivity.
  - rewrite u32_value. change (2 ^ 32) with 4294967296. lia.
  - intros Hhi Hlo. rewrite u32_value, !Z.mod_small by lia.
    split; [reflexivity|]. split.
    + rewrite Z.shiftr_div_pow2 by lia. change (2 ^ 16) with 65536.
      rewrite Z.div_add_l by lia. rewrite Z.div_small by lia. lia.
    + rewrite land_low_word.
      rewrite Z.add_comm, Z.mod_add by lia. now apply Z.mod_small.
Qed.

Lemma sign_bit v :
  0 <= v < 65536 -> (Z.land v 0x8000 =? 0) = (v <? 32768).
Proof.
  intros Hv.
  assert (Hbit : Z.land v 0x8000 = if Z.testbit v 15 then 0x8000 else 0).
  { apply Z.bits_inj'. intros n Hn. rewrite Z.land_spec.
    change 0x8000 with (2 ^ 15). rewrite Z.pow2_bits_eqb by lia.
    destruct (Z.eqb_spec 15 n) as [<-|Hne].
    - rewrite andb_true_r.
      destruct (Z.testbit v 15); [|now rewrite Z.bits_0].
      now rewrite Z.pow2_bits_true by lia.
    - rewrite andb_false_r.
      destruct (Z.testbit v 15); [|now rewrite Z.bits_0].
      now rewrite Z.pow2_bits_false by lia. }
  rewrite Hbit.
  assert (Ht : Z.testbit v 15 = negb (v <? 32768)).
  { rewrite Z.testbit_odd, Z.shiftr_div_pow2 by lia.
    change (2 ^ 15) with 32768.
    destruct (Z.ltb_spec v 32768) as [Hlt|Hge]; simpl.
    - now rewrite Z.div_small by lia.
    - replace (v / 32768) with 1; [reflexivity|].
      apply Z.div_unique with (r := v - 32768); lia. }
  rewrite Ht. now destruct (v <? 32768).
Qed.

(** X2. On a 16-bit word [i16] is the two's-complement reading: the
    result lies in [-32768, 32768), agrees with the word modulo 65536, is
    the word itself below 32768 and the word minus 65536 from there on;
    every value of that range is the reading of its own low word. *)
Theorem i16_twos_complement :
  (forall v, 0 <= v < 65536 ->
     -32768 <= i16 v < 32768
     /\ (i16 v) mod 65536 = v
     /\ (v < 32768 -> i16 v = v)
     /\ (32768 <= v -> i16 v = v - 65536))
  /\ (forall x, -32768 <= x < 32768 -> i16 (x mod 65536) = x).
Proof.
  assert (H : forall v, 0 <= v < 65536 ->
                        i16 v = if v <? 32768 then v else v - 65536).
  { intros v Hv. unfold i16. now rewrite sign_bit. }
  split.
  - intros v Hv. rewrite (H v Hv).
    destruct (Z.ltb_spec v 32768) as [Hlt|Hge].
    + repeat split; try lia. now apply Z.mod_small.
    + repeat split; try lia.
      replace (v - 65536) with (v + (-1) * 65536) by lia.
      rewrite Z.mod_add by lia. now apply Z.mod_small.
  - intros x Hx.
    pose proof (Z.mod_pos_bound x 65536 eq_refl) as Hm.
    rewrite (H _ Hm).
    destruct (Z_lt_ge_dec x 0) as [Hneg|Hpos].
    + assert (Hmod : x mod 65536 = x + 65536).
      { symmetry. apply Z.mod_unique with (q := -1); lia. }
      rewrite Hmod.
      destruct (Z.ltb_spec (x + 65536) 32768); lia.
    + rewrite Z.mod_small by lia.
      destruct (Z.ltb_spec x 32768); lia.
Qed.

(** ** The shared store *)

Lemma In_present_updated {A} k n (p s : option A) :
  In k (present n (updated p s)) <-> In k (present n p) \/ In k (present n s).
Proof. destruct p, s; simpl; tauto. Qed.

Lemma keys_update store partial k :
  In k (keys (DataStore_update store partial))
  <-> In k (keys store) \/ In k (keys partial).
Proof.
  unfold keys, DataStore_update. cbn [List.concat em_activepower em_total_fwd
    hm_activepower hm_positive_kwh hm_negative_kwh hm_temp_IN hm_temp_OUT
    hm_temp_diff hm_activeflow_m3h hm_flow_m3h hm_totalflow hm_fault_code
    hm_work_h ts_ambient_temp ts_ambient_humidity last_ts_utc_s status].
  rewrite !in_app_iff, !In_present_updated. simpl (In k []). tauto.
Qed.

Lemma updated_assoc {A} (q p s : option A) :
  updated q (updated p s) = updated (updated q p) s.
Proof. now destruct q. Qed.

Lemma updated_none {A} (s : option A) : updated None s = s.
Proof. reflexivity. Qed.

Lemma updated_twice {A} (p s : option A) : updated p (updated p s) = updated p s.
Proof. now destruct p. Qed.

Lemma DataStore_update_assoc store p q :
  DataStore_update (DataStore_update store p) q
  = DataStore_update store (DataStore_update p q).
Proof.
  unfold DataStore_update; simpl. now rewrite !updated_assoc.
Qed.

Lemma DataStore_update_no_keys store : DataStore_update store no_keys = store.
Proof. now destruct store. Qed.

Lemma keys_empty d : snapshot_empty d = true <-> keys d = [].
Proof.
  unfold snapshot_empty, keys.
  rewrite !andb_true_iff.
  destruct d as [f1 f2 f3 f4 f5 f6 f7 f8 f9 f10 f11 f12 f13 f14 f15 f16 f17];
    cbn [List.concat em_activepower em_total_fwd
    hm_activepower hm_positive_kwh hm_negative_kwh hm_temp_IN hm_temp_OUT
    hm_temp_diff hm_activeflow_m3h hm_flow_m3h hm_totalflow hm_fault_code
    hm_work_h ts_ambient_temp ts_ambient_humidity last_ts_utc_s status].
  split.
  - intros H. decompose [and] H. clear H.
    repeat match goal with
           | H : is_none ?f = true |- _ => destruct f; [discriminate|clear H]
           end.
    reflexivity.
  - intros H.
    repeat match goal with
           | H : present _ ?f ++ _ = [] |- _ =>
               destruct f; [discriminate|simpl in H]
           end.
    tauto.
Qed.

(** X3. [DataStore.update] merges: the keys afterwards are those of the
    store together with those of the update, so no key is ever deleted;
    an update without keys changes nothing; two updates in a row are the
    update by their merge, and repeating an update changes nothing more;
    the store is empty afterwards only if both were. *)
Theorem DataStore_update_merges store partial :
  (forall k, In k (keys (DataStore_update store partial))
             <-> In k (keys store) \/ In k (keys partial))
  /\ DataStore_update store no_keys = store
  /\ (forall next,
        DataStore_update (DataStore_update store partial) next
        = DataStore_update store (DataStore_update partial next))
  /\ DataStore_update (DataStore_update store partial) partial
     = DataStore_update store partial
  /\ snapshot_empty (DataStore_update store partial)
     = snapshot_empty store && snapshot_empty partial.
Proof.
  split; [intros k; apply keys_update|].
  split; [apply DataStore_update_no_keys|].
  split; [intros next; apply DataStore_update_assoc|].
  split.
  - unfold DataStore_update; simpl. now rewrite !updated_twice.
  - apply eq_true_iff_eq. rewrite andb_true_iff, !keys_empty.
    split.
    + intros H. split.
      * destruct (keys store) as [|k l] eqn:Hk; [reflexivity|].
        assert (Hin : In k (keys (DataStore_update store partial)))
          by (apply keys_update; left; rewrite Hk; now left).
        rewrite H in Hin. destruct Hin.
      * destruct (keys partial) as [|k l] eqn:Hk; [reflexivity|].
        assert (Hin : In k (keys (DataStore_update store partial)))
          by (apply keys_update; right; rewrite Hk; now left).
        rewrite H in Hin. destruct Hin.
    + intros [Hs Hp].
      destruct (keys (DataStore_update store partial)) as [|k l] eqn:Hk;
        [reflexivity|].
      assert (Hin : In k (keys store) \/ In k (keys partial))
        by (apply keys_update; rewrite Hk; now left).
      rewrite Hs, Hp in Hin. destruct Hin as [[]|[]].
Qed.

(** ** The pollers *)

Lemma updated_none_r {A} (x : option A) : updated x None = x.
Proof. now destruct x. Qed.

(** One read is one update, by nothing if the read failed. *)
Lemma read_words2_eq regs store partial :
  read_words2 regs store partial
  = if response_ok 2 regs
    then Some (DataStore_update store
                 (match regs with
                  | Some (r0 :: r1 :: _) => partial r0 r1
                  | _ => no_keys
                  end))
    else None.
Proof.
  destruct regs as [[|r0 [|r1 l]]|]; simpl;
    rewrite ?DataStore_update_no_keys; reflexivity.
Qed.

Lemma read_words1_eq regs store partial :
  read_words1 regs store partial
  = if response_ok 1 regs
    then Some (DataStore_update store
                 (match regs with
                  | Some (r0 :: _) => partial r0
                  | _ => no_keys
                  end))
    else None.
Proof.
  destruct regs as [[|r0 l]|]; simpl;
    rewrite ?DataStore_update_no_keys; reflexivity.
Qed.

Lemma BusReader_cycle_eq regs_p regs_e th store :
  BusReader_cycle regs_p regs_e th store
  = if response_ok 2 regs_p && response_ok 2 regs_e && response_ok 2 th
    then Some (DataStore_update store (bus_cycle_partial regs_p regs_e th))
    else None.
Proof.
  unfold BusReader_cycle. rewrite (read_words2_eq regs_p).
  destruct (response_ok 2 regs_p); [|reflexivity]. cbn [and_then andb].
  rewrite (read_words2_eq regs_e).
  destruct (response_ok 2 regs_e); [|reflexivity]. cbn [and_then andb].
  rewrite (read_words2_eq th).
  destruct (response_ok 2 th); [|reflexivity].
  rewrite !DataStore_update_assoc. do 2 f_equal.
  unfold bus_cycle_partial.
  destruct regs_p as [[|p0 [|p1 lp]]|], regs_e as [[|e0 [|e1 le]]|],
    th as [[|t0 [|t1 lt]]|]; reflexivity.
Qed.

Lemma heat_partial2 regs (g : Z -> Z -> option float)
      (place : option float -> Snapshot) :
  place None = no_keys ->
  match regs with
  | Some (r0 :: r1 :: _) => place (g r0 r1)
  | _ => no_keys
  end = place (words2 regs g).
Proof. intros H. destruct regs as [[|r0 [|r1 l]]|]; simpl; congruence. Qed.

Lemma heat_partial1 regs (place : option Z -> Snapshot) :
  place None = no_keys ->
  match regs with
  | Some (r0 :: _) => place (Some r0)
  | _ => no_keys
  end = place (words1 regs (fun r0 => Some r0)).
Proof. intros H. destruct regs as [[|r0 l]|]; simpl; congruence. Qed.

Lemma HeatReader_cycle_eq rd store :
  HeatReader_cycle rd store
  = if heat_reads_ok rd
    then Some (DataStore_update store (heat_cycle_partial rd))
    else None.
Proof.
  unfold HeatReader_cycle, heat_reads_ok. cbv zeta.
  repeat (rewrite read_words2_eq;
          match goal with
          | |- context [response_ok 2 ?r] =>
              destruct (response_ok 2 r); [|reflexivity]
          end; cbn [and_then andb]).
  repeat (rewrite read_words1_eq;
          match goal with
          | |- context [response_ok 1 ?r] =>
              destruct (response_ok 1 r); [|reflexivity]
          end; cbn [and_then andb]).
  rewrite !DataStore_update_assoc. do 2 f_equal.
  rewrite (heat_partial2 (rd_positive rd) (scaled_u32 100)
             (fun v => heat_keys None v None None None None None None None
                                 None None)) by reflexivity.
  rewrite (heat_partial2 (rd_negative rd) (scaled_u32 100)
             (fun v => heat_keys None None v None None None None None None
                                 None None)) by reflexivity.
  rewrite (heat_partial2 (rd_temp_in rd) (scaled_u32 100)
             (fun v => heat_keys None None None v None None None None None
                                 None None)) by reflexivity.
  rewrite (heat_partial2 (rd_temp_out rd) (scaled_u32 100)
             (fun v => heat_keys None None None None v None None None None
                                 None None)) by reflexivity.
  rewrite (heat_partial2 (rd_temp_diff rd) (scaled_u32 100)
             (fun v => heat_keys None None None None None v None None None
                                 None None)) by reflexivity.
  rewrite (heat_partial2 (rd_totalflow rd) (scaled_u32 100)
             (fun v => heat_keys None None None None None None None None v
                                 None None)) by reflexivity.
  rewrite (heat_partial2 (rd_flow rd) (scaled_u32 10000)
             (fun v => heat_keys None None None None None None v v None
                                 None None)) by reflexivity.
  rewrite (heat_partial2 (rd_power rd) (scaled_u32 100)
             (fun v => heat_keys v None None None None None None None None
                                 None None)) by reflexivity.
  rewrite (heat_partial1 (rd_fault rd)
             (fun v => heat_keys None None None None None None None None None
                                 v None)) by reflexivity.
  rewrite (heat_partial1 (rd_work_h rd)
             (fun v => heat_keys None None None None None None None None None
                                 None v)) by reflexivity.
  unfold heat_cycle_partial.
  cbv [DataStore_update heat_keys em_activepower em_total_fwd
    hm_activepower hm_positive_kwh hm_negative_kwh hm_temp_IN hm_temp_OUT
    hm_temp_diff hm_activeflow_m3h hm_flow_m3h hm_totalflow hm_fault_code
    hm_work_h ts_ambient_temp ts_ambient_humidity last_ts_utc_s status].
  cbn [updated]. now rewrite ?updated_none_r.
Qed.

(** X4. A poller cycle that does not raise is one update of the store,
    by the values decoded from the reads that succeeded: a read that
    failed or came back empty leaves its keys as they were and does not
    stop the reads after it, and no key is deleted. The cycle raises
    (an [IndexError] that nothing catches) exactly when a response that is
    not empty has fewer words than the cycle indexes. *)
Theorem poller_cycle_is_one_update :
  (forall regs_p regs_e th store,
     BusReader_cycle regs_p regs_e th store
     = if response_ok 2 regs_p && response_ok 2 regs_e && response_ok 2 th
       then Some (DataStore_update store (bus_cycle_partial regs_p regs_e th))
       else None)
  /\ (forall rd store,
        HeatReader_cycle rd store
        = if heat_reads_ok rd
          then Some (DataStore_update store (heat_cycle_partial rd))
          else None)
  /\ (forall store,
        BusReader_cycle None None None store = Some store
        /\ HeatReader_cycle no_heat_reads store = Some store)
  /\ (forall regs_e th store store',
        BusReader_cycle None regs_e th store = Some store' ->
        em_activepower store' = em_activepower store)
  /\ (forall regs_p regs_e store store',
        BusReader_cycle regs_p regs_e (Some []) store = Some store' ->
        ts_ambient_temp store' = ts_ambient_temp store
        /\ ts_ambient_humidity store' = ts_ambient_humidity store)
  /\ (forall regs_p regs_e th store store' k,
        BusReader_cycle regs_p regs_e th store = Some store' ->
        In k (keys store) -> In k (keys store'))
  /\ (forall rd store store' k,
        HeatReader_cycle rd store = Some store' ->
        In k (keys store) -> In k (keys store')).
Proof.
  split; [exact BusReader_cycle_eq|].
  split; [exact HeatReader_cycle_eq|].
  split.
  { intros store. rewrite BusReader_cycle_eq, HeatReader_cycle_eq. simpl.
    split; f_equal; apply DataStore_update_no_keys. }
  split.
  { intros regs_e th store store'. rewrite BusReader_cycle_eq.
    destruct (_ && _); [|discriminate]. now intros [= <-]. }
  split.
  { intros regs_p regs_e store store'. rewrite BusReader_cycle_eq.
    destruct (_ && _); [|discriminate]. now intros [= <-]. }
  split.
  - intros regs_p regs_e th store store' k. rewrite BusReader_cycle_eq.
    destruct (_ && _); [|discriminate]. intros [= <-] Hk.
    apply keys_update. now left.
  - intros rd store store' k. rewrite HeatReader_cycle_eq.
    destruct (heat_reads_ok rd); [|discriminate]. intros [= <-] Hk.
    apply keys_update. now left.
Qed.

Lemma bus_heat_partials_commute a b c d h1 h2 h3 h4 h5 h6 h7 h8 h9 h10 h11 :
  DataStore_update (bus_keys a b c d)
                   (heat_keys h1 h2 h3 h4 h5 h6 h7 h8 h9 h10 h11)
  = DataStore_update (heat_keys h1 h2 h3 h4 h5 h6 h7 h8 h9 h10 h11)
                     (bus_keys a b c d).
Proof.
  unfold DataStore_update, bus_keys, heat_keys; simpl.
  now rewrite !updated_none_r.
Qed.

(** X5. The two pollers write disjoint sets of keys, and neither writes
    the two keys that [insert_sample] writes back; hence a cycle of one
    and a cycle of the other give the same store in either order, also in
    whether they raise. *)
Theorem pollers_commute :
  (forall regs_p regs_e th k,
     In k (keys (bus_cycle_partial regs_p regs_e th)) ->
     In k ["em_activepower"; "em_total_fwd"; "ts_ambient_temp";
           "ts_ambient_humidity"]%string)
  /\ (forall rd k,
        In k (keys (heat_cycle_partial rd)) ->
        In k ["hm_activepower"; "hm_positive_kwh"; "hm_negative_kwh";
              "hm_temp_IN"; "hm_temp_OUT"; "hm_temp_diff";
              "hm_activeflow_m3h"; "hm_flow_m3h"; "hm_totalflow";
              "hm_fault_code"; "hm_work_h"]%string)
  /\ (forall regs_p regs_e th rd,
        poller_update (bus_cycle_partial regs_p regs_e th)
        /\ poller_update (heat_cycle_partial rd))
  /\ (forall regs_p regs_e th rd store,
        and_then (BusReader_cycle regs_p regs_e th store) (HeatReader_cycle rd)
        = and_then (HeatReader_cycle rd store)
                   (BusReader_cycle regs_p regs_e th)).
Proof.
  split; [|split; [|split; [intros; split; split; reflexivity|]]].
  - intros regs_p regs_e th k. unfold bus_cycle_partial, bus_keys, keys.
    cbn [List.concat em_activepower em_total_fwd
      hm_activepower hm_positive_kwh hm_negative_kwh hm_temp_IN hm_temp_OUT
      hm_temp_diff hm_activeflow_m3h hm_flow_m3h hm_totalflow hm_fault_code
      hm_work_h ts_ambient_temp ts_ambient_humidity last_ts_utc_s status
      present app].
    rewrite !in_app_iff.
    assert (H : forall A n (v : option A), In k (present n v) -> k = n)
      by (intros A n [v|]; simpl; intuition congruence).
    intros Hk. simpl.
    repeat match goal with
           | Hk : _ \/ _ |- _ => destruct Hk as [Hk|Hk]
           end;
      try (apply H in Hk; subst k; tauto); destruct Hk.
  - intros rd k. unfold heat_cycle_partial, heat_keys, keys.
    cbn [List.concat em_activepower em_total_fwd
      hm_activepower hm_positive_kwh hm_negative_kwh hm_temp_IN hm_temp_OUT
      hm_temp_diff hm_activeflow_m3h hm_flow_m3h hm_totalflow hm_fault_code
      hm_work_h ts_ambient_temp ts_ambient_humidity last_ts_utc_s status
      present app].
    rewrite !in_app_iff.
    assert (H : forall A n (v : option A), In k (present n v) -> k = n)
      by (intros A n [v|]; simpl; intuition congruence).
    intros Hk. simpl.
    repeat match goal with
           | Hk : _ \/ _ |- _ => destruct Hk as [Hk|Hk]
           end;
      try (apply H in Hk; subst k; tauto); destruct Hk.
  - intros regs_p regs_e th rd store.
    rewrite (BusReader_cycle_eq regs_p regs_e th store),
      (HeatReader_cycle_eq rd store).
    destruct (response_ok 2 regs_p && response_ok 2 regs_e
              && response_ok 2 th) eqn:Hb;
      destruct (heat_reads_ok rd) eqn:Hh; cbn [and_then];
      rewrite ?BusReader_cycle_eq, ?HeatReader_cycle_eq, ?Hb, ?Hh;
      try reflexivity.
    all: rewrite !DataStore_update_assoc; do 2 f_equal;
      apply bus_heat_partials_commute.
Qed.

(** ** The classifier as a state machine *)

Lemma classifier_allowed prev d :
  mode_or_none prev ->
  allowed_status (compute_logical_status prev d) = true.
Proof.
  intros Hprev.
  assert (Hl : allowed_status (last_or_S prev) = true)
    by (destruct prev; [exact Hprev | reflexivity]).
  unfold compute_logical_status.
  repeat match goal with
         | |- context [if ?c then _ else _] => destruct c
         | |- context [match ?x with Some _ => _ | None => _ end] =>
             destruct x
         end; auto.
Qed.

Lemma classifier_stable prev d :
  compute_logical_status (Some (compute_logical_status prev d)) d
  = compute_logical_status prev d.
Proof.
  unfold compute_logical_status.
  repeat match goal with
         | |- context [if ?c then _ else _] => destruct c
         | |- context [match ?x with Some _ => _ | None => _ end] =>
             destruct x
         end; reflexivity.
Qed.

(** X6. The classifier never leaves the four operating modes: from no
    previous mode or from one of the four it answers one of the four,
    never "ON" or "OFF". Its answer is stable: classifying the same
    snapshot again, with the answer as the previous mode, gives the
    answer again. *)
Theorem classifier_holds_mode :
  (forall prev d,
     mode_or_none prev ->
     allowed_status (compute_logical_status prev d) = true)
  /\ (forall prev d,
        compute_logical_status (Some (compute_logical_status prev d)) d
        = compute_logical_status prev d).
Proof. split; [exact classifier_allowed | exact classifier_stable]. Qed.

(** ** The rows that a run writes *)

(** The state after an iteration that writes. *)
Lemma run_body_write_state e d ts now_t :
  snapshot_empty d = false ->
  should_write e (status_to_store e d) now_t = true ->
  let e' := fst (run_body e d ts now_t) in
  first_saved e' = true
  /\ last_status_stored e' = Some (status_to_store e d)
  /\ last_logical_status e'
     = Some (compute_logical_status (last_logical_status e) d)
  /\ last_save_time e' = now_t
  /\ last_read_data e' = Some d
  /\ last_read_ts_utc_s e' = Some ts.
Proof.
  unfold run_body, status_to_store. intros -> Hw.
  destruct (negb (local_date ts =? current_day_local e));
    destruct (negb (first_saved e)); rewrite Hw; simpl;
    match goal with
    | |- context [bridge_sample ?a ?b ?c] =>
        destruct (bridge_sample a b c) as [[[d0 s0] t0]|]
    end; simpl;
    try match goal with
    | |- context [find_pending_offline ?a ?b] =>
        destruct (find_pending_offline a b) as [[off_start off_end]|]
    end; simpl;
    repeat match goal with
    | |- context [if ?x then _ else _] => destruct x
    end; simpl; auto 10.
Qed.

(** What one iteration does to the write state, in the three cases: no
    snapshot, no write, write. *)
Lemma run_body_cases e d ts now_t :
  let e' := fst (run_body e d ts now_t) in
  let w := snd (run_body e d ts now_t) in
  (w = [] /\ e' = e)
  \/ (w = []
      /\ snapshot_empty d = false
      /\ first_saved e' = first_saved e
      /\ last_status_stored e' = last_status_stored e
      /\ last_logical_status e'
         = Some (compute_logical_status (last_logical_status e) d)
      /\ last_read_ts_utc_s e' = Some ts)
  \/ (snapshot_empty d = false
      /\ w = match bridge_sample e (status_to_store e d) now_t with
             | Some (d0, s0, t0) =>
                 [sample_row d0 s0 t0; sample_row d (status_to_store e d) ts]
             | None => [sample_row d (status_to_store e d) ts]
             end
      /\ first_saved e' = true
      /\ last_status_stored e' = Some (status_to_store e d)
      /\ last_logical_status e'
         = Some (compute_logical_status (last_logical_status e) d)
      /\ last_read_ts_utc_s e' = Some ts).
Proof.
  destruct (snapshot_empty d) eqn:Hne.
  - left. unfold run_body. rewrite Hne. auto.
  - destruct (should_write e (status_to_store e d) now_t) eqn:Hw.
    + right; right.
      pose proof (run_body_written e d ts now_t Hne Hw) as Hwr.
      pose proof (run_body_write_state e d ts now_t Hne Hw) as Hst.
      cbv zeta in *. tauto.
    + right; left. rewrite (run_body_skip e d ts now_t Hne Hw). simpl.
      repeat split; reflexivity.
Qed.

Lemma bridge_sample_standby e st now_t d0 s0 t0 :
  bridge_sample e st now_t = Some (d0, s0, t0) ->
  first_saved e = true /\ s0 = Standby /\ last_read_ts_utc_s e = Some t0.
Proof. intros H. apply bridge_sample_iff in H. tauto. Qed.

Lemma run_rows ticks : forall e,
  mode_or_none (last_logical_status e) ->
  let w := snd (run e ticks) in
  (first_saved e = true ->
   Forall (fun r => allowed_status (s_status r) = true) w)
  /\ (first_saved e = false ->
      w = []
      \/ exists r rest,
           w = r :: rest /\ s_status r = On
           /\ Forall (fun r => allowed_status (s_status r) = true) rest).
Proof.
  induction ticks as [|[[d ts] t] ticks IH]; intros e Hmode; simpl.
  - split; [constructor | now left].
  - pose proof (run_body_cases e d ts t) as Hcases. cbv zeta in Hcases.
    destruct (run_body e d ts t) as [e1 w1]; simpl in Hcases.
    assert (Hcl : allowed_status
                    (compute_logical_status (last_logical_status e) d) = true)
      by now apply classifier_allowed.
    destruct Hcases as [[-> ->]|[(-> & _ & Hf & _ & Hl & _)|
                                 (_ & -> & Hf & _ & Hl & _)]].
    + specialize (IH e Hmode). destruct (run e ticks) as [e2 w2]. exact IH.
    + assert (Hmode1 : mode_or_none (last_logical_status e1))
        by (rewrite Hl; exact Hcl).
      specialize (IH e1 Hmode1). rewrite Hf in IH.
      destruct (run e1 ticks) as [e2 w2]. exact IH.
    + assert (Hmode1 : mode_or_none (last_logical_status e1))
        by (rewrite Hl; exact Hcl).
      specialize (IH e1 Hmode1). destruct IH as [IH _].
      specialize (IH Hf).
      destruct (run e1 ticks) as [e2 w2]; simpl in *.
      unfold status_to_store. split; intros Hfe; rewrite Hfe; simpl.
      * destruct (bridge_sample e _ t) as [[[d0 s0] t0]|] eqn:Hb.
        -- apply bridge_sample_standby in Hb. destruct Hb as (_ & -> & _).
           simpl. repeat constructor; assumption.
        -- simpl. constructor; assumption.
      * right.
        destruct (bridge_sample e On t) as [[[d0 s0] t0]|] eqn:Hb.
        -- apply bridge_sample_standby in Hb. destruct Hb as (Hb & _).
           congruence.
        -- simpl. eauto.
Qed.

(** X7. A process run writes "ON" once and first: the rows written from
    the initial state are none, or one "ON" row followed only by rows of
    the four operating modes; "OFF" is never written as a sample. *)
Theorem one_on_row_per_run today db ticks :
  let w := snd (run (init_engine today db) ticks) in
  w = []
  \/ exists r rest,
       w = r :: rest
       /\ s_status r = On
       /\ Forall (fun r => allowed_status (s_status r) = true) rest.
Proof.
  intros w.
  destruct (run_rows ticks (init_engine today db) I) as [_ H].
  now apply H.
Qed.

(** X8. The sample table keeps its primary key through every run: if
    its rows are in strictly increasing order of [ts_utc_s], they still
    are afterwards, so no two rows share a timestamp. *)
Theorem run_keeps_samples_sorted ticks e :
  samples_sorted (hp_samples (conn e)) ->
  samples_sorted (hp_samples (conn (fst (run e ticks))))
  /\ NoDup (map s_ts_utc_s (hp_samples (conn (fst (run e ticks))))).
Proof.
  intros Hs.
  assert (H : samples_sorted (hp_samples (conn (fst (run e ticks))))).
  { apply (run_preserves (fun db => samples_sorted (hp_samples db)));
      [| |exact Hs].
    - intros db d st ts H. simpl. now apply samples_insert_sorted.
    - intros segs db day H. exact H. }
  split; [exact H | now apply sorted_samples_NoDup].
Qed.

(** ** Insert and look up in the sample table *)

(** X9. [insert_sample] is an upsert on the timestamp: afterwards the
    row found under the timestamp is the new row, the row found under any
    other timestamp is the one found before, inserting the same sample
    again changes nothing, and the four summary tables are not touched. *)
Theorem insert_sample_upsert db d st ts :
  let db' := insert_sample db d st ts in
  sample_at ts (hp_samples db') = Some (sample_row d st ts)
  /\ (forall k, k <> ts -> sample_at k (hp_samples db') = sample_at k (hp_samples db))
  /\ insert_sample db' d st ts = db'
  /\ day_summary db' = day_summary db
  /\ month_summary db' = month_summary db
  /\ year_summary db' = year_summary db
  /\ total_summary db' = total_summary db.
Proof.
  intros db'. subst db'. unfold insert_sample; simpl.
  split; [apply (sample_at_insert_same (sample_row d st ts))|].
  split; [intros k Hk; now apply sample_at_insert_other|].
  split; [|auto]. f_equal. apply samples_insert_twice.
Qed.

(** ** The marker rows of a rebuilt day *)



(** X11. Every "OFF" row of a rebuilt day is an interval of the offline
    dict of that day cut to the day: it lies between the two local
    midnights of the day, has a positive duration equal to its length,
    and carries no energy and no averaged value. *)
Theorem off_rows_clipped segs samples day t x :
  In x (build_day_table segs samples day t) ->
  day_date x = day ->
  d_status x = Off ->
  (exists seg_start seg_end,
     In (seg_start, seg_end) (dict_get day segs)
     /\ start_ts_utc_s x = Z.max seg_start (local_midnight day)
     /\ end_ts_utc_s x = Z.min seg_end (local_midnight (day + 1)))
  /\ local_midnight day <= start_ts_utc_s x
  /\ start_ts_utc_s x < end_ts_utc_s x
  /\ end_ts_utc_s x <= local_midnight (day + 1)
  /\ d_measures x
     = mkMeasures (end_ts_utc_s x - start_ts_utc_s x)
                  None None None None None None None None None None.
Proof.
  intros Hx Hday Hoff.
  apply In_build_day_table_own in Hx; [|assumption].
  apply build_day_table_rows in Hx.
  destruct Hx as [(r & _ & _ & ->)|[(a & b & f & l & Hseg)|
                                     (s & e & Hin & Hlt & ->)]];
    [discriminate | | ].
  - destruct Hseg as (_ & _ & _ & Hal & _ & _ & ->). simpl in Hoff.
    rewrite Hoff in Hal. discriminate.
  - simpl. split; [exists s, e; auto|].
    repeat split; try lia.
Qed.

(** ** The length of the offline intervals *)

Lemma sum_Z_app l1 l2 : sum_Z (l1 ++ l2) = sum_Z l1 + sum_Z l2.
Proof.
  unfold sum_Z. induction l1 as [|x l1 IH]; simpl; [reflexivity|].
  rewrite IH. lia.
Qed.

Lemma offline_total_app s1 s2 :
  offline_total (s1 ++ s2) = offline_total s1 + offline_total s2.
Proof.
  unfold offline_total. now rewrite map_app, concat_app, map_app, sum_Z_app.
Qed.

Lemma offline_total_entry start_ts end_ts day :
  offline_total (offline_entry start_ts end_ts day)
  = Z.max 0 (snd (offline_interval start_ts end_ts day)
             - fst (offline_interval start_ts end_ts day)).
Proof.
  unfold offline_entry.
  destruct (offline_interval start_ts end_ts day) as [s e]; simpl.
  destruct (Z.gtb_spec e s); unfold offline_total; simpl; lia.
Qed.

Lemma offline_total_days start_ts end_ts :
  start_ts < end_ts ->
  forall n d,
    d + Z.of_nat n = local_date end_ts ->
    local_date start_ts <= d ->
    offline_total (flat_map (offline_entry start_ts end_ts)
                            (days_from d (S n)))
    = end_ts - fst (offline_interval start_ts end_ts d).
Proof.
  intros Hlt.
  pose proof (local_date_spec start_ts) as Hs.
  pose proof (local_date_spec end_ts) as He.
  induction n as [|n IH]; intros d Hd Hlo.
  - assert (d = local_date end_ts) as -> by lia.
    simpl. rewrite app_nil_r, offline_total_entry.
    unfold offline_interval; simpl. rewrite Z.eqb_refl.
    destruct (Z.eqb_spec (local_date end_ts) (local_date start_ts)); lia.
  - change (days_from d (S (S n))) with (d :: days_from (d + 1) (S n)).
    cbn [flat_map]. rewrite offline_total_app, offline_total_entry.
    rewrite IH by lia.
    unfold offline_interval; simpl.
    replace (d =? local_date end_ts) with false
      by (symmetry; apply Z.eqb_neq; lia).
    replace (d + 1 =? local_date start_ts) with false
      by (symmetry; apply Z.eqb_neq; lia).
    pose proof (midnight_increasing d).
    destruct (Z.eqb_spec d (local_date start_ts)) as [->|Hne]; lia.
Qed.

(** X12. [compute_offline_segments] gives an empty dict when a bound is
    missing or the end is not after the start. Otherwise the lengths of
    its intervals add up to the length of the gap, and its days come in
    increasing order, each once. *)
Theorem offline_gap_conserved :
  (forall t, compute_offline_segments None t = []
             /\ compute_offline_segments t None = [])
  /\ (forall start_ts end_ts,
        end_ts <= start_ts ->
        compute_offline_segments (Some start_ts) (Some end_ts) = [])
  /\ (forall start_ts end_ts,
        start_ts < end_ts ->
        let segs := compute_offline_segments (Some start_ts) (Some end_ts) in
        offline_total segs = end_ts - start_ts
        /\ StronglySorted Z.lt (map fst segs)).
Proof.
  split; [|split].
  - intros t. split; [reflexivity | now destruct t].
  - intros start_ts end_ts Hle. unfold compute_offline_segments.
    now replace (end_ts <=? start_ts) with true
      by (symmetry; apply Z.leb_le; lia).
  - intros start_ts end_ts Hlt segs. subst segs.
    rewrite compute_offline_segments_entries by assumption.
    split; [|apply offline_keys_sorted, days_from_sorted].
    unfold days_from_to.
    pose proof (local_date_mono start_ts end_ts ltac:(lia)) as Hmono.
    replace (Z.to_nat (local_date end_ts - local_date start_ts + 1))
      with (S (Z.to_nat (local_date end_ts - local_date start_ts))) by lia.
    rewrite offline_total_days by lia.
    unfold offline_interval; simpl. now rewrite Z.eqb_refl.
Qed.

(** ** The primary keys of the summary tables *)

Lemma NoDup_snoc {A} (l : list A) a : NoDup l -> ~ In a l -> NoDup (l ++ [a]).
Proof.
  induction 1 as [|x l Hx Hl IH]; simpl; intros Ha.
  - repeat constructor. intros [].
  - constructor.
    + rewrite in_app_iff. simpl. intros [H|[H|[]]]; [tauto|].
      apply Ha. now left.
    + apply IH. intros H. apply Ha. now right.
Qed.

(** An insert under a key leaves the keys distinct. *)
Lemma insert_keeps_keys {Row K} (key : Row -> K)
      (key_eqb : Row -> Row -> bool) r t :
  (forall x, key x = key r -> key_eqb x r = true) ->
  NoDup (map key t) ->
  NoDup (map key (filter (fun x => negb (key_eqb x r)) t ++ [r])).
Proof.
  intros Hkey Hnd. rewrite map_app. simpl.
  apply NoDup_snoc; [now apply NoDup_map_filter|].
  intros Hin. apply in_map_iff in Hin. destruct Hin as (x & Hx & Hin).
  apply filter_In in Hin. destruct Hin as [_ Hin].
  rewrite (Hkey x Hx) in Hin. discriminate.
Qed.

Lemma day_key_eqb_true x r : day_key x = day_key r -> day_key_eqb x r = true.
Proof.
  unfold day_key, day_key_eqb. intros [= -> -> ->].
  now rewrite !Z.eqb_refl, status_eqb_refl.
Qed.

Lemma month_key_eqb_true x r :
  month_key x = month_key r -> month_key_eqb x r = true.
Proof.
  unfold month_key, month_key_eqb. intros [= -> -> -> ->].
  now rewrite !Z.eqb_refl, status_eqb_refl.
Qed.

Lemma year_key_eqb_true x r : year_key x = year_key r -> year_key_eqb x r = true.
Proof.
  unfold year_key, year_key_eqb. intros [= -> -> ->].
  now rewrite !Z.eqb_refl, status_eqb_refl.
Qed.

Lemma total_key_eqb_true x r :
  total_key x = total_key r -> total_key_eqb x r = true.
Proof.
  unfold total_key, total_key_eqb. intros [= -> ->].
  now rewrite !Z.eqb_refl, status_eqb_refl.
Qed.

(** What holds of the day table after every insert holds after the
    segmentation. *)
Lemma store_day_segment_preserves (P : list DayRow -> Prop) :
  (forall r t, P t -> P (day_insert_or_replace r t)) ->
  forall cur day start rows a b,
    P cur -> P (_store_day_segment cur day start rows a b).
Proof.
  intros Hins cur day start rows a b Hcur. unfold _store_day_segment.
  destruct (b <=? a)%nat; [exact Hcur|].
  destruct (nth_error rows a); [|exact Hcur].
  destruct (nth_error rows b); [|exact Hcur].
  destruct (negb _); [exact Hcur|].
  destruct (_ <=? _); [exact Hcur|]. now apply Hins.
Qed.

Lemma scan_segments_preserves (P : list DayRow -> Prop) day start rows rest :
  (forall r t, P t -> P (day_insert_or_replace r t)) ->
  forall i idx sst cur,
    P cur -> P (fst (scan_segments day start rows i rest idx sst cur)).
Proof.
  intros Hins.
  induction rest as [|r rest IH]; intros i idx sst cur Hcur; simpl;
    [exact Hcur|].
  destruct (negb (allowed_status (s_status r))).
  - destruct idx; apply IH; [|exact Hcur].
    now apply store_day_segment_preserves.
  - destruct idx; [|now apply IH].
    destruct (match sst with
              | Some s => negb (status_eqb (s_status r) s)
              | None => true
              end); apply IH; [|exact Hcur].
    now apply store_day_segment_preserves.
Qed.

Lemma build_day_table_preserves (P : list DayRow -> Prop) segs samples day t :
  (forall r t, P t -> P (day_insert_or_replace r t)) ->
  P (other_days day t) ->
  P (build_day_table segs samples day t).
Proof.
  intros Hins Hother. unfold build_day_table. cbv zeta.
  fold (other_days day t).
  set (rows := select_day_samples samples _ _).
  assert (Hon : P (insert_on_rows samples day (local_midnight day) rows
                                  (other_days day t))).
  { unfold insert_on_rows. generalize (other_days day t) Hother.
    induction rows as [|r rows IH]; intros cur Hcur; simpl; [exact Hcur|].
    apply IH. destruct (status_eqb (s_status r) On); [now apply Hins|exact Hcur]. }
  assert (Hseg : P (insert_segments day (local_midnight day) rows
                      (insert_on_rows samples day (local_midnight day) rows
                                      (other_days day t)))).
  { unfold insert_segments.
    pose proof (scan_segments_preserves P day (local_midnight day) rows rows
                  Hins 0%nat None None _ Hon) as Hscan.
    destruct (scan_segments _ _ _ _ _ _ _ _) as [cur idx]; simpl in Hscan.
    destruct idx; [now apply store_day_segment_preserves | exact Hscan]. }
  unfold insert_off_rows.
  revert Hseg. generalize (insert_segments day (local_midnight day) rows
                      (insert_on_rows samples day (local_midnight day) rows
                                      (other_days day t))).
  induction (dict_get day segs) as [|[s e] off IH]; intros cur Hcur; simpl;
    [exact Hcur|].
  apply IH. destruct (e <=? s); [exact Hcur|].
  destruct (_ <=? _); [exact Hcur | now apply Hins].
Qed.

Lemma build_day_table_keys segs samples day t :
  NoDup (map day_key t) ->
  NoDup (map day_key (build_day_table segs samples day t)).
Proof.
  intros Hnd.
  apply (build_day_table_preserves (fun t => NoDup (map day_key t))).
  - intros r t' Ht'. unfold day_insert_or_replace.
    apply insert_keeps_keys; [intros x; apply day_key_eqb_true | exact Ht'].
  - now apply NoDup_map_filter.
Qed.

(** One level of the roll-up leaves the keys distinct. *)
Lemma level_update_keys {Row Src K} (key : Row -> K)
      (in_scope : Row -> bool) (key_eqb : Row -> Row -> bool)
      (mk : Status -> list Src -> Row) (src_status : Src -> Status) src old :
  (forall x r, key x = key r -> key_eqb x r = true) ->
  NoDup (map key old) ->
  NoDup (map key (level_update in_scope key_eqb mk src_status src old)).
Proof.
  intros Hkey Hnd. unfold level_update.
  generalize (group_by_status src_status src) as groups.
  assert (Hbase : NoDup (map key (filter (fun r => negb (in_scope r)) old)))
    by now apply NoDup_map_filter.
  revert Hbase. generalize (filter (fun r => negb (in_scope r)) old) as cur.
  intros cur Hcur groups. revert cur Hcur.
  induction groups as [|g groups IH]; intros cur Hcur; simpl; [exact Hcur|].
  apply IH. apply insert_keeps_keys; [intros x; apply Hkey | exact Hcur].
Qed.

Lemma rebuild_day_keys segs db day :
  summary_keys_unique db -> summary_keys_unique (rebuild_day segs db day).
Proof.
  intros (Hd & Hm & Hy & Ht). unfold summary_keys_unique; simpl.
  split; [now apply build_day_table_keys|].
  rewrite update_month_level, update_year_level, update_total_level.
  destruct (civil day) as [[y m] d].
  split; [|split].
  - apply level_update_keys; [exact month_key_eqb_true | exact Hm].
  - apply level_update_keys; [exact year_key_eqb_true | exact Hy].
  - apply level_update_keys; [exact total_key_eqb_true | exact Ht].
Qed.

(** X13. The four summary tables keep their primary keys: a rebuild of a
    day, and hence every run of the loop, leaves at most one row per
    [(day, status, start)] in the day table and per key in the month, year
    and total tables, if that was so before. *)
Theorem summary_keys_kept e ticks segs day :
  summary_keys_unique (conn e) ->
  summary_keys_unique (rebuild_day segs (conn e) day)
  /\ summary_keys_unique (conn (fst (run e ticks))).
Proof.
  intros Hk. split; [now apply rebuild_day_keys|].
  apply (run_preserves summary_keys_unique); [| |exact Hk].
  - intros db d st ts H. exact H.
  - intros segs' db day' H. now apply rebuild_day_keys.
Qed.

(** ** The roll-up as a replacement of its scope *)

Lemma filter_twice {A} (p : A -> bool) l : filter p (filter p l) = filter p l.
Proof.
  induction l as [|x l IH]; simpl; [reflexivity|].
  destruct (p x) eqn:Hx; simpl; [|exact IH]. now rewrite Hx, IH.
Qed.

Lemma level_update_twice {Row Src} (row_status : Row -> Status)
      (in_scope : Row -> bool) (key_eqb : Row -> Row -> bool)
      (mk : Status -> list Src -> Row) (src_status : Src -> Status) src old :
  (forall st g, row_status (mk st g) = st) ->
  (forall st g, in_scope (mk st g) = true) ->
  (forall x r, key_eqb x r = true -> in_scope r = true -> in_scope x = true) ->
  (forall x r, key_eqb x r = true -> row_status x = row_status r) ->
  level_update in_scope key_eqb mk src_status src
               (level_update in_scope key_eqb mk src_status src old)
  = level_update in_scope key_eqb mk src_status src old.
Proof.
  intros H1 H2 H3 H4.
  rewrite !(level_update_eq _ _ row_status _ _ _ _ H1 H2 H3 H4).
  rewrite filter_app, filter_twice. f_equal.
  rewrite <- app_nil_r. f_equal.
  induction (group_by_status src_status src) as [|g gs IH]; simpl;
    [reflexivity|].
  now rewrite H2.
Qed.

Lemma update_month_twice day days months :
  update_month day days (update_month day days months)
  = update_month day days months.
Proof.
  rewrite !update_month_level. destruct (civil day) as [[y m] d].
  destruct (month_level_ok y m d) as (H1 & H2 & H3 & H4).
  now apply (level_update_twice mo_status).
Qed.

Lemma update_year_twice day months years :
  update_year day months (update_year day months years)
  = update_year day months years.
Proof.
  rewrite !update_year_level. destruct (civil day) as [[y m] d].
  destruct (year_level_ok y m) as (H1 & H2 & H3 & H4).
  now apply (level_update_twice y_status).
Qed.

Lemma update_total_twice day years totals :
  update_total day years (update_total day years totals)
  = update_total day years totals.
Proof.
  rewrite !update_total_level. destruct (civil day) as [[y m] d].
  destruct (total_level_ok y) as (H1 & H2 & H3 & H4).
  now apply (level_update_twice t_status).
Qed.

Lemma rollup_twice db day :
  update_month_year_total_for_day (update_month_year_total_for_day db day) day
  = update_month_year_total_for_day db day.
Proof.
  unfold update_month_year_total_for_day; simpl.
  now rewrite update_month_twice, update_year_twice, update_total_twice.
Qed.

Lemma build_day_table_twice segs samples day t :
  build_day_table segs samples day (build_day_table segs samples day t)
  = build_day_table segs samples day t.
Proof.
  rewrite (build_day_table_frame segs samples day (build_day_table _ _ _ _)).
  rewrite (build_day_table_frame segs samples day t) at 1.
  unfold other_days at 1. rewrite filter_app.
  fold (other_days day (other_days day t)).
  fold (other_days day (build_day_table segs samples day [])).
  rewrite other_days_idem.
  rewrite (other_days_own day (build_day_table _ _ _ _))
    by apply build_day_table_own.
  rewrite app_nil_r. symmetry. apply build_day_table_frame.
Qed.

(** X14. The roll-up of a day is idempotent: rolling the same day up a
    second time leaves the month, year and total tables as the first time
    left them; so does the whole rebuild of a day (segmentation followed
    by the roll-up). *)
Theorem rollup_idempotent segs db day :
  update_month_year_total_for_day (update_month_year_total_for_day db day) day
  = update_month_year_total_for_day db day
  /\ rebuild_day segs (rebuild_day segs db day) day = rebuild_day segs db day.
Proof.
  split; [apply rollup_twice|].
  unfold rebuild_day, build_day_summary_for_date,
    update_month_year_total_for_day; simpl.
  rewrite build_day_table_twice.
  now rewrite update_month_twice, update_year_twice, update_total_twice.
Qed.

(** X15. The roll-up of a day leaves the samples and the day table as
    they are, and in the three roll-up tables it leaves every row of
    another day, another month and another year as it is. *)
Theorem rollup_touches_its_scope_only db day :
  let db' := update_month_year_total_for_day db day in
  let y := fst (fst (civil day)) in
  let m := snd (fst (civil day)) in
  let d := snd (civil day) in
  hp_samples db' = hp_samples db
  /\ day_summary db' = day_summary db
  /\ filter (fun r => negb (month_scope y m d r)) (month_summary db')
     = filter (fun r => negb (month_scope y m d r)) (month_summary db)
  /\ filter (fun r => negb (year_scope y m r)) (year_summary db')
     = filter (fun r => negb (year_scope y m r)) (year_summary db)
  /\ filter (fun r => negb (total_scope y r)) (total_summary db')
     = filter (fun r => negb (total_scope y r)) (total_summary db).
Proof.
  intros db' y m d. subst db' y m d.
  unfold update_month_year_total_for_day; simpl.
  rewrite update_month_level, update_year_level, update_total_level.
  destruct (civil day) as [[y m] d]; simpl.
  destruct (month_level_ok y m d) as (M1 & M2 & M3 & M4).
  destruct (year_level_ok y m) as (Y1 & Y2 & Y3 & Y4).
  destruct (total_level_ok y) as (T1 & T2 & T3 & T4).
  repeat split.
  - apply (level_update_out_of_scope _ _ mo_status _ _ _ _ M1 M2 M3 M4).
    intros r Hr. now apply negb_true_iff.
  - apply (level_update_out_of_scope _ _ y_status _ _ _ _ Y1 Y2 Y3 Y4).
    intros r Hr. now apply negb_true_iff.
  - apply (level_update_out_of_scope _ _ t_status _ _ _ _ T1 T2 T3 T4).
    intros r Hr. now apply negb_true_iff.
Qed.

(** ** Event counts and the day level of the roll-up *)

Lemma update_year_events day months years y m d st :
  civil day = (y, m, d) ->
  year_month_events (update_year day months years) y m st
  = month_events months y m st.
Proof.
  intros Hc.
  unfold year_month_events, year_month_rows, month_events, month_rows.
  rewrite update_year_level, Hc.
  destruct (year_level_ok y m) as (H1 & H2 & H3 & H4).
  change (fun r : YearRow => (y_year r =? y) && (y_month r =? m)
                             && status_eqb (y_status r) st)
    with (fun r : YearRow => year_scope y m r && status_eqb (y_status r) st).
  rewrite (level_update_in_scope _ _ y_status _ _ _ _ H1 H2 H3 H4).
  rewrite (filter_andb (fun r => (mo_year r =? y) && (mo_month r =? m))
                       (fun r => status_eqb (mo_status r) st)).
  destruct (filter (fun r => status_eqb (mo_status r) st) _) as [|x grp] eqn:Hg;
    [reflexivity|].
  rewrite <- Hg. clear Hg.
  cbn [map sum_Z fold_right year_row_of times_a_month].
  now rewrite int_or_0_id, Z.add_0_r.
Qed.

Lemma update_total_events day years totals y m d st :
  civil day = (y, m, d) ->
  total_events (update_total day years totals) y st
  = year_events years y st.
Proof.
  intros Hc.
  unfold total_events, total_rows, year_events, year_rows.
  rewrite update_total_level, Hc.
  destruct (total_level_ok y) as (H1 & H2 & H3 & H4).
  change (fun r : TotalRow => (t_year r =? y) && status_eqb (t_status r) st)
    with (fun r : TotalRow => total_scope y r && status_eqb (t_status r) st).
  rewrite (level_update_in_scope _ _ t_status _ _ _ _ H1 H2 H3 H4).
  rewrite (filter_andb (fun r => y_year r =? y)
                       (fun r => status_eqb (y_status r) st)).
  destruct (filter (fun r => status_eqb (y_status r) st) _) as [|x grp] eqn:Hg;
    [reflexivity|].
  rewrite <- Hg. clear Hg.
  cbn [map sum_Z fold_right total_row_of times_a_year].
  now rewrite int_or_0_id, Z.add_0_r.
Qed.

(** X16. After the roll-up of a day the event counts agree across the
    levels for every status, "ON" included: the [times_a_day] of the MONTH
    rows of the day's month add up to the [times_a_month] of its YEAR row,
    and the [times_a_month] of the YEAR rows of the day's year add up to
    the [times_a_year] of its TOTAL row. *)
Theorem event_counts_agree db day st :
  let db' := update_month_year_total_for_day db day in
  let y := fst (fst (civil day)) in
  let m := snd (fst (civil day)) in
  month_events (month_summary db') y m st
  = year_month_events (year_summary db') y m st
  /\ year_events (year_summary db') y st
     = total_events (total_summary db') y st.
Proof.
  intros db' y m. subst db' y m.
  destruct (civil day) as [[y m] d] eqn:Hc; simpl.
  split; symmetry.
  - now apply update_year_events with (d := d).
  - now apply update_total_events with (m := m) (d := d).
Qed.

(** X17. The day level of the roll-up: for every status the MONTH table
    holds, for the day, no row if the day table has no row of that status
    for the day, and otherwise exactly one row, whose count is the number
    of those rows and whose duration is the sum of their durations (0 for
    "ON", which carries no measure). *)
Theorem month_row_of_day db day st :
  let db' := update_month_year_total_for_day db day in
  let y := fst (fst (civil day)) in
  let m := snd (fst (civil day)) in
  let d := snd (civil day) in
  let grp := day_status_rows (day_summary db) day st in
  (grp = [] -> month_day_rows (month_summary db') y m d st = [])
  /\ (grp <> [] ->
      exists r,
        month_day_rows (month_summary db') y m d st = [r]
        /\ times_a_day r = Z.of_nat (List.length grp)
        /\ (st <> On ->
            total_time_s (mo_measures r)
            = sum_Z (map (fun x => total_time_s (d_measures x)) grp))
        /\ (st = On -> mo_measures r = blank_measures)).
Proof.
  intros db' y m d grp. subst db' y m d grp.
  unfold update_month_year_total_for_day, month_day_rows, day_status_rows;
    simpl.
  rewrite update_month_level.
  destruct (civil day) as [[y m] d]; simpl.
  destruct (month_level_ok y m d) as (H1 & H2 & H3 & H4).
  rewrite (level_update_in_scope _ _ mo_status _ _ _ _ H1 H2 H3 H4).
  rewrite (filter_andb (fun x => day_date x =? day)
                       (fun x => status_eqb (d_status x) st)).
  destruct (filter (fun x => status_eqb (d_status x) st) _) as [|x grp] eqn:Hg.
  - split; [reflexivity | congruence].
  - split; [discriminate|]. intros _.
    exists (month_row_of y m d st (x :: grp)).
    split; [reflexivity|].
    split; [unfold month_row_of; cbn [times_a_day]; apply int_or_0_id|].
    unfold month_row_of; cbn [mo_measures]. split.
    + intros Hne. rewrite rollup_duration, map_map.
      now destruct (status_eqb_spec st On).
    + now intros ->.
Qed.

(** ** The loop and the shared store *)

Lemma fold_updates_keep updates : forall store,
  Forall poller_update updates ->
  status (fold_left DataStore_update updates store) = status store
  /\ last_ts_utc_s (fold_left DataStore_update updates store)
     = last_ts_utc_s store.
Proof.
  induction updates as [|p updates IH]; intros store Hall; simpl; [auto|].
  inversion Hall as [|? ? [Hts Hst] Hrest]; subst.
  destruct (IH (DataStore_update store p) Hrest) as [-> ->].
  simpl. now rewrite Hts, Hst.
Qed.

Lemma last_written_app w1 w2 :
  last_written (w1 ++ w2)
  = match last_written w2 with
    | Some r => Some r
    | None => last_written w1
    end.
Proof.
  unfold last_written. rewrite rev_app_distr.
  destruct (rev w2); reflexivity.
Qed.

Lemma last_written_none w : last_written w = None -> w = [].
Proof.
  unfold last_written. destruct (rev w) eqn:Hr; [|discriminate].
  intros _. rewrite <- (rev_involutive w), Hr. reflexivity.
Qed.

Lemma fold_write_back written : forall store,
  match last_written written with
  | Some r =>
      status (fold_left write_back written store) = Some (s_status r)
      /\ last_ts_utc_s (fold_left write_back written store)
         = Some (s_ts_utc_s r)
  | None => fold_left write_back written store = store
  end.
Proof.
  induction written as [|r written IH] using rev_ind; intros store;
    [reflexivity|].
  rewrite last_written_app. simpl. rewrite fold_left_app. simpl. auto.
Qed.

Lemma status_not_empty store :
  status store <> None -> snapshot_empty store = false.
Proof.
  intros H. unfold snapshot_empty.
  destruct (status store); [|congruence]. simpl. apply andb_false_r.
Qed.

Lemma live_tick_store e store updates ts now_t :
  status store = last_status_stored e ->
  Forall poller_update updates ->
  let '(e', store', w) := live_tick e store updates ts now_t in
  status store' = last_status_stored e'
  /\ (w = [] -> status store' = status store
                /\ last_ts_utc_s store' = last_ts_utc_s store)
  /\ (forall r, last_written w = Some r ->
                status store' = Some (s_status r)
                /\ last_ts_utc_s store' = Some (s_ts_utc_s r)).
Proof.
  intros Hinv Hup. unfold live_tick.
  destruct (fold_updates_keep updates store Hup) as [Hst Hts].
  set (store1 := fold_left DataStore_update updates store) in *.
  pose proof (run_body_cases e store1 ts now_t) as Hcases.
  cbv zeta in Hcases.
  destruct (run_body e store1 ts now_t) as [e' w]; simpl in Hcases.
  pose proof (fold_write_back w store1) as Hwb.
  destruct Hcases as [[-> ->]|[(-> & _ & _ & Hs & _)|
                               (_ & Hw & _ & Hs & _)]].
  - simpl in *. split; [congruence|]. split; [intros _; split; congruence|].
    intros r' Hr. unfold last_written in Hr. simpl in Hr. discriminate Hr.
  - simpl in *. split; [congruence|]. split; [intros _; split; congruence|].
    intros r' Hr. unfold last_written in Hr. simpl in Hr. discriminate Hr.
  - assert (Hlast : last_written w
                    = Some (sample_row store1 (status_to_store e store1) ts)).
    { rewrite Hw. destruct (bridge_sample _ _ _) as [[[d0 s0] t0]|];
        reflexivity. }
    rewrite Hlast in Hwb. destruct Hwb as [Hwb1 Hwb2].
    split; [rewrite Hwb1, Hs; reflexivity|].
    split.
    + intros ->. discriminate.
    + intros r Hr. rewrite Hlast in Hr. injection Hr as <-. auto.
Qed.

Lemma run_live_store ticks : forall e store,
  status store = last_status_stored e ->
  (forall updates ts t, In (updates, ts, t) ticks ->
                        Forall poller_update updates) ->
  let '(e', store', w) := run_live e store ticks in
  status store' = last_status_stored e'
  /\ (w = [] -> status store' = status store
                /\ last_ts_utc_s store' = last_ts_utc_s store)
  /\ (forall r, last_written w = Some r ->
                status store' = Some (s_status r)
                /\ last_ts_utc_s store' = Some (s_ts_utc_s r)).
Proof.
  induction ticks as [|[[updates ts] t] ticks IH]; intros e store Hinv Hup;
    simpl.
  - split; [exact Hinv|]. split; [auto|].
    intros r' Hr. unfold last_written in Hr. simpl in Hr. discriminate Hr.
  - pose proof (live_tick_store e store updates ts t Hinv
                  (Hup updates ts t (or_introl eq_refl))) as H1.
    destruct (live_tick e store updates ts t) as [[e1 store1] w1].
    destruct H1 as (Hinv1 & Hnil1 & Hlast1).
    specialize (IH e1 store1 Hinv1
                   (fun u ts' t' H => Hup u ts' t' (or_intror H))).
    destruct (run_live e1 store1 ticks) as [[e2 store2] w2].
    destruct IH as (Hinv2 & Hnil2 & Hlast2).
    split; [exact Hinv2|]. split.
    + intros Happ. apply app_eq_nil in Happ. destruct Happ as [-> ->].
      destruct (Hnil1 eq_refl) as [? ?]. destruct (Hnil2 eq_refl) as [? ?].
      split; congruence.
    + intros r Hr. rewrite last_written_app in Hr.
      destruct (last_written w2) as [r2|] eqn:Hw2.
      * injection Hr as <-. now apply Hlast2.
      * apply last_written_none in Hw2. subst w2.
        destruct (Hnil2 eq_refl) as [-> ->]. now apply Hlast1.
Qed.

(** X18. The shared store follows the writer. While the pollers write
    only their own keys, after any run of the loop from its initial state
    the key [status] of the store holds the status stored last, and once a
    row has been written the keys [status] and [last_ts_utc_s] hold the
    status and the timestamp of the last row written, so the store is
    never empty again. *)
Theorem store_follows_writes today db store ticks :
  status store = None ->
  (forall updates ts t, In (updates, ts, t) ticks ->
                        Forall poller_update updates) ->
  let '(e', store', w) := run_live (init_engine today db) store ticks in
  status store' = last_status_stored e'
  /\ (forall r, last_written w = Some r ->
                status store' = Some (s_status r)
                /\ last_ts_utc_s store' = Some (s_ts_utc_s r)
                /\ snapshot_empty store' = false).
Proof.
  intros Hst Hup.
  pose proof (run_live_store ticks (init_engine today db) store Hst Hup) as H.
  destruct (run_live (init_engine today db) store ticks) as [[e' store'] w].
  destruct H as (Hinv & _ & Hlast).
  split; [exact Hinv|].
  intros r Hr. destruct (Hlast r Hr) as [H1 H2].
  repeat split; try assumption.
  apply status_not_empty. congruence.
Qed.

(** ** The segments of a day do not overlap *)

Lemma sorted_filter {A} (R : A -> A -> Prop) (p : A -> bool) l :
  StronglySorted R l -> StronglySorted R (filter p l).
Proof.
  induction 1 as [|x l Hs IH Hx]; simpl; [constructor|].
  destruct (p x); [|exact IH]. constructor; [exact IH|].
  rewrite Forall_forall in *. intros y Hy. apply Hx.
  now apply filter_In in Hy.
Qed.

Lemma sorted_rows_increase rows :
  samples_sorted rows ->
  forall a b ra rb,
    (a < b)%nat ->
    nth_error rows a = Some ra -> nth_error rows b = Some rb ->
    s_ts_utc_s ra < s_ts_utc_s rb.
Proof.
  induction 1 as [|x l Hs IH Hx]; intros a b ra rb Hab Ha Hb.
  - destruct a; discriminate.
  - destruct b as [|b]; [lia|]. simpl in Hb.
    destruct a as [|a]; simpl in Ha.
    + injection Ha as <-. rewrite Forall_forall in Hx. apply Hx.
      eapply nth_error_In; eassumption.
    + apply (IH a b); [lia | assumption | assumption].
Qed.

Lemma ordered_before_mono rows k k' cur :
  (k <= k')%nat -> ordered_before rows k cur -> ordered_before rows k' cur.
Proof.
  intros Hk [Hb Hp]. split; [|exact Hp].
  intros x Hx Hal j r Hj. apply Hb; [assumption | assumption | lia].
Qed.

Lemma store_ordered rows day start a i cur :
  samples_sorted rows ->
  (a < i)%nat ->
  ordered_before rows a cur ->
  ordered_before rows i (_store_day_segment cur day start rows a (i - 1)).
Proof.
  intros Hsorted Hai Hord.
  assert (Hkeep : ordered_before rows i cur)
    by (apply ordered_before_mono with (k := a); [lia | exact Hord]).
  unfold _store_day_segment.
  destruct (i - 1 <=? a)%nat eqn:Hba; [exact Hkeep|].
  apply Nat.leb_gt in Hba.
  destruct (nth_error rows a) as [first|] eqn:Ha; [|exact Hkeep].
  destruct (nth_error rows (i - 1)) as [last|] eqn:Hb; [|exact Hkeep].
  destruct (negb (allowed_status (s_status first))); [exact Hkeep|].
  destruct (s_ts_utc_s last <=? s_ts_utc_s first) eqn:Hts; [exact Hkeep|].
  apply Z.leb_gt in Hts.
  destruct Hord as [Hbound Hpair]. destruct Hkeep as [Hbound' _].
  set (x_new := segment_row day start rows a (i - 1) first last).
  assert (Hold_new : forall x, In x cur -> allowed_status (d_status x) = true ->
                               end_ts_utc_s x < start_ts_utc_s x_new).
  { intros x Hx Hal. simpl. apply (Hbound x Hx Hal a first); [lia|exact Ha]. }
  split.
  - intros x Hx Hal j r Hj Hr. apply In_day_insert in Hx.
    destruct Hx as [->|Hx]; [|now apply (Hbound' x Hx Hal j r)].
    simpl. apply (sorted_rows_increase rows Hsorted (i - 1) j); try assumption.
    lia.
  - intros x y Hx Hy Hax Hay.
    apply In_day_insert in Hx. apply In_day_insert in Hy.
    destruct Hx as [->|Hx], Hy as [->|Hy].
    + now left.
    + right; right. now apply Hold_new.
    + right; left. now apply Hold_new.
    + now apply Hpair.
Qed.

Lemma scan_ordered rows day start :
  samples_sorted rows ->
  forall rest i idx sst cur,
    match idx with
    | Some a => (a < i)%nat /\ ordered_before rows a cur
    | None => ordered_before rows i cur
    end ->
    let res := scan_segments day start rows i rest idx sst cur in
    match snd res with
    | Some a => (a < i + List.length rest)%nat
                /\ ordered_before rows a (fst res)
    | None => ordered_before rows (i + List.length rest) (fst res)
    end.
Proof.
  intros Hsorted.
  induction rest as [|r rest IH]; intros i idx sst cur Hinv; simpl.
  - rewrite Nat.add_0_r. destruct idx as [a|]; [|exact Hinv].
    destruct Hinv. split; [lia|assumption].
  - replace (i + S (List.length rest))%nat
      with (S i + List.length rest)%nat by lia.
    destruct (negb (allowed_status (s_status r))).
    + destruct idx as [a|].
      * destruct Hinv as [Hai Hord]. apply IH.
        apply ordered_before_mono with (k := i); [lia|].
        now apply store_ordered.
      * apply IH. apply ordered_before_mono with (k := i); [lia|exact Hinv].
    + destruct idx as [a|].
      * destruct Hinv as [Hai Hord].
        destruct (match sst with
                  | Some s => negb (status_eqb (s_status r) s)
                  | None => true
                  end).
        -- apply IH. split; [lia|]. now apply store_ordered.
        -- apply IH. split; [lia|exact Hord].
      * apply IH. split; [lia|exact Hinv].
Qed.

Lemma insert_segments_ordered rows day start cur :
  samples_sorted rows ->
  ordered_before rows 0 cur ->
  ordered_before rows (List.length rows) (insert_segments day start rows cur).
Proof.
  intros Hsorted Hord. unfold insert_segments.
  pose proof (scan_ordered rows day start Hsorted rows 0%nat None None cur Hord)
    as Hscan. cbv zeta in Hscan. simpl in Hscan.
  destruct (scan_segments day start rows 0 rows None None cur) as [cur' idx];
    simpl in Hscan.
  destruct idx as [a|]; [|exact Hscan].
  destruct Hscan as [Ha Hord']. now apply store_ordered.
Qed.

(** X19. On a sample table in increasing order of timestamps, the
    segments that a rebuild stores for a day never overlap: of two
    different rows of the day with an accumulating status, of the same
    status or not, one ends strictly before the other starts. *)
Theorem segments_never_overlap segs samples day t x y :
  samples_sorted samples ->
  In x (build_day_table segs samples day t) ->
  In y (build_day_table segs samples day t) ->
  day_date x = day -> day_date y = day ->
  allowed_status (d_status x) = true ->
  allowed_status (d_status y) = true ->
  x = y
  \/ end_ts_utc_s x < start_ts_utc_s y
  \/ end_ts_utc_s y < start_ts_utc_s x.
Proof.
  intros Hsorted Hx Hy Hdx Hdy Hax Hay.
  apply In_build_day_table_own in Hx; [|assumption].
  apply In_build_day_table_own in Hy; [|assumption].
  unfold build_day_table in Hx, Hy. cbv zeta in Hx, Hy. simpl filter in Hx, Hy.
  set (start := local_midnight day) in *.
  set (rows := select_day_samples samples start (local_midnight (day + 1)))
    in *.
  set (cur0 := insert_on_rows samples day start rows []) in *.
  assert (Hrows : samples_sorted rows) by now apply sorted_filter.
  assert (Hcur0 : ordered_before rows 0 cur0).
  { assert (Hon : forall z, In z cur0 -> d_status z = On).
    { intros z Hz. apply In_insert_on_rows in Hz.
      destruct Hz as [[]|(r & _ & _ & ->)]. reflexivity. }
    split.
    - intros z Hz Hal. rewrite (Hon z Hz) in Hal. discriminate.
    - intros z z' Hz _ Hal. rewrite (Hon z Hz) in Hal. discriminate. }
  destruct (insert_segments_ordered rows day start cur0 Hrows Hcur0)
    as [_ Hpair].
  assert (Hseg : forall z,
             In z (insert_off_rows day start (local_midnight (day + 1))
                     (dict_get day segs)
                     (insert_segments day start rows cur0)) ->
             allowed_status (d_status z) = true ->
             In z (insert_segments day start rows cur0)).
  { intros z Hz Hal. apply In_insert_off_rows in Hz.
    destruct Hz as [Hz|(s & e & _ & _ & ->)]; [exact Hz | discriminate]. }
  apply Hpair; auto.
Qed.

End Engine.

(* ================================================================== *)
(** * Instances *)

(** The zone at a fixed offset is a time zone in the sense of the
    hypotheses of the offline gap. *)
Lemma eet_midnight_increasing d : eet_midnight d < eet_midnight (d + 1).
Proof. unfold eet_midnight. lia. Qed.

Lemma eet_date_spec ts :
  eet_midnight (eet_date ts) <= ts < eet_midnight (eet_date ts + 1).
Proof.
  unfold eet_midnight, eet_date.
  pose proof (Z_div_mod_eq_full (ts + 7200) 86400).
  pose proof (Z.mod_pos_bound (ts + 7200) 86400). lia.
Qed.

(** C1, on the code. Two Heating rows followed by two Defrost rows: the
    Heating segment that is stored ends at the second Heating row, 10 s
    after its start, with the energy between the two Heating rows; the
    first Defrost row, 5 s later, which closes the run, is not its end. *)
Theorem closing_row_left_out :
  map (fun x => (day_row_summary x, consumption_kw (d_measures x)))
      (build_day_table no_rounding sum_left_to_right eet_midnight []
                       heating_then_defrost new_year_2024 [])
  = [ ((Heating, T0, T0 + 10, 10), Some (100.02 - 100)%float);
      ((Defrost, T0 + 15, T0 + 25, 10), Some (100.05 - 100.03)%float) ].
Proof. vm_compute. reflexivity. Qed.

(** C2, on the code. A process that starts at [T0], idles for four ticks,
    heats for five and idles again: the samples span 45 s (40 s from the
    first Standby row), the segments stored for the day add up to 30 s. *)
Theorem heating_phase_loses_duration :
  let e := fst (run no_rounding sum_left_to_right sum_left_to_right
                    eet_date eet_midnight civil_from_days
                    (init_engine new_year_2024 empty_db) one_heating_phase) in
  map (fun r => (s_ts_utc_s r - T0, s_status r)) (hp_samples (conn e))
  = [(0, On); (5, Standby); (15, Standby); (20, Heating); (30, Heating);
     (40, Heating); (45, Standby)]
  /\ map day_row_summary (day_summary (conn e))
     = [(On, T0, T0, 0); (Standby, T0 + 5, T0 + 15, 10);
        (Heating, T0 + 20, T0 + 40, 20)]
  /\ sum_Z (segment_durations (day_summary (conn e))) = 30
  /\ XSEC < 40 - sum_Z (segment_durations (day_summary (conn e))).
Proof. vm_compute. repeat split. Qed.

(** C9, on the code. A morning on which the heat meter answers late:
    the first Standby segment of the day has no inlet temperature, the
    second one has 45 degrees. Each segment average leaves the absent
    values out (null for the first segment, 45 for the second), but the
    roll-up of the day gives Standby the inlet temperature 22.5: its
    weighted sum leaves the null row out while its weight, the sum of the
    durations, counts the 10 s of that row, so the absent value weighs in
    as a zero. *)
Theorem null_rows_weigh_in_rollup_average :
  let e := fst (run no_rounding sum_left_to_right sum_left_to_right
                    eet_date eet_midnight civil_from_days
                    (init_engine new_year_2024 empty_db) late_heat_meter) in
  map (fun r => (s_ts_utc_s r - T0, s_status r, s_hm_temp_IN r))
      (hp_samples (conn e))
  = [(0, On, None); (5, Standby, None); (15, Standby, None);
     (20, Heating, Some 45%float); (30, Heating, Some 45%float);
     (40, Heating, Some 45%float); (45, Standby, Some 45%float);
     (55, Standby, Some 45%float); (60, Heating, Some 45%float)]
  /\ map (fun x => (d_status x, total_time_s (d_measures x),
                    hp_temp_in (d_measures x)))
         (day_summary (conn e))
     = [(On, 0, None); (Standby, 10, None); (Heating, 20, Some 45%float);
        (Standby, 10, Some 45%float)]
  /\ map month_row_summary (month_summary (conn e))
     = [(Heating, 20, Some 45%float); (On, 0, None);
        (Standby, 20, Some 22.5%float)]
  /\ map (fun r => (y_status r, hp_temp_in (y_measures r)))
         (year_summary (conn e))
     = [(Heating, Some 45%float); (On, None); (Standby, Some 22.5%float)].
Proof. vm_compute. repeat split. Qed.




Lemma rollup_consistency_witness :
  let db :=
    build_day_summary_for_date no_rounding sum_left_to_right eet_midnight []
      (mkDB heating_then_defrost [] [] [] []) new_year_2024 in
  let db' :=
    update_month_year_total_for_day no_rounding sum_left_to_right
                                    civil_from_days db new_year_2024 in
  month_duration (month_summary db') 2024 1 Heating = 10
  /\ year_month_duration (year_summary db') 2024 1 Heating = 10
  /\ total_duration (total_summary db') 2024 Heating = 10.
Proof.
  intros db db'.
  destruct (rollup_consistency no_rounding sum_left_to_right civil_from_days
                               db new_year_2024)
    as (Hmy & Hyt & _).
  { repeat split; intros r []. }
  destruct (Hmy Heating) as [H1 _]. destruct (Hyt Heating) as [H2 _].
  change (fst (fst (civil_from_days new_year_2024))) with 2024 in H1, H2.
  change (snd (fst (civil_from_days new_year_2024))) with 1 in H1.
  subst db'.
  split; [vm_compute; reflexivity|].
  split; [rewrite <- H1 | rewrite <- H2]; vm_compute; reflexivity.
Defined.

Lemma segments_have_positive_duration_witness :
  let table :=
    build_day_table no_rounding sum_left_to_right eet_midnight []
                    lone_defrost new_year_2024 [] in
  map day_row_summary table
  = [(Heating, T0, T0 + 10, 10); (Standby, T0 + 20, T0 + 30, 10)]
  /\ forall x, In x table ->
               0 < total_time_s (d_measures x)
               /\ start_ts_utc_s x <> T0 + 15.
Proof.
  intros table. split; [vm_compute; reflexivity|].
  intros x Hx.
  assert (Hday : day_date x = new_year_2024
                 /\ allowed_status (d_status x) = true).
  { vm_compute in Hx. destruct Hx as [<-|[<-|[]]]; split; reflexivity. }
  destruct (segments_have_positive_duration
              no_rounding sum_left_to_right eet_midnight []
              lone_defrost new_year_2024 [] x Hx (proj1 Hday) (proj2 Hday))
    as ((_ & _ & Hpos) & Hsingle).
  split; [exact Hpos|].
  apply (Hsingle 2%nat (bare_sample (T0 + 15) Defrost)).
  - vm_compute. repeat constructor; simpl; intuition discriminate.
  - vm_compute. repeat split.
    + intros r' [= <-]. discriminate.
    + intros j r' [= <-] [= <-]. discriminate.
Defined.

(* ================================================================== *)
(** * Instances of the further properties *)

Lemma u32_words_witness :
  u32 1 0x86A0 = 100000
  /\ Z.shiftr (u32 1 0x86A0) 16 = 1
  /\ Z.land (u32 1 0x86A0) 0xFFFF = 0x86A0.
Proof.
  destruct (u32_words 1 0x86A0) as (_ & _ & H). apply H; lia.
Defined.

Lemma i16_twos_complement_witness :
  i16 0xFFF6 = -10 /\ i16 ((-10) mod 65536) = -10.
Proof.
  destruct i16_twos_complement as [H1 H2]. split.
  - destruct (H1 0xFFF6) as (_ & _ & _ & H); [lia|]. rewrite H; lia.
  - apply H2; lia.
Defined.

Lemma poller_cycle_is_one_update_witness :
  em_activepower
    (DataStore_update idle_snapshot
       (bus_cycle_partial no_rounding None (Some [0; 1234]) (Some [400; 215])))
  = em_activepower idle_snapshot.
Proof.
  destruct (poller_cycle_is_one_update no_rounding) as (Hb & _ & _ & Hp & _).
  apply (Hp (Some [0; 1234]) (Some [400; 215]) idle_snapshot).
  rewrite Hb. reflexivity.
Defined.

Lemma pollers_commute_witness :
  keys (bus_cycle_partial no_rounding None (Some [0; 1234]) None)
  = ["em_total_fwd"]%string
  /\ In "em_total_fwd"%string
        ["em_activepower"; "em_total_fwd"; "ts_ambient_temp";
         "ts_ambient_humidity"]%string.
Proof.
  destruct (pollers_commute no_rounding) as (Hb & _).
  split; [reflexivity|].
  apply (Hb None (Some [0; 1234]) None). simpl. auto.
Defined.

Lemma classifier_holds_mode_witness :
  allowed_status (compute_logical_status (Some Heating) idle_snapshot) = true.
Proof.
  destruct classifier_holds_mode as [H _]. apply H. reflexivity.
Defined.

Lemma run_keeps_samples_sorted_witness :
  NoDup (map s_ts_utc_s
           (hp_samples
              (conn (fst (run no_rounding sum_left_to_right sum_left_to_right
                              eet_date eet_midnight civil_from_days
                              (init_engine new_year_2024 empty_db)
                              one_heating_phase))))).
Proof.
  apply (run_keeps_samples_sorted
           no_rounding sum_left_to_right sum_left_to_right
           eet_date eet_midnight civil_from_days
           one_heating_phase (init_engine new_year_2024 empty_db)).
  constructor.
Defined.

Lemma insert_sample_upsert_witness :
  sample_at (T0 - 86400)
            (hp_samples (insert_sample no_rounding yesterday_db idle_snapshot
                                       Standby T0))
  = Some (bare_sample (T0 - 86400) Standby).
Proof.
  pose proof (insert_sample_upsert no_rounding yesterday_db idle_snapshot
                                   Standby T0) as H.
  cbv zeta in H. destruct H as (_ & H & _).
  rewrite H by (unfold T0; lia). reflexivity.
Defined.


Lemma off_rows_clipped_witness :
  let segs := [(new_year_2024, [(T0 - 86400, T0)])] in
  let x := off_row new_year_2024 (eet_midnight new_year_2024)
                   (eet_midnight new_year_2024) T0 in
  eet_midnight new_year_2024 <= start_ts_utc_s x
  /\ start_ts_utc_s x < end_ts_utc_s x
  /\ end_ts_utc_s x <= eet_midnight (new_year_2024 + 1).
Proof.
  intros segs x.
  destruct (off_rows_clipped no_rounding sum_left_to_right eet_midnight
                             segs [] new_year_2024 [] x)
    as (_ & H1 & H2 & H3 & _);
    [vm_compute; auto | reflexivity | reflexivity |].
  auto.
Defined.

Lemma offline_gap_conserved_witness :
  offline_total
    (compute_offline_segments eet_date eet_midnight
                              (Some (T0 - 86400)) (Some T0))
  = 86400.
Proof.
  destruct (offline_gap_conserved eet_date eet_midnight civil_from_days
                                  eet_midnight_increasing eet_date_spec)
    as (_ & _ & H).
  assert (Hlt : T0 - 86400 < T0) by lia.
  pose proof (H (T0 - 86400) T0 Hlt) as H'. cbv zeta in H'.
  destruct H' as [H' _]. rewrite H'. lia.
Defined.

Lemma summary_keys_kept_witness :
  summary_keys_unique
    (conn (fst (run no_rounding sum_left_to_right sum_left_to_right
                    eet_date eet_midnight civil_from_days
                    (init_engine new_year_2024 empty_db)
                    one_heating_phase))).
Proof.
  apply (summary_keys_kept no_rounding sum_left_to_right sum_left_to_right
                           eet_date eet_midnight civil_from_days
                           (init_engine new_year_2024 empty_db)
                           one_heating_phase [] new_year_2024).
  repeat split; constructor.
Defined.

Lemma month_row_of_day_witness :
  let db :=
    build_day_summary_for_date no_rounding sum_left_to_right eet_midnight []
      (mkDB heating_then_defrost [] [] [] []) new_year_2024 in
  let db' :=
    update_month_year_total_for_day no_rounding sum_left_to_right
                                    civil_from_days db new_year_2024 in
  month_day_rows (month_summary db') 2024 1 1 Cooling = []
  /\ exists r,
       month_day_rows (month_summary db') 2024 1 1 Heating = [r]
       /\ times_a_day r = 1
       /\ total_time_s (mo_measures r) = 10.
Proof.
  intros db db'. split.
  - pose proof (month_row_of_day no_rounding sum_left_to_right civil_from_days
                                 db new_year_2024 Cooling) as H.
    cbv zeta in H. destruct H as [H _]. apply H. reflexivity.
  - pose proof (month_row_of_day no_rounding sum_left_to_right civil_from_days
                                 db new_year_2024 Heating) as H.
    cbv zeta in H. destruct H as [_ H].
    destruct H as (r & Hr & Ht & Hd & _); [vm_compute; discriminate|].
    exists r. split; [exact Hr|].
    split; [rewrite Ht | rewrite Hd by discriminate]; vm_compute; reflexivity.
Defined.

Lemma store_follows_writes_witness :
  let ticks := [([idle_snapshot], T0, float_of_Z T0)] in
  let store' :=
    snd (fst (run_live no_rounding sum_left_to_right sum_left_to_right
                       eet_date eet_midnight civil_from_days
                       (init_engine new_year_2024 empty_db) no_keys ticks)) in
  status store' = Some On /\ last_ts_utc_s store' = Some T0.
Proof.
  intros ticks store'.
  assert (Hup : forall updates ts t,
             In (updates, ts, t) ticks -> Forall poller_update updates).
  { intros updates ts t [H|[]]. injection H as <- _ _.
    repeat constructor. }
  pose proof (store_follows_writes
                no_rounding sum_left_to_right sum_left_to_right
                eet_date eet_midnight civil_from_days
                new_year_2024 empty_db no_keys ticks eq_refl Hup) as H.
  vm_compute in H. destruct H as [_ H].
  destruct (H _ eq_refl) as (H1 & H2 & _).
  split; [exact H1 | exact H2].
Defined.

Lemma segments_never_overlap_witness :
  let table :=
    build_day_table no_rounding sum_left_to_right eet_midnight []
                    heating_then_defrost new_year_2024 [] in
  match nth_error table 0, nth_error table 1 with
  | Some x, Some y =>
      d_status x = Heating /\ d_status y = Defrost
      /\ (x = y
          \/ end_ts_utc_s x < start_ts_utc_s y
          \/ end_ts_utc_s y < start_ts_utc_s x)
  | _, _ => False
  end.
Proof.
  intros table.
  pose proof (segments_never_overlap
                no_rounding sum_left_to_right eet_midnight []
                heating_then_defrost new_year_2024 []) as H.
  fold table in H.
  destruct (nth_error table 0) as [x|] eqn:Hx;
    [|vm_compute in Hx; discriminate].
  destruct (nth_error table 1) as [y|] eqn:Hy;
    [|vm_compute in Hy; discriminate].
  assert (Hx' := Hx). assert (Hy' := Hy).
  vm_compute in Hx', Hy'.
  injection Hx' as <-. injection Hy' as <-.
  split; [reflexivity|]. split; [reflexivity|].
  apply H; try reflexivity.
  - unfold heating_then_defrost, energy_sample.
    repeat constructor.
  - eapply nth_error_In; exact Hx.
  - eapply nth_error_In; exact Hy.
Defined.
